(** * AIFlightPriceTracker: the report core ([core/processor.py]) in Rocq

    A shallow embedding of the duration parser, the table renderer, the
    ranking engine, the price-history tracker, the flight normalizer and the
    report assembler, of the message splitting of [reporting/sms_reporter.py],
    the recipient list of [reporting/email_reporter.py] and the filters of
    [orchestrator.py], followed by the properties proved about them.

    Conventions of the embedding.
    - A Python [str] is a list of Unicode code points ([list N]); [len] is
      [length], slicing is [take]/[drop].
    - A Python [int] is a [Z]; a Python [float] is an IEEE-754 binary64 value
      (the kernel's primitive [float], with Python's [<], [+], [/]).
    - A raised exception is the [Raise] case of the result type [res]; a
      Python [None] return is [option]'s [None].
    - A dictionary used as a record (fixed keys) is a [Record]; a dictionary
      iterated in insertion order is an association list; the price history,
      which is only looked up and updated by key, is a [gmap]. *)

From Stdlib Require Import ZArith NArith List Lia Bool Ascii String Floats.
From Stdlib Require Import Permutation Sorted.
From stdpp Require Import base option list gmap.
Import ListNotations.

Local Open Scope Z_scope.

(** ** Exceptions and the result monad *)

Inductive exn : Set :=
| ValueError
| IndexError
| KeyError
| TypeError
| AttributeError
| OverflowError
| OSError.

Inductive res (A : Type) : Type :=
| Ok (a : A)
| Raise (e : exn).

Arguments Ok {A} a.
Arguments Raise {A} e.

#[global] Instance res_ret : MRet res := fun A a => Ok a.
#[global] Instance res_bind : MBind res := fun A B f m =>
  match m with
  | Ok a => f a
  | Raise e => Raise e
  end.

Definition is_ok {A} (r : res A) : bool :=
  match r with Ok _ => true | Raise _ => false end.

(** [l[i]] for a non-negative index [i]. *)
Definition index {A} (l : list A) (i : nat) : res A :=
  match l !! i with
  | Some x => Ok x
  | None => Raise IndexError
  end.

(** ** Python strings *)

Abbreviation str := (list N).

(** An ASCII literal as a string of code points. *)
Definition lit (s : string) : str :=
  map (fun a => N_of_ascii a) (list_ascii_of_string s).

Definition chr_space : N := 32.
Definition chr_newline : N := 10.
Definition chr_minus : N := 45.
Definition chr_plus : N := 43.
Definition chr_underscore : N := 95.
Definition chr_em_dash : N := 8212.   (* U+2014 *)
Definition chr_en_dash : N := 8211.   (* U+2013 *)

(** [s.startswith(p)] *)
Fixpoint starts_with (p s : str) : bool :=
  match p, s with
  | [], _ => true
  | _ :: _, [] => false
  | a :: p', b :: s' => (a =? b)%N && starts_with p' s'
  end.

(** [sub in s] *)
Fixpoint contains (sub s : str) : bool :=
  starts_with sub s ||
  match s with
  | [] => false
  | _ :: s' => contains sub s'
  end.

(** [s.lower()]: the ASCII letters are mapped, every other code point is
    kept.  Python also maps the cased letters outside ASCII; the only ASCII
    letters it makes of them are the [i] of U+0130, which a combining dot
    follows, and the [k] of U+212A, and neither can complete a text this
    module looks for ([h], [m], [etihad]).  Where the lowered text itself
    is kept ([display_duration]) the full mapping [lower_unicode] is
    used. *)
Definition lower_char (c : N) : N :=
  if ((65 <=? c) && (c <=? 90))%N then (c + 32)%N else c.

Definition lower (s : str) : str := map lower_char s.

(** [s.replace(old, new)]: leftmost non-overlapping occurrences.  [skip]
    counts the characters of a matched occurrence still to be dropped. *)
Fixpoint replace_go (old new : str) (skip : nat) (s : str) : str :=
  match s with
  | [] => []
  | c :: s' =>
      match skip with
      | S k => replace_go old new k s'
      | O =>
          if starts_with old s
          then new ++ replace_go old new (length old - 1) s'
          else c :: replace_go old new 0 s'
      end
  end.

Definition replace (old new s : str) : str :=
  match old with
  | [] => new ++ flat_map (fun c => c :: new) s
  | _ :: _ => replace_go old new 0 s
  end.

(** [s.split(sep)]: [cur] is the piece being read, reversed. *)
Fixpoint split_go (sep : str) (skip : nat) (cur : str) (s : str) : list str :=
  match s with
  | [] => [rev cur]
  | c :: s' =>
      match skip with
      | S k => split_go sep k cur s'
      | O =>
          if starts_with sep s
          then rev cur :: split_go sep (length sep - 1) [] s'
          else split_go sep 0 (c :: cur) s'
      end
  end.

Definition split (sep s : str) : res (list str) :=
  match sep with
  | [] => Raise ValueError
  | _ :: _ => Ok (split_go sep 0 [] s)
  end.

(** [sep.join(parts)] *)
Fixpoint join (sep : str) (parts : list str) : str :=
  match parts with
  | [] => []
  | [p] => p
  | p :: ps => p ++ sep ++ join sep ps
  end.

(** Whitespace.  [unicode_space] lists the non-ASCII code points Python
    treats as white space; [is_space] is [str.isspace] on one code point
    (what [strip] removes), [is_int_space] is what [int()] and [float()]
    skip around a number: they do not skip the separators U+001C..U+001F. *)
Definition unicode_space (c : N) : bool :=
  ((c =? 133) || (c =? 160) || (c =? 5760) || ((8192 <=? c) && (c <=? 8202))
   || (c =? 8232) || (c =? 8233) || (c =? 8239) || (c =? 8287)
   || (c =? 12288))%N.

Definition is_int_space (c : N) : bool :=
  (((9 <=? c) && (c <=? 13)) || (c =? 32))%N || unicode_space c.

Definition is_space (c : N) : bool :=
  is_int_space c || ((28 <=? c) && (c <=? 31))%N.

Fixpoint lstrip_by (space : N -> bool) (s : str) : str :=
  match s with
  | [] => []
  | c :: s' => if space c then lstrip_by space s' else s
  end.

Definition strip_by (space : N -> bool) (s : str) : str :=
  rev (lstrip_by space (rev (lstrip_by space s))).

(** [s.rstrip()] *)
Definition rstrip (s : str) : str := rev (lstrip_by is_space (rev s)).

(** ** Python integers and text *)

(** The code points of the decimal digit zero of every script (Unicode 14,
    the table of CPython 3.11); the nine digits after each follow it. *)
Definition decimal_zeros : list N :=
  [48; 1632; 1776; 1984; 2406; 2534; 2662; 2790; 2918; 3046; 3174; 3302;
   3430; 3558; 3664; 3792; 3872; 4160; 4240; 6112; 6160; 6470; 6608; 6784;
   6800; 6992; 7088; 7232; 7248; 42528; 43216; 43264; 43472; 43504; 43600;
   44016; 65296; 66720; 68912; 69734; 69872; 69942; 70096; 70384; 70736;
   70864; 71248; 71360; 71472; 71904; 72016; 72784; 73040; 73120; 92768;
   92864; 93008; 120782; 120792; 120802; 120812; 120822; 123200; 123632;
   125264; 130032]%N.

Fixpoint digit_in (zeros : list N) (c : N) : option Z :=
  match zeros with
  | [] => None
  | z :: zeros' =>
      if ((z <=? c) && (c <? z + 10))%N then Some (Z.of_N (c - z))
      else digit_in zeros' c
  end.

(** The value of a decimal digit, [None] for any other character. *)
Definition digit_val (c : N) : option Z := digit_in decimal_zeros c.

(** The digits of an integer literal: digit groups separated by single
    underscores.  [after_digit] tells whether the previous character was a
    digit. *)
Fixpoint int_digits (acc : Z) (after_digit : bool) (s : str) : option Z :=
  match s with
  | [] => if after_digit then Some acc else None
  | c :: s' =>
      match digit_val c with
      | Some d => int_digits (10 * acc + d) true s'
      | None =>
          if (c =? chr_underscore)%N && after_digit
          then int_digits acc false s'
          else None
      end
  end.

(** [int(s)] in base 10: white space around, an optional sign, then the
    digits (of any script); [ValueError] for anything else. *)
Definition int (s : str) : res Z :=
  let body := strip_by is_int_space s in
  let '(neg, ds) :=
    match body with
    | c :: rest =>
        if (c =? chr_minus)%N then (true, rest)
        else if (c =? chr_plus)%N then (false, rest)
        else (false, body)
    | [] => (false, body)
    end in
  match int_digits 0 false ds with
  | Some n => Ok (if neg then - n else n)
  | None => Raise ValueError
  end.

(** The decimal digits of a non-negative integer, most significant first;
    [fuel] bounds the number of digits. *)
Fixpoint digits_go (fuel : nat) (n : Z) (acc : str) : str :=
  match fuel with
  | O => acc
  | S f =>
      let acc' := Z.to_N (48 + n mod 10) :: acc in
      if n <? 10 then acc' else digits_go f (n / 10) acc'
  end.

Definition digits (n : Z) : str :=
  digits_go (S (Z.to_nat (Z.log2 n))) n [].

(** [str(n)] for an integer [n]. *)
Definition str_of_int (n : Z) : str :=
  if n <? 0 then chr_minus :: digits (- n) else digits n.

(** ** Duration parser *)

(** [parse_duration_to_minutes]: ['22h 30m'] gives [1350]. *)
Definition parse_duration_to_minutes (duration_str : str) : res Z :=
  let parts := replace (lit " ") (lit "") (lower duration_str) in
  '(hours, parts) ←
    (if contains (lit "h") parts then
       pieces ← split (lit "h") parts;
       h ← index pieces 0;
       hours ← (match h with [] => Ok 0 | _ :: _ => int h end);
       rest ← index pieces 1;
       Ok (hours, rest)
     else Ok (0, parts));
  minutes ←
    (if contains (lit "m") parts then
       pieces ← split (lit "m") parts;
       m ← index pieces 0;
       match m with [] => Ok 0 | _ :: _ => int m end
     else Ok 0);
  Ok (hours * 60 + minutes).

(** The duration text ["<h>h <m>m"] the reports show. *)
Definition render_duration (h m : Z) : str :=
  str_of_int h ++ lit "h " ++ str_of_int m ++ lit "m".

(** ** Table renderer *)

(** [len(s)] as a Python integer. *)
Definition len {A} (l : list A) : Z := Z.of_nat (length l).

(** [c * n]: a character repeated; empty when [n <= 0]. *)
Definition repeat_char (c : N) (n : Z) : str := replicate (Z.to_nat n) c.

(** [text[:width]]; a negative [width] counts from the end. *)
Definition slice_to (text : str) (width : Z) : str :=
  if width <? 0 then take (Z.to_nat (len text + width)) text
  else take (Z.to_nat width) text.

Definition ljust (text : str) (width : Z) : str :=
  text ++ repeat_char chr_space (width - len text).

Definition rjust (text : str) (width : Z) : str :=
  repeat_char chr_space (width - len text) ++ text.

(** [text.center(width)]: CPython puts [marg / 2 + (marg & width & 1)]
    spaces on the left. *)
Definition center (text : str) (width : Z) : str :=
  let marg := width - len text in
  if marg <=? 0 then text
  else
    let left := marg / 2 + Z.land (Z.land marg width) 1 in
    repeat_char chr_space left ++ text ++ repeat_char chr_space (marg - left).

(** [_pad(text, width, align)] *)
Definition _pad (text : str) (width : Z) (align : str) : str :=
  if width <? len text then slice_to text width
  else if bool_decide (align = lit "right") then rjust text width
  else if bool_decide (align = lit "center") then center text width
  else ljust text width.

(** [render_ascii_block(table)]: the table between two lines of three
    backticks. *)
Definition render_ascii_block (table : str) : str :=
  lit "```" ++ [chr_newline] ++ table ++ [chr_newline] ++ lit "```".

(** A table cell ([Any] in the source): the callers pass text, [str(cell)]
    also renders integers. *)
Inductive cell : Type :=
| CStr (s : str)
| CInt (n : Z).

Definition str_of (c : cell) : str :=
  match c with
  | CStr s => s
  | CInt n => str_of_int n
  end.

(** The inner loop of [auto_column_widths] for one row: for [i] in
    [range(num_cols)], when [i < len(row)], [max_lengths[i]] becomes the
    larger of itself and the cell's length.  [max_lengths] has [num_cols]
    entries, so the update is always in range. *)
Definition widen_for_row (num_cols : nat) (max_lengths : list Z)
    (row : list cell) : list Z :=
  foldl (fun ml i =>
           match row !! i with
           | Some c => alter (fun l => Z.max l (len (str_of c))) i ml
           | None => ml
           end)
        max_lengths (seq 0 num_cols).

(** [auto_column_widths(headers, rows, padding)] *)
Definition auto_column_widths (headers : list str) (rows : list (list cell))
    (padding : Z) : list Z :=
  let num_cols := length headers in
  let max_lengths := map len headers in
  let max_lengths := foldl (widen_for_row num_cols) max_lengths rows in
  map (fun l => l + padding) max_lengths.

Definition default_padding : Z := 2.

(** The generator inside [format_row]: the padded cells of
    [enumerate(row)], counting from [i]. *)
Fixpoint format_cells (widths : list Z) (aligns : list str) (i : nat)
    (row : list cell) : res (list str) :=
  match row with
  | [] => Ok []
  | c :: row' =>
      w ← index widths i;
      a ← index aligns i;
      rest ← format_cells widths aligns (S i) row';
      Ok (_pad (str_of c) w a :: rest)
  end.

Definition format_row (widths : list Z) (aligns : list str)
    (row : list cell) : res str :=
  cells ← format_cells widths aligns 0 row;
  Ok (lit "| " ++ join (lit " | ") cells ++ lit " |").

Definition border (widths : list Z) : str :=
  lit "+-" ++ join (lit "-+-") (map (repeat_char chr_minus) widths) ++ lit "-+".

(** The [lines] list of [make_table], before it is joined. *)
Definition make_table_lines (headers : list str) (rows : list (list cell))
    (widths : list Z) (aligns : option (list str)) : res (list str) :=
  let aligns :=
    match aligns with
    | None => replicate (length headers) (lit "left")
    | Some a => a
    end in
  header_line ← format_row widths aligns (map CStr headers);
  row_lines ← mapM (format_row widths aligns) rows;
  Ok ([border widths; header_line; border widths] ++ row_lines ++ [border widths]).

(** [make_table(headers, rows, widths, aligns)] *)
Definition make_table (headers : list str) (rows : list (list cell))
    (widths : list Z) (aligns : option (list str)) : res str :=
  lines ← make_table_lines headers rows widths aligns;
  Ok (join [chr_newline] lines).

(** The lines of a text: [text.split("\n")]. *)
Definition lines_of (text : str) : list str := split_go [chr_newline] 0 [] text.

(** ** Python floats *)

(** [float(n)] for an integer [n], also the conversion in [n / 1000.0]:
    the nearest binary64 value, ties to even; [OverflowError] when that
    would be infinite. *)
Definition float_of_int (n : Z) : res float :=
  let x := SF2Prim (binary_normalize prec emax n 0 false) in
  if PrimFloat.is_infinity x then Raise OverflowError else Ok x.

(** [num / den] rounded to the nearest integer, ties to even ([den > 0]). *)
Definition round_half_even (num den : Z) : Z :=
  let q := num / den in
  let r := num mod den in
  if 2 * r <? den then q
  else if den <? 2 * r then q + 1
  else if Z.even q then q else q + 1.

(** [format(x, ".<ndigits>f")]: the exact value of [x] rounded to [ndigits]
    decimals, ties to even. *)
Definition format_fixed (ndigits : nat) (x : float) : str :=
  let scale := 10 ^ Z.of_nat ndigits in
  let body (neg : bool) (n : Z) : str :=
    (if neg then [chr_minus] else []) ++ digits (n / scale) ++
    match ndigits with
    | O => []
    | S _ =>
        let frac := digits (n mod scale) in
        46%N :: replicate (ndigits - length frac) 48%N ++ frac
    end in
  match Prim2SF x with
  | S754_nan => lit "nan"
  | S754_infinity s => if s then lit "-inf" else lit "inf"
  | S754_zero s => body s 0
  | S754_finite s m e =>
      body s (if 0 <=? e then Z.pos m * 2 ^ e * scale
              else round_half_even (Z.pos m * scale) (2 ^ (- e)))
  end.

(** ** Sorting *)

(** [sorted(l)] is a stable sort that compares with [<] only.  Where [<]
    orders the elements consistently, the stable ascending arrangement is
    unique; it is computed here by insertion: [x] goes behind the elements
    smaller than it and before every other one.  Where [<] orders nothing
    (a NaN among float keys) the result of [list.sort] depends on how it
    cuts the list into runs, and the insertion below follows it only on a
    list that is one run already, that is, in which no element is smaller
    than the one before it ([is_run]): [list.sort] finds the one run and
    leaves the list as it is, and so does [sorted_with]
    ([sorted_with_run]).  Outside these two cases nothing is stated about
    the order [sorted_with] gives. *)
Fixpoint insert_sorted {A} (lt : A -> A -> bool) (x : A) (l : list A) : list A :=
  match l with
  | [] => [x]
  | y :: l' => if lt y x then y :: insert_sorted lt x l' else x :: l
  end.

Definition sorted_with {A} (lt : A -> A -> bool) (l : list A) : list A :=
  foldr (insert_sorted lt) [] l.

(** No element of [l] is smaller than the one before it: what
    [list.sort] takes for a single ascending run. *)
Fixpoint is_run {A} (lt : A -> A -> bool) (l : list A) : bool :=
  match l with
  | x :: (y :: _) as l' => negb (lt y x) && is_run lt l'
  | _ => true
  end.

(** [sorted(l, key=key)] for a float key. *)
Definition sorted_by {A} (key : A -> float) (l : list A) : list A :=
  sorted_with (fun a b => PrimFloat.ltb (key a) (key b)) l.

(** [sorted(l, key=key)] for an integer key. *)
Definition sorted_by_int {A} (key : A -> Z) (l : list A) : list A :=
  sorted_with (fun a b => key a <? key b) l.

(** ** Ranking engine *)

(** A normalized flight record, the dictionary [extract_flights] builds. *)
Record flight : Type := {
  airline : str;
  price : float;
  duration : str;
  stops : Z;
  layover_city : str;
  layover_hours : float;
  departure : str;
  arrival : str;
}.

(** A day bucket: [{"date": ..., "flights": [...]}]. *)
Record day : Type := {
  date : str;
  flights : list flight;
}.

(** A flight with the helper values [compute_best_day] adds to it. *)
Record norm_flight : Type := {
  nf_flight : flight;
  price_val : float;
  layover_val : float;
  duration_val : Z;
}.

(** The [cheapest] and [shortest_layover] entries. *)
Record best_day : Type := {
  bd_date : str;
  bd_price : float;
  bd_airline : str;
  bd_layover_city : str;
  bd_layover_hours : float;
}.

(** The [shortest_duration] entry. *)
Record best_duration : Type := {
  bu_date : str;
  bu_price : float;
  bu_airline : str;
  bu_duration : str;
  bu_duration_minutes : Z;
  bu_layover_city : str;
  bu_layover_hours : float;
}.

(** An entry of [scored_flights]. *)
Record scored : Type := {
  sc_date : str;
  sc_score : float;
  sc_price : float;
  sc_airline : str;
  sc_duration : str;
  sc_layover_city : str;
  sc_layover_hours : float;
}.

(** The four accumulators of the loop over the days. *)
Record ranking : Type := {
  rk_cheapest : option best_day;
  rk_shortest_duration : option best_duration;
  rk_shortest_layover : option best_day;
  rk_scored_flights : list scored;
}.

(** The dictionary [compute_best_day] returns. *)
Record summary : Type := {
  cheapest : option best_day;
  shortest_duration : option best_duration;
  shortest_layover : option best_day;
  top3_overall : list scored;
  text_summary : str;
}.

Definition normalize (f : flight) : res norm_flight :=
  duration_val ← parse_duration_to_minutes (duration f);
  Ok {| nf_flight := f;
        price_val := price f;
        layover_val := layover_hours f;
        duration_val := duration_val |}.

Definition best_day_of (date : str) (f : norm_flight) : best_day :=
  {| bd_date := date;
     bd_price := price_val f;
     bd_airline := airline (nf_flight f);
     bd_layover_city := layover_city (nf_flight f);
     bd_layover_hours := layover_val f |}.

Definition best_duration_of (date : str) (f : norm_flight) : best_duration :=
  {| bu_date := date;
     bu_price := price_val f;
     bu_airline := airline (nf_flight f);
     bu_duration := duration (nf_flight f);
     bu_duration_minutes := duration_val f;
     bu_layover_city := layover_city (nf_flight f);
     bu_layover_hours := layover_val f |}.

(** [price_val / 1000.0 + duration_val / 1000.0 + layover_val / 10.0] *)
Definition score_of (f : norm_flight) : res float :=
  minutes ← float_of_int (duration_val f);
  Ok (price_val f / 1000 + minutes / 1000 + layover_val f / 10)%float.

Definition scored_of (date : str) (f : norm_flight) : res scored :=
  score ← score_of f;
  Ok {| sc_date := date;
        sc_score := score;
        sc_price := price_val f;
        sc_airline := airline (nf_flight f);
        sc_duration := duration (nf_flight f);
        sc_layover_city := layover_city (nf_flight f);
        sc_layover_hours := layover_val f |}.

(** One iteration of the loop over [all_days]. *)
Definition rank_day (acc : ranking) (d : day) : res ranking :=
  match flights d with
  | [] => Ok acc
  | _ :: _ =>
      norm_flights ← mapM normalize (flights d);
      cheapest_flight ← index (sorted_by price_val norm_flights) 0;
      let cheapest :=
        match rk_cheapest acc with
        | None => Some (best_day_of (date d) cheapest_flight)
        | Some c =>
            if (price_val cheapest_flight <? bd_price c)%float
            then Some (best_day_of (date d) cheapest_flight)
            else Some c
        end in
      shortest_duration_flight ← index (sorted_by_int duration_val norm_flights) 0;
      let shortest_duration :=
        match rk_shortest_duration acc with
        | None => Some (best_duration_of (date d) shortest_duration_flight)
        | Some c =>
            if duration_val shortest_duration_flight <? bu_duration_minutes c
            then Some (best_duration_of (date d) shortest_duration_flight)
            else Some c
        end in
      shortest_layover_flight ← index (sorted_by layover_val norm_flights) 0;
      let shortest_layover :=
        match rk_shortest_layover acc with
        | None => Some (best_day_of (date d) shortest_layover_flight)
        | Some c =>
            if (layover_val shortest_layover_flight <? bd_layover_hours c)%float
            then Some (best_day_of (date d) shortest_layover_flight)
            else Some c
        end in
      new_scored ← mapM (scored_of (date d)) norm_flights;
      Ok {| rk_cheapest := cheapest;
            rk_shortest_duration := shortest_duration;
            rk_shortest_layover := shortest_layover;
            rk_scored_flights := rk_scored_flights acc ++ new_scored |}
  end.

Fixpoint rank_days (acc : ranking) (days : list day) : res ranking :=
  match days with
  | [] => Ok acc
  | d :: days' => acc' ← rank_day acc d; rank_days acc' days'
  end.

Definition empty_ranking : ranking :=
  {| rk_cheapest := None;
     rk_shortest_duration := None;
     rk_shortest_layover := None;
     rk_scored_flights := [] |}.

(** The plain-text summary: one line per category that is present. *)
Definition summary_text (r : ranking) : str :=
  let part1 :=
    match rk_cheapest r with
    | Some c => [lit "Cheapest Day: " ++ bd_date c ++ lit " " ++ [chr_em_dash]
                 ++ lit " $" ++ format_fixed 2 (bd_price c)]
    | None => []
    end in
  let part2 :=
    match rk_shortest_duration r with
    | Some c => [lit "Shortest Duration: " ++ bu_date c ++ lit " "
                 ++ [chr_em_dash] ++ lit " " ++ bu_duration c]
    | None => []
    end in
  let part3 :=
    match rk_shortest_layover r with
    | Some c => [lit "Shortest Layover: " ++ bd_date c ++ lit " "
                 ++ [chr_em_dash] ++ lit " "
                 ++ format_fixed 1 (bd_layover_hours c) ++ lit "h"]
    | None => []
    end in
  join [chr_newline] (part1 ++ part2 ++ part3).

(** [compute_best_day(all_days)] *)
Definition compute_best_day (all_days : list day) : res summary :=
  r ← rank_days empty_ranking all_days;
  let top3_sorted := take 3 (sorted_by sc_score (rk_scored_flights r)) in
  Ok {| cheapest := rk_cheapest r;
        shortest_duration := rk_shortest_duration r;
        shortest_layover := rk_shortest_layover r;
        top3_overall := top3_sorted;
        text_summary := summary_text r |}.

(** ** Price history *)

(** What is on disk under [PRICE_HISTORY_FILE]: nothing, something that
    cannot be read as JSON, or a dictionary from dates to prices.  The
    dictionary is taken as the mapping it holds, which is all that
    [detect_price_drop] looks at: the order in which [json.dump] writes the
    keys (that of their first insertion) and the layout of the text are
    not part of it, so two files with the same [history_file] hold the
    same prices but need not be the same text.  The file is the module's
    own: JSON of another shape (a list, a dictionary holding something
    other than numbers), which [_save_price_history] never writes, is not
    among the states. *)
Inductive history_file : Type :=
| FileMissing
| FileCorrupt
| FileHistory (h : gmap (list N) float).

(** How the next write to the file goes: it succeeds, [open] fails and the
    file is untouched, or the dump fails after the file was truncated. *)
Inductive write_fault : Set :=
| NoFault
| OpenFails
| DumpFails.

(** The part of the world [detect_price_drop] reads and changes. *)
Record disk : Type := {
  file : history_file;
  fault : write_fault;
}.

(** [_load_price_history()]: a missing or unreadable file is an empty
    history. *)
Definition _load_price_history (s : disk) : gmap (list N) float :=
  match file s with
  | FileHistory h => h
  | FileMissing | FileCorrupt => ∅
  end.

(** [_save_price_history(history)]: no exception is caught here. *)
Definition _save_price_history (history : gmap (list N) float) (s : disk)
  : res unit * disk :=
  match fault s with
  | NoFault => (Ok tt, {| file := FileHistory history; fault := fault s |})
  | OpenFails => (Raise OSError, s)
  | DumpFails => (Raise OSError, {| file := FileCorrupt; fault := fault s |})
  end.

Definition chr_fire : N := 128293.         (* U+1F525 *)
Definition chr_down_arrow : N := 8595.     (* U+2193 *)

Definition drop_message (date_str : str) (prev_price current_price : float)
  : str :=
  let diff := (prev_price - current_price)%float in
  [chr_fire] ++ lit " Price drop on " ++ date_str ++ lit ": was $"
  ++ format_fixed 2 prev_price ++ lit ", now $"
  ++ format_fixed 2 current_price ++ lit " (" ++ [chr_down_arrow]
  ++ lit " $" ++ format_fixed 2 diff ++ lit ")".

(** [detect_price_drop(date_str, current_price)]: the result ([None] for no
    notification) and the disk afterwards. *)
Definition detect_price_drop (date_str : str) (current_price : float)
    (s : disk) : res (option str) * disk :=
  let history := _load_price_history s in
  let prev_price := history !! date_str in
  let history := <[date_str := current_price]> history in
  let '(saved, s') := _save_price_history history s in
  match saved with
  | Raise e => (Raise e, s')
  | Ok _ =>
      match prev_price with
      | None => (Ok None, s')
      | Some prev_price =>
          if (current_price <? prev_price)%float
          then (Ok (Some (drop_message date_str prev_price current_price)), s')
          else (Ok None, s')
      end
  end.

(** ** Report assembler *)

(** The data classes of the tables. *)
Record FlightOption : Type := {
  fo_option_number : Z;
  fo_airline : str;
  fo_price : float;
  fo_duration : str;
  fo_stops : Z;
  fo_layover_city : str;
  fo_layover_hours : float;
  fo_departure : str;
  fo_arrival : str;
}.

Record DayFlights : Type := {
  df_date : str;
  df_options : list FlightOption;
}.

Record BestDayCategory : Type := {
  bc_category : str;
  bc_date : str;
  bc_price : float;
  bc_airline : str;
  bc_layover_city : str;
  bc_layover_hours : float;
}.

Record OverallBestDay : Type := {
  ob_date : str;
  ob_score : float;
  ob_price : float;
  ob_airline : str;
  ob_duration : str;
  ob_layover_city : str;
  ob_layover_hours : float;
}.

Definition EXCLUDED_AIRLINES : list str := [lit "CX"; lit "AI"].

Definition chr_star : N := 127775.       (* U+1F31F *)
Definition chr_globe : N := 127757.      (* U+1F30D *)
Definition chr_calendar : N := 128197.   (* U+1F4C5 *)
Definition chr_plane : str := [9992; 65039]%N.   (* U+2708 U+FE0F *)

(** The separator [" — "] between carrier code and name. *)
Definition dash_sep : str := lit " " ++ [chr_em_dash] ++ lit " ".

Definition parse_flight_option (option_number : Z) (raw : flight)
  : FlightOption :=
  {| fo_option_number := option_number;
     fo_airline := airline raw;
     fo_price := price raw;
     fo_duration := duration raw;
     fo_stops := stops raw;
     fo_layover_city := layover_city raw;
     fo_layover_hours := layover_hours raw;
     fo_departure := departure raw;
     fo_arrival := arrival raw |}.

(** The loop of [parse_day_flights]: [enumerate(raw_options, start=idx)]. *)
Fixpoint parse_options (idx : Z) (raw_options : list flight)
  : list FlightOption :=
  match raw_options with
  | [] => []
  | raw :: rest => parse_flight_option idx raw :: parse_options (idx + 1) rest
  end.

Definition parse_day_flights (date : str) (raw_options : list flight)
  : DayFlights :=
  {| df_date := date; df_options := parse_options 1 raw_options |}.

(** [parse_best_day_category] on a best-day entry to which the section
    builder has added its category. *)
Definition parse_best_day_category (category : str) (raw : best_day)
  : BestDayCategory :=
  {| bc_category := category;
     bc_date := bd_date raw;
     bc_price := bd_price raw;
     bc_airline := bd_airline raw;
     bc_layover_city := bd_layover_city raw;
     bc_layover_hours := bd_layover_hours raw |}.

(** The shortest-duration entry read as a best-day entry: the parser looks
    up the same five keys and ignores the others. *)
Definition best_day_of_duration (raw : best_duration) : best_day :=
  {| bd_date := bu_date raw;
     bd_price := bu_price raw;
     bd_airline := bu_airline raw;
     bd_layover_city := bu_layover_city raw;
     bd_layover_hours := bu_layover_hours raw |}.

Definition parse_overall_best_day (raw : scored) : OverallBestDay :=
  {| ob_date := sc_date raw;
     ob_score := sc_score raw;
     ob_price := sc_price raw;
     ob_airline := sc_airline raw;
     ob_duration := sc_duration raw;
     ob_layover_city := sc_layover_city raw;
     ob_layover_hours := sc_layover_hours raw |}.

Definition parse_best_overall_days (raw : list scored) : list OverallBestDay :=
  map parse_overall_best_day raw.

(** *** Table builders *)

Definition best_day_headers : list str :=
  [lit "Category"; lit "Date"; lit "Price"; lit "Airline"; lit "Layover"].

Definition best_day_row (c : BestDayCategory) : list cell :=
  let layover_str :=
    bc_layover_city c ++ dash_sep ++ format_fixed 1 (bc_layover_hours c)
    ++ lit "h" in
  [CStr (bc_category c); CStr (bc_date c); CStr (format_fixed 2 (bc_price c));
   CStr (bc_airline c); CStr layover_str].

Definition build_best_day_summary_table (categories : list BestDayCategory)
  : res str :=
  let headers := best_day_headers in
  let rows := map best_day_row categories in
  let widths := auto_column_widths headers rows default_padding in
  let aligns := [lit "left"; lit "left"; lit "right"; lit "left"; lit "left"] in
  make_table headers rows widths (Some aligns).

Definition top3_headers : list str :=
  [lit "Date"; lit "Score"; lit "Price"; lit "Airline"; lit "Duration";
   lit "Layover Hours"; lit "Layover City"].

Definition top3_row (d : OverallBestDay) : list cell :=
  [CStr (ob_date d); CStr (format_fixed 2 (ob_score d));
   CStr (format_fixed 2 (ob_price d)); CStr (ob_airline d);
   CStr (ob_duration d); CStr (format_fixed 1 (ob_layover_hours d) ++ lit "h");
   CStr (ob_layover_city d)].

Definition build_top3_overall_table (overall_days : list OverallBestDay)
  : res str :=
  let headers := top3_headers in
  let rows := map top3_row overall_days in
  let widths := auto_column_widths headers rows default_padding in
  let aligns := [lit "left"; lit "right"; lit "right"; lit "left"; lit "left";
                 lit "right"; lit "left"] in
  make_table headers rows widths (Some aligns).

Definition daily_headers : list str :=
  [lit "Option"; lit "Airline"; lit "Price"; lit "Duration"; lit "Stops";
   lit "Layover City"; lit "Layover Hours"; lit "Departure"; lit "Arrival"].

Definition daily_row (opt : FlightOption) : list cell :=
  [CStr (str_of_int (fo_option_number opt)); CStr (fo_airline opt);
   CStr (format_fixed 2 (fo_price opt)); CStr (fo_duration opt);
   CStr (str_of_int (fo_stops opt)); CStr (fo_layover_city opt);
   CStr (format_fixed 1 (fo_layover_hours opt) ++ lit "h");
   CStr (fo_departure opt); CStr (fo_arrival opt)].

(** The filter loop of [build_daily_flights_table]: the options whose
    carrier code is not excluded. *)
Fixpoint filter_excluded (options : list FlightOption)
  : res (list FlightOption) :=
  match options with
  | [] => Ok []
  | opt :: rest =>
      pieces ← split dash_sep (fo_airline opt);
      airline_code ← index pieces 0;
      filtered ← filter_excluded rest;
      Ok (if bool_decide (airline_code ∈ EXCLUDED_AIRLINES)
          then filtered else opt :: filtered)
  end.

Definition build_daily_flights_table (day_flights : DayFlights) : res str :=
  let headers := daily_headers in
  filtered ← filter_excluded (df_options day_flights);
  let options := take 10 filtered in
  let rows := map daily_row options in
  let widths := auto_column_widths headers rows default_padding in
  let aligns := [lit "right"; lit "left"; lit "right"; lit "left"; lit "right";
                 lit "left"; lit "right"; lit "left"; lit "left"] in
  table ← make_table headers rows widths (Some aligns);
  Ok ([chr_calendar] ++ lit " " ++ df_date day_flights ++ [chr_newline]
      ++ table).

(** *** Section builders *)

Definition no_best_day_text : str := lit "No best-day summary available.".
Definition no_top3_text : str := lit "No top-3 overall days available.".

(** [build_best_day_section(best_days_raw)]; the orchestrator passes the
    summary of [compute_best_day]. *)
Definition build_best_day_section (best_days_raw : summary) : res str :=
  let categories :=
    match cheapest best_days_raw with
    | Some c => [parse_best_day_category (lit "Cheapest Day") c]
    | None => []
    end
    ++ match shortest_duration best_days_raw with
       | Some c => [parse_best_day_category (lit "Shortest Duration")
                      (best_day_of_duration c)]
       | None => []
       end
    ++ match shortest_layover best_days_raw with
       | Some c => [parse_best_day_category (lit "Shortest Layover") c]
       | None => []
       end in
  match categories with
  | [] => Ok no_best_day_text
  | _ :: _ =>
      table ← build_best_day_summary_table categories;
      Ok ([chr_star] ++ lit " BEST DAY TO FLY SUMMARY " ++ [chr_star]
          ++ [chr_newline; chr_newline] ++ render_ascii_block table)
  end.

Definition build_top3_overall_section (overall_days_raw : list scored)
  : res str :=
  let overall_days := parse_best_overall_days overall_days_raw in
  match overall_days with
  | [] => Ok no_top3_text
  | _ :: _ =>
      table ← build_top3_overall_table overall_days;
      Ok ([chr_globe] ++ lit " TOP 3 BEST OVERALL DAYS " ++ [chr_globe]
          ++ [chr_newline; chr_newline] ++ render_ascii_block table)
  end.

(** [<] on strings: lexicographic on the code points. *)
Fixpoint str_lt (a b : str) : bool :=
  match a, b with
  | _, [] => false
  | [], _ :: _ => true
  | x :: a', y :: b' => (x <? y)%N || ((x =? y)%N && str_lt a' b')
  end.

(** [d[key]] on a dictionary kept as an association list. *)
Fixpoint dict_get {V} (d : list (str * V)) (key : str) : res V :=
  match d with
  | [] => Raise KeyError
  | (k, v) :: d' => if bool_decide (k = key) then Ok v else dict_get d' key
  end.

(** The body of the loop of [build_daily_sections]: the two parts it
    appends for one date, the table of the day and an empty text. *)
Definition daily_parts (daily_raw : list (str * list flight)) (date : str)
  : res (list str) :=
  raw_options ← dict_get daily_raw date;
  let day_flights := parse_day_flights date raw_options in
  table ← build_daily_flights_table day_flights;
  Ok [table; []].

(** [build_daily_sections(daily_raw)]: one table per date, dates in
    ascending order; trailing white space is stripped from the joined
    text. *)
Definition build_daily_sections (daily_raw : list (str * list flight))
  : res str :=
  parts ← mapM (daily_parts daily_raw) (sorted_with str_lt (map fst daily_raw));
  Ok (rstrip (join [chr_newline] (concat parts))).

(** A row of the carrier table. *)
Record etihad_row : Type := {
  er_date : str;
  er_price : float;
  er_duration : str;
  er_layover_hours : float;
}.

(** The test the report makes on an airline name. *)
Definition is_etihad (airline_text : str) : bool :=
  let airline_name := lower airline_text in
  let airline_name :=
    replace [chr_en_dash] (lit "-")
      (replace [chr_em_dash] (lit "-") airline_name) in
  contains (lit "etihad") airline_name.

(** The loop over [daily_raw.items()] that collects the carrier's rows (the
    debugging [print] of the rows that follows it is left out). *)
Definition collect_etihad_rows (daily_raw : list (str * list flight))
  : list etihad_row :=
  flat_map (fun '(date, flights) =>
              flat_map (fun f =>
                          if is_etihad (airline f)
                          then [{| er_date := date;
                                   er_price := price f;
                                   er_duration := duration f;
                                   er_layover_hours := layover_hours f |}]
                          else [])
                       flights)
           daily_raw.

Definition etihad_headers : list str :=
  [lit "Date"; lit "Price"; lit "Duration"; lit "Layover"].

Definition etihad_cells (r : etihad_row) : list cell :=
  [CStr (er_date r); CStr (format_fixed 2 (er_price r)); CStr (er_duration r);
   CStr (format_fixed 1 (er_layover_hours r) ++ lit "h")].

Definition etihad_title : str :=
  chr_plane ++ lit " ETIHAD AIRWAYS " ++ [chr_em_dash]
  ++ lit " MARCH 20 TO MARCH 31".

Definition no_etihad_text : str :=
  chr_plane ++ lit " ETIHAD AIRWAYS " ++ [chr_em_dash]
  ++ lit " No flights found for this date range.".

(** The carrier rows of the report, sorted by price. *)
Definition etihad_rows (daily_raw : list (str * list flight))
  : list etihad_row :=
  sorted_by er_price (collect_etihad_rows daily_raw).

(** Part 3 of [build_full_report]: the carrier section. *)
Definition etihad_section (daily_raw : list (str * list flight)) : res str :=
  let etihad_rows := etihad_rows daily_raw in
  match etihad_rows with
  | _ :: _ =>
      let headers := etihad_headers in
      let rows := map etihad_cells etihad_rows in
      let widths := auto_column_widths headers rows default_padding in
      let aligns := [lit "left"; lit "right"; lit "left"; lit "right"] in
      etihad_table ← make_table headers rows widths (Some aligns);
      Ok (etihad_title ++ [chr_newline; chr_newline]
          ++ render_ascii_block etihad_table)
  | [] => Ok no_etihad_text
  end.

(** [build_full_report(best_days_raw, overall_raw, daily_raw)] *)
Definition build_full_report (best_days_raw : summary)
    (overall_raw : list scored) (daily_raw : list (str * list flight))
  : res str :=
  best_section ← build_best_day_section best_days_raw;
  overall_section ← build_top3_overall_section overall_raw;
  etihad_section ← etihad_section daily_raw;
  daily_section ← build_daily_sections daily_raw;
  let sections := [best_section; []; overall_section; []; etihad_section; [];
                   daily_section] in
  Ok (join [chr_newline] sections).

(** ** Lower case of any text *)

(** [str.lower()] as CPython 3.11 computes it (Unicode 14.0).  A run
    [(first, count, step, target)] of [lower_runs] stands for the [count]
    upper-case code points [first], [first + step], ... whose lower-case
    forms are [target], [target + step], ...; every code point outside
    the runs is its own lower-case form, but for two: U+0130 becomes [i]
    followed by U+0307, and the capital sigma U+03A3 becomes the final
    sigma U+03C2 at the end of a word, else U+03C3. *)
Definition lower_runs : list (N * N * N * N) :=
  [(65, 26, 1, 97); (192, 23, 1, 224); (216, 7, 1, 248); (256, 24, 2, 257);
   (306, 3, 2, 307); (313, 8, 2, 314); (330, 23, 2, 331); (376, 1, 1, 255);
   (377, 3, 2, 378); (385, 1, 1, 595); (386, 2, 2, 387); (390, 1, 1, 596);
   (391, 1, 1, 392); (393, 2, 1, 598); (395, 1, 1, 396); (398, 1, 1, 477);
   (399, 1, 1, 601); (400, 1, 1, 603); (401, 1, 1, 402); (403, 1, 1, 608);
   (404, 1, 1, 611); (406, 1, 1, 617); (407, 1, 1, 616); (408, 1, 1, 409);
   (412, 1, 1, 623); (413, 1, 1, 626); (415, 1, 1, 629); (416, 3, 2, 417);
   (422, 1, 1, 640); (423, 1, 1, 424); (425, 1, 1, 643); (428, 1, 1, 429);
   (430, 1, 1, 648); (431, 1, 1, 432); (433, 2, 1, 650); (435, 2, 2, 436);
   (439, 1, 1, 658); (440, 1, 1, 441); (444, 1, 1, 445); (452, 1, 1, 454);
   (453, 1, 1, 454); (455, 1, 1, 457); (456, 1, 1, 457); (458, 1, 1, 460);
   (459, 9, 2, 460); (478, 9, 2, 479); (497, 1, 1, 499); (498, 2, 2, 499);
   (502, 1, 1, 405); (503, 1, 1, 447); (504, 20, 2, 505); (544, 1, 1, 414);
   (546, 9, 2, 547); (570, 1, 1, 11365); (571, 1, 1, 572); (573, 1, 1, 410);
   (574, 1, 1, 11366); (577, 1, 1, 578); (579, 1, 1, 384); (580, 1, 1, 649);
   (581, 1, 1, 652); (582, 5, 2, 583); (880, 2, 2, 881); (886, 1, 1, 887);
   (895, 1, 1, 1011); (902, 1, 1, 940); (904, 3, 1, 941); (908, 1, 1, 972);
   (910, 2, 1, 973); (913, 17, 1, 945); (931, 9, 1, 963); (975, 1, 1, 983);
   (984, 12, 2, 985); (1012, 1, 1, 952); (1015, 1, 1, 1016); (1017, 1, 1,
   1010); (1018, 1, 1, 1019); (1021, 3, 1, 891); (1024, 16, 1, 1104); (1040,
   32, 1, 1072); (1120, 17, 2, 1121); (1162, 27, 2, 1163); (1216, 1, 1,
   1231); (1217, 7, 2, 1218); (1232, 48, 2, 1233); (1329, 38, 1, 1377);
   (4256, 38, 1, 11520); (4295, 1, 1, 11559); (4301, 1, 1, 11565); (5024, 80,
   1, 43888); (5104, 6, 1, 5112); (7312, 43, 1, 4304); (7357, 3, 1, 4349);
   (7680, 75, 2, 7681); (7838, 1, 1, 223); (7840, 48, 2, 7841); (7944, 8, 1,
   7936); (7960, 6, 1, 7952); (7976, 8, 1, 7968); (7992, 8, 1, 7984); (8008,
   6, 1, 8000); (8025, 4, 2, 8017); (8040, 8, 1, 8032); (8072, 8, 1, 8064);
   (8088, 8, 1, 8080); (8104, 8, 1, 8096); (8120, 2, 1, 8112); (8122, 2, 1,
   8048); (8124, 1, 1, 8115); (8136, 4, 1, 8050); (8140, 1, 1, 8131); (8152,
   2, 1, 8144); (8154, 2, 1, 8054); (8168, 2, 1, 8160); (8170, 2, 1, 8058);
   (8172, 1, 1, 8165); (8184, 2, 1, 8056); (8186, 2, 1, 8060); (8188, 1, 1,
   8179); (8486, 1, 1, 969); (8490, 1, 1, 107); (8491, 1, 1, 229); (8498, 1,
   1, 8526); (8544, 16, 1, 8560); (8579, 1, 1, 8580); (9398, 26, 1, 9424);
   (11264, 48, 1, 11312); (11360, 1, 1, 11361); (11362, 1, 1, 619); (11363,
   1, 1, 7549); (11364, 1, 1, 637); (11367, 3, 2, 11368); (11373, 1, 1, 593);
   (11374, 1, 1, 625); (11375, 1, 1, 592); (11376, 1, 1, 594); (11378, 1, 1,
   11379); (11381, 1, 1, 11382); (11390, 2, 1, 575); (11392, 50, 2, 11393);
   (11499, 2, 2, 11500); (11506, 1, 1, 11507); (42560, 23, 2, 42561); (42624,
   14, 2, 42625); (42786, 7, 2, 42787); (42802, 31, 2, 42803); (42873, 2, 2,
   42874); (42877, 1, 1, 7545); (42878, 5, 2, 42879); (42891, 1, 1, 42892);
   (42893, 1, 1, 613); (42896, 2, 2, 42897); (42902, 10, 2, 42903); (42922,
   1, 1, 614); (42923, 1, 1, 604); (42924, 1, 1, 609); (42925, 1, 1, 620);
   (42926, 1, 1, 618); (42928, 1, 1, 670); (42929, 1, 1, 647); (42930, 1, 1,
   669); (42931, 1, 1, 43859); (42932, 8, 2, 42933); (42948, 1, 1, 42900);
   (42949, 1, 1, 642); (42950, 1, 1, 7566); (42951, 2, 2, 42952); (42960, 1,
   1, 42961); (42966, 2, 2, 42967); (42997, 1, 1, 42998); (65313, 26, 1,
   65345); (66560, 40, 1, 66600); (66736, 36, 1, 66776); (66928, 19, 2,
   66967); (66929, 5, 2, 66968); (66941, 7, 2, 66980); (66957, 3, 2, 66996);
   (66965, 1, 1, 67004); (68736, 51, 1, 68800); (71840, 32, 1, 71872);
   (93760, 32, 1, 93792); (125184, 34, 1, 125218)]%N.

Fixpoint lower_in (runs : list (N * N * N * N)) (c : N) : option N :=
  match runs with
  | [] => None
  | (first, count, step, target) :: runs' =>
      if ((first <=? c) && (c <? first + count * step)
          && ((c - first) mod step =? 0))%N
      then Some (target + (c - first))%N
      else lower_in runs' c
  end.

(** The lower-case form of one code point other than the capital sigma. *)
Definition lower_code_point (c : N) : str :=
  if (c =? 304)%N then [105; 775]%N
  else match lower_in lower_runs c with
       | Some l => [l]
       | None => [c]
       end.

(** The code points with the property [Cased] that are not also
    [Case_Ignorable], and those with the property [Case_Ignorable]. *)
Definition cased_ranges : list (N * N) :=
  [(65, 90); (97, 122); (170, 170); (181, 181); (186, 186); (192, 214); (216,
   246); (248, 442); (444, 447); (452, 659); (661, 687); (880, 883); (886,
   887); (891, 893); (895, 895); (902, 902); (904, 906); (908, 908); (910,
   929); (931, 1013); (1015, 1153); (1162, 1327); (1329, 1366); (1376, 1416);
   (4256, 4293); (4295, 4295); (4301, 4301); (4304, 4346); (4349, 4351);
   (5024, 5109); (5112, 5117); (7296, 7304); (7312, 7354); (7357, 7359);
   (7424, 7467); (7531, 7543); (7545, 7578); (7680, 7957); (7960, 7965);
   (7968, 8005); (8008, 8013); (8016, 8023); (8025, 8025); (8027, 8027);
   (8029, 8029); (8031, 8061); (8064, 8116); (8118, 8124); (8126, 8126);
   (8130, 8132); (8134, 8140); (8144, 8147); (8150, 8155); (8160, 8172);
   (8178, 8180); (8182, 8188); (8450, 8450); (8455, 8455); (8458, 8467);
   (8469, 8469); (8473, 8477); (8484, 8484); (8486, 8486); (8488, 8488);
   (8490, 8493); (8495, 8500); (8505, 8505); (8508, 8511); (8517, 8521);
   (8526, 8526); (8544, 8575); (8579, 8580); (9398, 9449); (11264, 11387);
   (11390, 11492); (11499, 11502); (11506, 11507); (11520, 11557); (11559,
   11559); (11565, 11565); (42560, 42605); (42624, 42651); (42786, 42863);
   (42865, 42887); (42891, 42894); (42896, 42954); (42960, 42961); (42963,
   42963); (42965, 42969); (42997, 42998); (43002, 43002); (43824, 43866);
   (43872, 43880); (43888, 43967); (64256, 64262); (64275, 64279); (65313,
   65338); (65345, 65370); (66560, 66639); (66736, 66771); (66776, 66811);
   (66928, 66938); (66940, 66954); (66956, 66962); (66964, 66965); (66967,
   66977); (66979, 66993); (66995, 67001); (67003, 67004); (68736, 68786);
   (68800, 68850); (71840, 71903); (93760, 93823); (119808, 119892); (119894,
   119964); (119966, 119967); (119970, 119970); (119973, 119974); (119977,
   119980); (119982, 119993); (119995, 119995); (119997, 120003); (120005,
   120069); (120071, 120074); (120077, 120084); (120086, 120092); (120094,
   120121); (120123, 120126); (120128, 120132); (120134, 120134); (120138,
   120144); (120146, 120485); (120488, 120512); (120514, 120538); (120540,
   120570); (120572, 120596); (120598, 120628); (120630, 120654); (120656,
   120686); (120688, 120712); (120714, 120744); (120746, 120770); (120772,
   120779); (122624, 122633); (122635, 122654); (125184, 125251); (127280,
   127305); (127312, 127337); (127344, 127369)]%N.

Definition case_ignorable_ranges : list (N * N) :=
  [(39, 39); (46, 46); (58, 58); (94, 94); (96, 96); (168, 168); (173, 173);
   (175, 175); (180, 180); (183, 184); (688, 879); (884, 885); (890, 890);
   (900, 901); (903, 903); (1155, 1161); (1369, 1369); (1375, 1375); (1425,
   1469); (1471, 1471); (1473, 1474); (1476, 1477); (1479, 1479); (1524,
   1524); (1536, 1541); (1552, 1562); (1564, 1564); (1600, 1600); (1611,
   1631); (1648, 1648); (1750, 1757); (1759, 1768); (1770, 1773); (1807,
   1807); (1809, 1809); (1840, 1866); (1958, 1968); (2027, 2037); (2042,
   2042); (2045, 2045); (2070, 2093); (2137, 2139); (2184, 2184); (2192,
   2193); (2200, 2207); (2249, 2306); (2362, 2362); (2364, 2364); (2369,
   2376); (2381, 2381); (2385, 2391); (2402, 2403); (2417, 2417); (2433,
   2433); (2492, 2492); (2497, 2500); (2509, 2509); (2530, 2531); (2558,
   2558); (2561, 2562); (2620, 2620); (2625, 2626); (2631, 2632); (2635,
   2637); (2641, 2641); (2672, 2673); (2677, 2677); (2689, 2690); (2748,
   2748); (2753, 2757); (2759, 2760); (2765, 2765); (2786, 2787); (2810,
   2815); (2817, 2817); (2876, 2876); (2879, 2879); (2881, 2884); (2893,
   2893); (2901, 2902); (2914, 2915); (2946, 2946); (3008, 3008); (3021,
   3021); (3072, 3072); (3076, 3076); (3132, 3132); (3134, 3136); (3142,
   3144); (3146, 3149); (3157, 3158); (3170, 3171); (3201, 3201); (3260,
   3260); (3263, 3263); (3270, 3270); (3276, 3277); (3298, 3299); (3328,
   3329); (3387, 3388); (3393, 3396); (3405, 3405); (3426, 3427); (3457,
   3457); (3530, 3530); (3538, 3540); (3542, 3542); (3633, 3633); (3636,
   3642); (3654, 3662); (3761, 3761); (3764, 3772); (3782, 3782); (3784,
   3789); (3864, 3865); (3893, 3893); (3895, 3895); (3897, 3897); (3953,
   3966); (3968, 3972); (3974, 3975); (3981, 3991); (3993, 4028); (4038,
   4038); (4141, 4144); (4146, 4151); (4153, 4154); (4157, 4158); (4184,
   4185); (4190, 4192); (4209, 4212); (4226, 4226); (4229, 4230); (4237,
   4237); (4253, 4253); (4348, 4348); (4957, 4959); (5906, 5908); (5938,
   5939); (5970, 5971); (6002, 6003); (6068, 6069); (6071, 6077); (6086,
   6086); (6089, 6099); (6103, 6103); (6109, 6109); (6155, 6159); (6211,
   6211); (6277, 6278); (6313, 6313); (6432, 6434); (6439, 6440); (6450,
   6450); (6457, 6459); (6679, 6680); (6683, 6683); (6742, 6742); (6744,
   6750); (6752, 6752); (6754, 6754); (6757, 6764); (6771, 6780); (6783,
   6783); (6823, 6823); (6832, 6862); (6912, 6915); (6964, 6964); (6966,
   6970); (6972, 6972); (6978, 6978); (7019, 7027); (7040, 7041); (7074,
   7077); (7080, 7081); (7083, 7085); (7142, 7142); (7144, 7145); (7149,
   7149); (7151, 7153); (7212, 7219); (7222, 7223); (7288, 7293); (7376,
   7378); (7380, 7392); (7394, 7400); (7405, 7405); (7412, 7412); (7416,
   7417); (7468, 7530); (7544, 7544); (7579, 7679); (8125, 8125); (8127,
   8129); (8141, 8143); (8157, 8159); (8173, 8175); (8189, 8190); (8203,
   8207); (8216, 8217); (8228, 8228); (8231, 8231); (8234, 8238); (8288,
   8292); (8294, 8303); (8305, 8305); (8319, 8319); (8336, 8348); (8400,
   8432); (11388, 11389); (11503, 11505); (11631, 11631); (11647, 11647);
   (11744, 11775); (11823, 11823); (12293, 12293); (12330, 12333); (12337,
   12341); (12347, 12347); (12441, 12446); (12540, 12542); (40981, 40981);
   (42232, 42237); (42508, 42508); (42607, 42610); (42612, 42621); (42623,
   42623); (42652, 42655); (42736, 42737); (42752, 42785); (42864, 42864);
   (42888, 42890); (42994, 42996); (43000, 43001); (43010, 43010); (43014,
   43014); (43019, 43019); (43045, 43046); (43052, 43052); (43204, 43205);
   (43232, 43249); (43263, 43263); (43302, 43309); (43335, 43345); (43392,
   43394); (43443, 43443); (43446, 43449); (43452, 43453); (43471, 43471);
   (43493, 43494); (43561, 43566); (43569, 43570); (43573, 43574); (43587,
   43587); (43596, 43596); (43632, 43632); (43644, 43644); (43696, 43696);
   (43698, 43700); (43703, 43704); (43710, 43711); (43713, 43713); (43741,
   43741); (43756, 43757); (43763, 43764); (43766, 43766); (43867, 43871);
   (43881, 43883); (44005, 44005); (44008, 44008); (44013, 44013); (64286,
   64286); (64434, 64450); (65024, 65039); (65043, 65043); (65056, 65071);
   (65106, 65106); (65109, 65109); (65279, 65279); (65287, 65287); (65294,
   65294); (65306, 65306); (65342, 65342); (65344, 65344); (65392, 65392);
   (65438, 65439); (65507, 65507); (65529, 65531); (66045, 66045); (66272,
   66272); (66422, 66426); (67456, 67461); (67463, 67504); (67506, 67514);
   (68097, 68099); (68101, 68102); (68108, 68111); (68152, 68154); (68159,
   68159); (68325, 68326); (68900, 68903); (69291, 69292); (69446, 69456);
   (69506, 69509); (69633, 69633); (69688, 69702); (69744, 69744); (69747,
   69748); (69759, 69761); (69811, 69814); (69817, 69818); (69821, 69821);
   (69826, 69826); (69837, 69837); (69888, 69890); (69927, 69931); (69933,
   69940); (70003, 70003); (70016, 70017); (70070, 70078); (70089, 70092);
   (70095, 70095); (70191, 70193); (70196, 70196); (70198, 70199); (70206,
   70206); (70367, 70367); (70371, 70378); (70400, 70401); (70459, 70460);
   (70464, 70464); (70502, 70508); (70512, 70516); (70712, 70719); (70722,
   70724); (70726, 70726); (70750, 70750); (70835, 70840); (70842, 70842);
   (70847, 70848); (70850, 70851); (71090, 71093); (71100, 71101); (71103,
   71104); (71132, 71133); (71219, 71226); (71229, 71229); (71231, 71232);
   (71339, 71339); (71341, 71341); (71344, 71349); (71351, 71351); (71453,
   71455); (71458, 71461); (71463, 71467); (71727, 71735); (71737, 71738);
   (71995, 71996); (71998, 71998); (72003, 72003); (72148, 72151); (72154,
   72155); (72160, 72160); (72193, 72202); (72243, 72248); (72251, 72254);
   (72263, 72263); (72273, 72278); (72281, 72283); (72330, 72342); (72344,
   72345); (72752, 72758); (72760, 72765); (72767, 72767); (72850, 72871);
   (72874, 72880); (72882, 72883); (72885, 72886); (73009, 73014); (73018,
   73018); (73020, 73021); (73023, 73029); (73031, 73031); (73104, 73105);
   (73109, 73109); (73111, 73111); (73459, 73460); (78896, 78904); (92912,
   92916); (92976, 92982); (92992, 92995); (94031, 94031); (94095, 94111);
   (94176, 94177); (94179, 94180); (110576, 110579); (110581, 110587);
   (110589, 110590); (113821, 113822); (113824, 113827); (118528, 118573);
   (118576, 118598); (119143, 119145); (119155, 119170); (119173, 119179);
   (119210, 119213); (119362, 119364); (121344, 121398); (121403, 121452);
   (121461, 121461); (121476, 121476); (121499, 121503); (121505, 121519);
   (122880, 122886); (122888, 122904); (122907, 122913); (122915, 122916);
   (122918, 122922); (123184, 123197); (123566, 123566); (123628, 123631);
   (125136, 125142); (125252, 125259); (127995, 127999); (917505, 917505);
   (917536, 917631); (917760, 917999)]%N.

Definition in_ranges (ranges : list (N * N)) (c : N) : bool :=
  existsb (fun '(lo, hi) => (lo <=? c) && (c <=? hi))%N ranges.

(** The first code point of [s] that is not case-ignorable is cased. *)
Fixpoint cased_next (s : str) : bool :=
  match s with
  | [] => false
  | c :: s' =>
      if in_ranges case_ignorable_ranges c then cased_next s'
      else in_ranges cased_ranges c
  end.

(** The capital sigma is final when a cased letter comes before it and
    none after it, case-ignorable code points passed over on both sides.
    [before] is the text in front of [s], last code point first. *)
Fixpoint lower_from (before s : str) : str :=
  match s with
  | [] => []
  | c :: s' =>
      (if (c =? 931)%N
       then [if cased_next before && negb (cased_next s')
             then 962%N else 963%N]
       else lower_code_point c)
      ++ lower_from (c :: before) s'
  end.

(** [s.lower()] *)
Definition lower_unicode (s : str) : str := lower_from [] s.

(** ** Flight normalizer *)

#[local] Set Warnings "-register-all".

(** A value of the decoded JSON payload.  A dictionary is the list of its
    items in insertion order. *)
Inductive json : Type :=
| JNull
| JBool (b : bool)
| JInt (n : Z)
| JFloat (x : float)
| JStr (s : list N)
| JList (l : list json)
| JDict (d : list (list N * json)).

(** [bool(v)] *)
Definition truthy (v : json) : bool :=
  match v with
  | JNull => false
  | JBool b => b
  | JInt n => negb (n =? 0)
  | JFloat x => negb (x =? 0)%float
  | JStr s => negb (bool_decide (s = []))
  | JList l => match l with [] => false | _ :: _ => true end
  | JDict d => match d with [] => false | _ :: _ => true end
  end.

(** [v.get(key, default)]: only a dictionary has [get]. *)
Definition py_get (v : json) (key : str) (default : json) : res json :=
  match v with
  | JDict d =>
      match dict_get d key with
      | Ok x => Ok x
      | Raise _ => Ok default
      end
  | _ => Raise AttributeError
  end.

(** [v[key]] for a string [key]. *)
Definition py_item (v : json) (key : str) : res json :=
  match v with
  | JDict d => dict_get d key
  | _ => Raise TypeError
  end.

(** [l[i]] on a list, a negative [i] counting from the end. *)
Definition list_at {A} (l : list A) (i : Z) : res A :=
  let i' := if i <? 0 then len l + i else i in
  if i' <? 0 then Raise IndexError else index l (Z.to_nat i').

(** [v[i]] for an integer [i]. *)
Definition py_at (v : json) (i : Z) : res json :=
  match v with
  | JList l => list_at l i
  | JStr s => c ← list_at s i; Ok (JStr [c])
  | JDict _ => Raise KeyError
  | _ => Raise TypeError
  end.

(** [len(v)] *)
Definition py_len (v : json) : res Z :=
  match v with
  | JList l => Ok (len l)
  | JStr s => Ok (len s)
  | JDict d => Ok (len d)
  | _ => Raise TypeError
  end.

(** The values [for x in v] visits. *)
Definition py_iter (v : json) : res (list json) :=
  match v with
  | JList l => Ok l
  | JStr s => Ok (map (fun c => JStr [c]) s)
  | JDict d => Ok (map (fun kv => JStr kv.1) d)
  | _ => Raise TypeError
  end.

(** *** [float(s)] for a string *)

(** A run of digits with single underscores between digits: its value on
    top of [acc], the number of digits, and the text left. *)
Fixpoint read_digits (acc : Z) (n : nat) (s : str) : Z * nat * str :=
  match s with
  | [] => (acc, n, s)
  | c :: s' =>
      match digit_val c with
      | Some d => read_digits (10 * acc + d) (S n) s'
      | None =>
          match s' with
          | c2 :: _ =>
              if (c =? chr_underscore)%N && bool_decide (n <> O)
                 && bool_decide (is_Some (digit_val c2))
              then read_digits acc n s'
              else (acc, n, s)
          | [] => (acc, n, s)
          end
      end
  end.

Definition read_sign (s : str) : bool * str :=
  match s with
  | c :: rest =>
      if (c =? chr_minus)%N then (true, rest)
      else if (c =? chr_plus)%N then (false, rest)
      else (false, s)
  | [] => (false, s)
  end.

(** The binary64 value nearest to [(-1)^neg * m * 10^e10], ties to even. *)
Definition float_of_decimal (neg : bool) (m : Z) (e10 : Z) : float :=
  match m with
  | Z.pos p =>
      if 0 <=? e10
      then SF2Prim (binary_normalize prec emax
                      ((if neg then Z.neg p else Z.pos p) * 10 ^ e10) 0 false)
      else SF2Prim (SFdiv prec emax (S754_finite neg p 0)
                      (S754_finite false (Z.to_pos (10 ^ (- e10))) 0))
  | _ => if neg then (-0)%float else 0%float
  end.

(** [float(s)]: white space around, a sign, then [inf], [infinity], [nan]
    or a decimal number with an optional fraction and exponent. *)
Definition float_of_str (s : str) : res float :=
  let '(neg, body) := read_sign (strip_by is_int_space s) in
  let word := lower body in
  if bool_decide (word = lit "inf") || bool_decide (word = lit "infinity")
  then Ok (if neg then neg_infinity else infinity)
  else if bool_decide (word = lit "nan") then Ok nan
  else
    let '(int_part, n_int, rest) := read_digits 0 0 body in
    let '(mantissa, n_frac, rest) :=
      match rest with
      | c :: rest' =>
          if (c =? 46)%N then read_digits int_part 0 rest'
          else (int_part, O, rest)
      | [] => (int_part, O, rest)
      end in
    if bool_decide ((n_int + n_frac)%nat = O) then Raise ValueError
    else
      match rest with
      | [] => Ok (float_of_decimal neg mantissa (- Z.of_nat n_frac))
      | c :: rest' =>
          if (lower_char c =? 101)%N then
            let '(eneg, edigits) := read_sign rest' in
            let '(e, n_exp, rest'') := read_digits 0 0 edigits in
            match n_exp, rest'' with
            | S _, [] =>
                Ok (float_of_decimal neg mantissa
                      ((if eneg then - e else e) - Z.of_nat n_frac))
            | _, _ => Raise ValueError
            end
          else Raise ValueError
      end.

(** [float(v)] *)
Definition py_float (v : json) : res float :=
  match v with
  | JFloat x => Ok x
  | JInt n => float_of_int n
  | JBool b => Ok (if b then 1%float else 0%float)
  | JStr s => float_of_str s
  | _ => Raise TypeError
  end.

(** [round(x, ndigits)] for a float and [ndigits >= 0]: the decimal with
    [ndigits] places nearest to the exact value of [x], ties to even, read
    back as a float. *)
Definition py_round (ndigits : nat) (x : float) : float :=
  let scale := 10 ^ Z.of_nat ndigits in
  match Prim2SF x with
  | S754_finite s m e =>
      if 0 <=? e then x
      else
        let n := round_half_even (Z.pos m * scale) (2 ^ (- e)) in
        float_of_decimal s n (- Z.of_nat ndigits)
  | _ => x
  end.

(** A record as [extract_flights] builds it.  The fields the code copies
    from the payload without looking at them keep their JSON type. *)
Record extracted : Type := {
  x_airline : json;
  x_price : float;
  x_duration : str;
  x_stops : Z;
  x_layover_city : json;
  x_layover_hours : float;
  x_departure : json;
  x_arrival : json;
}.

Section Normalizer.

(** [datetime.strptime(s, "%Y-%m-%dT%H:%M:%S")] as the number of seconds
    since a fixed instant, [ValueError] when [s] does not match. *)
Context (strptime : list N -> res Z).

Definition parse_instant (v : json) : res Z :=
  match v with
  | JStr s => strptime s
  | _ => Raise TypeError
  end.

(** [round((t2 - t1).total_seconds() / 3600, 1)] *)
Definition layover_between (first_arrival second_departure : json)
  : res float :=
  t1 ← parse_instant first_arrival;
  t2 ← parse_instant second_departure;
  seconds ← float_of_int (t2 - t1);
  Ok (py_round 1 (seconds / 3600)%float).

(** [carrier_lookup.get(airline_code, "")] *)
Definition lookup_carrier (carrier_lookup : list (list N * list N))
    (airline_code : json) : res str :=
  match airline_code with
  | JStr code =>
      match dict_get carrier_lookup code with
      | Ok name => Ok name
      | Raise _ => Ok []
      end
  | JList _ | JDict _ => Raise TypeError
  | _ => Ok []
  end.

(** The ISO duration as shown: ["PT17H50M"] becomes ["17h 50m"]. *)
Definition display_duration (duration_iso : json) : res str :=
  match duration_iso with
  | JStr s =>
      Ok (replace (lit "m") (lit "m")
            (replace (lit "h") (lit "h ")
               (lower_unicode (replace (lit "PT") (lit "") s))))
  | _ => Raise AttributeError
  end.

(** The body of the loop over the offers: [Ok None] is [continue],
    [Raise] an exception for the [except] clause. *)
Definition extract_offer (carrier_lookup : list (list N * list N))
    (offer : json) : res (option extracted) :=
  itineraries ← py_get offer (lit "itineraries") (JList []);
  if negb (truthy itineraries) then Ok None else
  itin ← py_at itineraries 0;
  segments ← py_get itin (lit "segments") (JList []);
  if negb (truthy segments) then Ok None else
  first_segment ← py_at segments 0;
  airline_code ← py_get first_segment (lit "carrierCode") (JStr []);
  airline_name ← lookup_carrier carrier_lookup airline_code;
  let airline :=
    match airline_name, airline_code with
    | _ :: _, JStr code => JStr (code ++ dash_sep ++ airline_name)
    | _, _ => airline_code
    end in
  price_dict ← py_item offer (lit "price");
  total ← py_item price_dict (lit "total");
  price ← py_float total;
  duration_iso ← py_get itin (lit "duration") (JStr []);
  duration ← display_duration duration_iso;
  n_segments ← py_len segments;
  let stops := n_segments - 1 in
  '(layover_city, layover_hours) ←
    (if 1 <? n_segments then
       first_arrival_dict ← py_item first_segment (lit "arrival");
       first_arrival ← py_item first_arrival_dict (lit "at");
       second_segment ← py_at segments 1;
       second_departure_dict ← py_item second_segment (lit "departure");
       second_departure ← py_item second_departure_dict (lit "at");
       layover_hours ← layover_between first_arrival second_departure;
       first_arrival_dict ← py_item first_segment (lit "arrival");
       layover_city ← py_item first_arrival_dict (lit "iataCode");
       Ok (layover_city, layover_hours)
     else Ok (JStr [], 0%float));
  departure_dict ← py_item first_segment (lit "departure");
  departure ← py_item departure_dict (lit "at");
  last_segment ← py_at segments (-1);
  arrival_dict ← py_item last_segment (lit "arrival");
  arrival ← py_item arrival_dict (lit "at");
  Ok (Some {| x_airline := airline;
              x_price := price;
              x_duration := duration;
              x_stops := stops;
              x_layover_city := layover_city;
              x_layover_hours := layover_hours;
              x_departure := departure;
              x_arrival := arrival |}).

(** What one offer adds to [flights]: an offer that is skipped or raises
    adds nothing (the [except] clause prints the exception and goes on). *)
Definition offer_records (carrier_lookup : list (list N * list N))
    (offer : json) : list extracted :=
  match extract_offer carrier_lookup offer with
  | Ok (Some record) => [record]
  | Ok None | Raise _ => []
  end.

(** [extract_flights(raw, carrier_lookup)]; iterating over [raw["data"]]
    is outside the [try]. *)
Definition extract_flights (raw : list (list N * json))
    (carrier_lookup : list (list N * list N)) : res (list extracted) :=
  match raw with
  | [] => Ok []
  | _ :: _ =>
      match dict_get raw (lit "data") with
      | Raise _ => Ok []
      | Ok data =>
          offers ← py_iter data;
          Ok (flat_map (offer_records carrier_lookup) offers)
      end
  end.

End Normalizer.

(** *** Reading a timestamp *)

(** [_strptime] compiles the format ["%Y-%m-%dT%H:%M:%S"] to the pattern
    [(\d\d\d\d)-(1[0-2]|0[1-9]|[1-9])-(3[0-1]|[1-2]\d|0[1-9]|[1-9]| [1-9])]
    [T(2[0-3]|[0-1]\d|\d):([0-5]\d|\d):(6[0-1]|[0-5]\d|\d)], matched
    ignoring case.  A character class is given here by the value of the
    digit it accepts: [\d] takes a decimal digit of any script, a class
    such as [[0-5]] and a literal digit an ASCII digit only. *)
Definition any_digit (c : N) : option Z := digit_val c.

Definition ascii_digit (lo hi : Z) (c : N) : option Z :=
  let d := Z.of_N c - 48 in
  if (lo <=? d) && (d <=? hi) then Some d else None.

(** The space of the alternative [ [1-9]]: [int] passes over it. *)
Definition leading_space (c : N) : option Z :=
  if (c =? chr_space)%N then Some 0 else None.

(** One alternative of a field, its classes in a row: the value read on
    top of [acc] and the text left. *)
Fixpoint match_classes (classes : list (N -> option Z)) (acc : Z) (s : str)
  : option (Z * str) :=
  match classes with
  | [] => Some (acc, s)
  | class :: classes' =>
      match s with
      | c :: s' =>
          match class c with
          | Some d => match_classes classes' (10 * acc + d) s'
          | None => None
          end
      | [] => None
      end
  end.

(** A field: the readings of its alternatives that match at the start of
    [s], in the order the pattern tries them. *)
Definition match_field (alternatives : list (list (N -> option Z))) (s : str)
  : list (Z * str) :=
  omap (fun classes => match_classes classes 0 s) alternatives.

Definition year_field : list (list (N -> option Z)) :=
  [[any_digit; any_digit; any_digit; any_digit]].

Definition month_field : list (list (N -> option Z)) :=
  [[ascii_digit 1 1; ascii_digit 0 2];
   [ascii_digit 0 0; ascii_digit 1 9];
   [ascii_digit 1 9]].

Definition day_field : list (list (N -> option Z)) :=
  [[ascii_digit 3 3; ascii_digit 0 1];
   [ascii_digit 1 2; any_digit];
   [ascii_digit 0 0; ascii_digit 1 9];
   [ascii_digit 1 9];
   [leading_space; ascii_digit 1 9]].

Definition hour_field : list (list (N -> option Z)) :=
  [[ascii_digit 2 2; ascii_digit 0 3];
   [ascii_digit 0 1; any_digit];
   [any_digit]].

Definition minute_field : list (list (N -> option Z)) :=
  [[ascii_digit 0 5; any_digit];
   [any_digit]].

Definition second_field : list (list (N -> option Z)) :=
  [[ascii_digit 6 6; ascii_digit 0 1];
   [ascii_digit 0 5; any_digit];
   [any_digit]].

(** A literal character of the pattern, matched ignoring case. *)
Definition expect (c : N) (s : str) : list str :=
  match s with
  | x :: rest => if (lower_char x =? lower_char c)%N then [rest] else []
  | [] => []
  end.

(** The matches of the pattern at the start of [s] with the text each
    leaves, in the order of the search: [re.match] finds the first. *)
Definition match_format (s : str) : list (Z * Z * Z * Z * Z * Z * str) :=
  '(year, rest) ← match_field year_field s;
  rest ← expect 45 rest;
  '(month, rest) ← match_field month_field rest;
  rest ← expect 45 rest;
  '(dom, rest) ← match_field day_field rest;
  rest ← expect 84 rest;
  '(hour, rest) ← match_field hour_field rest;
  rest ← expect 58 rest;
  '(minute, rest) ← match_field minute_field rest;
  rest ← expect 58 rest;
  '(second, rest) ← match_field second_field rest;
  [(year, month, dom, hour, minute, second, rest)].

Definition is_leap (y : Z) : bool :=
  (y mod 4 =? 0) && (negb (y mod 100 =? 0) || (y mod 400 =? 0)).

Definition days_in_month (y m : Z) : Z :=
  if m =? 2 then (if is_leap y then 29 else 28)
  else if (m =? 4) || (m =? 6) || (m =? 9) || (m =? 11) then 30
  else 31.

(** Days from 0001-01-01 to the first day of year [y]. *)
Definition days_before_year (y : Z) : Z :=
  let y' := y - 1 in y' * 365 + y' / 4 - y' / 100 + y' / 400.

Fixpoint days_before_month (y : Z) (m : nat) : Z :=
  match m with
  | O => 0
  | S m' => days_before_month y m' + days_in_month y (Z.of_nat m)
  end.

(** [datetime.strptime(s, "%Y-%m-%dT%H:%M:%S")], as seconds since
    0001-01-01T00:00:00: [ValueError] when the pattern does not match,
    when text is left behind the match, and when the fields are no date
    and time (year 0, a day the month does not have, second 60 or 61). *)
Definition strptime_iso (s : str) : res Z :=
  match match_format s with
  | (year, month, dom, hour, minute, second, []) :: _ =>
      if (1 <=? year) && (dom <=? days_in_month year month) && (second <=? 59)
      then Ok ((days_before_year year
                + days_before_month year (Z.to_nat (month - 1))
                + (dom - 1)) * 86400
               + hour * 3600 + minute * 60 + second)
      else Raise ValueError
  | _ => Raise ValueError
  end.
(** ** Notification channels ([reporting/sms_reporter.py],
    [reporting/email_reporter.py]) *)

(** [text[start:]]; a negative [start] counts from the end. *)
Definition slice_from (text : str) (start : Z) : str :=
  if start <? 0 then drop (Z.to_nat (len text + start)) text
  else drop (Z.to_nat start) text.

Definition MAX_SEGMENT_LENGTH : Z := 160.

(** The [while message:] loop of [split_message]: the segments it appends
    from [message] on.  [fuel] bounds the number of tests of the loop
    condition; [None] when they do not suffice. *)
Fixpoint split_message_loop (fuel : nat) (message : str) (max_length : Z)
  : option (list str) :=
  match fuel with
  | O => None
  | S fuel' =>
      match message with
      | [] => Some []
      | _ :: _ =>
          let segment := slice_to message max_length in
          segments ← split_message_loop fuel' (slice_from message max_length)
                                        max_length;
          Some (segment :: segments)
      end
  end.

(** [split_message(message, max_length)] *)
Definition split_message (fuel : nat) (message : str) (max_length : Z)
  : option (list str) :=
  split_message_loop fuel message max_length.

(** The numbering loop of [send_sms]: the prefix ["<idx>/<total> "] before
    each segment, [idx] counting from [start]. *)
Fixpoint number_from (total : Z) (idx : Z) (raw_segments : list str)
  : list str :=
  match raw_segments with
  | [] => []
  | seg :: rest =>
      (str_of_int idx ++ lit "/" ++ str_of_int total ++ lit " " ++ seg)
      :: number_from total (idx + 1) rest
  end.

(** The bodies [send_sms(message)] passes to the SMS client, in order.  A
    failed send is logged and the loop goes on, so every body is passed
    whatever happens to the others. *)
Definition numbered_segments (fuel : nat) (message : str)
  : option (list str) :=
  raw_segments ← split_message fuel message MAX_SEGMENT_LENGTH;
  let total := len raw_segments in
  Some (number_from total 1 raw_segments).

Definition chr_comma : N := 44.
Definition chr_quote : N := 34.
Definition chr_lbracket : N := 91.
Definition chr_rbracket : N := 93.

(** [s.strip()] *)
Definition strip (s : str) : str := strip_by is_space s.

(** The recipients [send_email] reads from the configured [EMAIL_TO]:
    brackets and double quotes are removed, the text is cut at the commas,
    each piece is stripped and the empty ones are dropped. *)
Definition recipients (EMAIL_TO : str) : list str :=
  let cleaned :=
    replace [chr_quote] (lit "")
      (replace [chr_rbracket] (lit "")
         (replace [chr_lbracket] (lit "") EMAIL_TO)) in
  List.filter (fun email => negb (bool_decide (email = [])))
              (map strip (split_go [chr_comma] 0 [] cleaned)).

(** The [To] header: [", ".join(recipients)]. *)
Definition to_header (recipients : list str) : str :=
  join (lit ", ") recipients.

(** The HTML body: the text inside a [<pre>] element. *)
Definition html_body (body : str) : str :=
  lit "<pre style='font-family: monospace'>" ++ body ++ lit "</pre>".
(** ** Pipeline ([orchestrator.py]) *)

(** The carriers the pipeline leaves out: [excluded = {"CX", "AI"}]. *)
Definition excluded : list str := [lit "CX"; lit "AI"].

(** The first filter of the loop body of [run_pipeline_llm_routed]:
    [[f for f in flights if f["airline"].split(" — ")[0] not in excluded]]. *)
Fixpoint drop_excluded (flights : list flight) : res (list flight) :=
  match flights with
  | [] => Ok []
  | f :: rest =>
      pieces ← split dash_sep (airline f);
      airline_code ← index pieces 0;
      kept ← drop_excluded rest;
      Ok (if bool_decide (airline_code ∈ excluded) then kept else f :: kept)
  end.

(** The second filter:
    [[f for f in flights if float(f["layover_hours"]) <= 6]]. *)
Definition within_layover (flights : list flight) : list flight :=
  List.filter (fun f => (layover_hours f <=? 6)%float) flights.

(** What the loop body keeps of the flights of one date, the list it
    stores in [all_days] and in [daily_raw]. *)
Definition day_flights_kept (flights : list flight) : res (list flight) :=
  flights ← drop_excluded flights;
  Ok (within_layover flights).

(** ** Predicates and sample data used by the statements *)

(** An ASCII decimal digit. *)
Definition is_digit (c : N) : Prop := (48 <= c <= 57)%N.

(** A text without a line break. *)
Definition no_newline (s : str) : Prop := Forall (fun c => c <> chr_newline) s.

(** The alignments [make_table] uses when none are given. *)
Definition default_aligns (headers : list str) : list str :=
  replicate (length headers) (lit "left").

(** All lines of a rendered text have one length. *)
Definition lines_aligned (text : str) : Prop :=
  exists n, Forall (fun line => length line = n) (lines_of text).

Definition sample_headers : list str := [lit "Date"; lit "Price"].
Definition sample_rows : list (list cell) :=
  [[CStr (lit "2026-03-20"); CStr (lit "523.45")];
   [CStr (lit "2026-03-21"); CInt 7]].


(** *** The order of floats *)

(** A non-NaN binary64 value as a point of [Z * Z * Z] ordered
    lexicographically: the class (infinities, negative, zero, positive),
    then exponent and mantissa, both negated for negative values. *)
Definition sf_key (x : spec_float) : option (Z * Z * Z) :=
  match x with
  | S754_nan => None
  | S754_zero _ => Some (0, 0, 0)
  | S754_infinity true => Some (-2, 0, 0)
  | S754_infinity false => Some (2, 0, 0)
  | S754_finite true m e => Some (-1, - e, Z.neg m)
  | S754_finite false m e => Some (1, e, Z.pos m)
  end.

Definition lex3_lt (a b : Z * Z * Z) : Prop :=
  let '(a1, a2, a3) := a in
  let '(b1, b2, b3) := b in
  a1 < b1 \/ (a1 = b1 /\ (a2 < b2 \/ (a2 = b2 /\ a3 < b3))).

(** [x] is a number, not a NaN. *)
Definition not_nan (x : float) : Prop := PrimFloat.is_nan x = false.

(** *** Stable sorting *)

(** [a] and [b] are tied under [lt]: neither is smaller. *)
Definition tied {A} (lt : A -> A -> bool) (a b : A) : bool :=
  negb (lt a b) && negb (lt b a).

(** No element is followed, anywhere later, by a smaller one. *)
Definition ascending {A} (lt : A -> A -> bool) (l : list A) : Prop :=
  StronglySorted (fun a b => lt b a = false) l.

(** [l'] is the stable ascending sort of [l]: the same elements, in
    ascending order, tied elements in the order they have in [l]. *)
Definition stable_sort_of {A} (lt : A -> A -> bool) (l l' : list A) : Prop :=
  Permutation l l' /\
  ascending lt l' /\
  forall a, a ∈ l -> List.filter (tied lt a) l' = List.filter (tied lt a) l.

(** The comparison [sorted(l, key=key)] makes for a float key. *)
Definition key_lt {A} (key : A -> float) (a b : A) : bool :=
  PrimFloat.ltb (key a) (key b).

(** *** Ranking *)

(** The records of all days in encounter order (earlier day first, then
    position within the day), each with the date of its day.  A day without
    records contributes nothing. *)
Definition all_records (days : list day) : list (str * flight) :=
  flat_map (fun d => map (pair (date d)) (flights d)) days.

(** The composite score of a record:
    [price/1000 + duration_minutes/1000 + layover_hours/10]. *)
Definition record_score (f : flight) : res float :=
  minutes ← parse_duration_to_minutes (duration f);
  m ← float_of_int minutes;
  Ok (price f / 1000 + m / 1000 + layover_hours f / 10)%float.

(** [e] is the scored entry of the record [r]. *)
Definition scored_entry (r : str * flight) (e : scored) : Prop :=
  record_score r.2 = Ok (sc_score e) /\
  sc_date e = r.1 /\
  sc_price e = price r.2 /\
  sc_airline e = airline r.2 /\
  sc_duration e = duration r.2 /\
  sc_layover_city e = layover_city r.2 /\
  sc_layover_hours e = layover_hours r.2.

(** The score of the record can be computed and is a number. *)
Definition scorable (r : str * flight) : Prop :=
  exists score, record_score r.2 = Ok score /\ not_nan score.

(** The score of the record can be computed and its price is a number. *)
Definition priced (r : str * flight) : Prop :=
  is_ok (record_score r.2) = true /\ not_nan (price r.2).

(** [c] describes a record of the first day of [days] that holds the
    minimum price over all days: every record of an earlier day is strictly
    dearer, no record from that day on is cheaper. *)
Definition first_cheapest (days : list day) (c : best_day) : Prop :=
  exists before d after f,
    days = before ++ d :: after /\
    f ∈ flights d /\
    bd_date c = date d /\
    bd_price c = price f /\
    bd_airline c = airline f /\
    bd_layover_city c = layover_city f /\
    bd_layover_hours c = layover_hours f /\
    (forall d' f', d' ∈ before -> f' ∈ flights d' ->
                   (bd_price c <? price f')%float = true) /\
    (forall d' f', d' ∈ d :: after -> f' ∈ flights d' ->
                   (price f' <? bd_price c)%float = false).

Definition cheapest_spec (days : list day) (c : option best_day) : Prop :=
  match c with
  | None => all_records days = []
  | Some c => first_cheapest days c
  end.

Definition sample_flight (name : string) (p : float) : flight :=
  {| airline := lit name; price := p; duration := lit "0h 0m"; stops := 0;
     layover_city := lit ""; layover_hours := 0;
     departure := lit "2026-03-20T10:00:00";
     arrival := lit "2026-03-20T22:00:00" |}.

(** Scores [0.5; 0.5; 0.3] for the flights A, B, C, in this order. *)
Definition tie_days : list day :=
  [ {| date := lit "2026-03-20";
       flights := [sample_flight "A" 500; sample_flight "B" 500] |};
    {| date := lit "2026-03-21"; flights := [] |};
    {| date := lit "2026-03-22"; flights := [sample_flight "C" 300] |} ].

(** Three days with prices [100; 50; 200], [300] and [10]. *)
Definition price_days : list day :=
  [ {| date := lit "2026-03-20";
       flights := [sample_flight "A" 100; sample_flight "B" 50;
                   sample_flight "C" 200] |};
    {| date := lit "2026-03-21"; flights := [sample_flight "D" 300] |};
    {| date := lit "2026-03-22"; flights := [sample_flight "E" 10] |} ].

(** Scores [0.5; NaN; 0.3] for the flights A, N, B of one day: the price
    of N is a NaN, what [float] makes of the total ["nan"]. *)
Definition nan_score_days : list day :=
  [ {| date := lit "2026-03-20";
       flights := [sample_flight "A" 500; sample_flight "N" nan;
                   sample_flight "B" 300] |} ].

(** Prices [5; NaN; 3] on the first day and [4] on the second. *)
Definition nan_price_days : list day :=
  [ {| date := lit "2026-03-20";
       flights := [sample_flight "A" 5; sample_flight "N" nan;
                   sample_flight "B" 3] |};
    {| date := lit "2026-03-21"; flights := [sample_flight "C" 4] |} ].

(** *** Price history *)

(** The price stored for [date] on the disk [s], if any. *)
Definition stored_price (s : disk) (date : str) : option float :=
  _load_price_history s !! date.

Definition sample_date : str := lit "2026-03-20".

Definition sample_disk : disk :=
  {| file := FileHistory (<[sample_date := 500%float]> ∅); fault := NoFault |}.

Definition read_only_disk : disk :=
  {| file := FileHistory (<[sample_date := 500%float]> ∅); fault := OpenFails |}.

(** *** Report *)

(** [airline] contains the name [carrier], ignoring case. *)
Definition mentions_carrier (carrier airline : str) : bool :=
  contains (lower carrier) (lower airline).

Definition etihad_row_of (date : str) (f : flight) : etihad_row :=
  {| er_date := date;
     er_price := price f;
     er_duration := duration f;
     er_layover_hours := layover_hours f |}.

(** The records of the per-day mapping whose airline names Etihad, in
    encounter order, as rows of the carrier table. *)
Definition carrier_matches (daily_raw : list (str * list flight))
  : list etihad_row :=
  flat_map (fun '(date, flights) =>
              map (etihad_row_of date)
                  (List.filter
                     (fun f => mentions_carrier (lit "Etihad") (airline f))
                     flights))
           daily_raw.

Definition etihad_aligns : list str :=
  [lit "left"; lit "right"; lit "left"; lit "right"].

(** The summary of a run without any record. *)
Definition no_data : summary :=
  {| cheapest := None;
     shortest_duration := None;
     shortest_layover := None;
     top3_overall := [];
     text_summary := [] |}.

Definition airline_etihad : str := lit "EY" ++ dash_sep ++ lit "Etihad Airways".
Definition airline_air_canada : str := lit "AC" ++ dash_sep ++ lit "Air Canada".

Definition carrier_flight (name : str) (p : float) : flight :=
  {| airline := name; price := p; duration := lit "17h 50m"; stops := 1;
     layover_city := lit "AUH"; layover_hours := 2.5;
     departure := lit "2026-03-20T10:00:00";
     arrival := lit "2026-03-21T08:50:00" |}.

(** Etihad at 500, Air Canada at 400, Etihad at 300. *)
Definition carrier_days : list (str * list flight) :=
  [ (lit "2026-03-20", [carrier_flight airline_etihad 500;
                        carrier_flight airline_air_canada 400]);
    (lit "2026-03-21", [carrier_flight airline_etihad 300]) ].

(** Etihad at 500 and at a NaN price on one day, Etihad at 300 on the
    next. *)
Definition carrier_nan_days : list (str * list flight) :=
  [ (lit "2026-03-20", [carrier_flight airline_etihad 500;
                        carrier_flight airline_etihad nan]);
    (lit "2026-03-21", [carrier_flight airline_etihad 300]) ].

(** Requested dates without any offer. *)
Definition empty_days : list (str * list flight) :=
  [ (lit "2026-03-20", []); (lit "2026-03-21", []) ].

(** *** Normalizer *)

Definition sample_segment (code departs arrives airport : string) : json :=
  JDict [(lit "carrierCode", JStr (lit code));
         (lit "departure", JDict [(lit "iataCode", JStr (lit "YYZ"));
                                  (lit "at", JStr (lit departs))]);
         (lit "arrival", JDict [(lit "iataCode", JStr (lit airport));
                                (lit "at", JStr (lit arrives))])].

Definition sample_offer (total duration_iso : string) (segments : list json)
  : json :=
  JDict [(lit "itineraries",
          JList [JDict [(lit "duration", JStr (lit duration_iso));
                        (lit "segments", JList segments)]]);
         (lit "price", JDict [(lit "total", JStr (lit total))])].



Definition sample_carriers : list (list N * list N) :=
  [(lit "EY", lit "Etihad Airways"); (lit "AC", lit "Air Canada")].
(** *** Recipients *)

(** The characters [send_email] removes or cuts at. *)
Definition is_list_syntax (c : N) : Prop :=
  c = chr_comma \/ c = chr_lbracket \/ c = chr_rbracket \/ c = chr_quote.

(** An address as [send_email] passes it on: not empty, no white space
    around it, none of the characters of the list syntax inside. *)
Definition clean_address (r : str) : Prop :=
  r <> [] /\ strip r = r /\ Forall (fun c => ~ is_list_syntax c) r.
(** *** Table cells *)

(** A text made of spaces only. *)
Definition blank (s : str) : Prop := Forall (fun c => c = chr_space) s.

(** [shown] is [text] with spaces added before or after it. *)
Definition padded_text (text shown : str) : Prop :=
  exists l r, shown = l ++ text ++ r /\ blank l /\ blank r.

(** [line] is a table row showing the cells [row] in full. *)
Definition shows_row (row : list cell) (line : str) : Prop :=
  exists cells,
    line = lit "| " ++ join (lit " | ") cells ++ lit " |" /\
    Forall2 (fun c shown => padded_text (str_of c) shown) row cells.
(** *** The shortest day and the shortest layover *)

(** [c] describes a record of the first day of [days] that holds the
    minimum duration over all days: every record of an earlier day takes
    strictly longer, no record from that day on is shorter. *)
Definition first_shortest_duration (days : list day) (c : best_duration)
  : Prop :=
  exists before d after f,
    days = before ++ d :: after /\
    f ∈ flights d /\
    bu_date c = date d /\
    bu_price c = price f /\
    bu_airline c = airline f /\
    bu_duration c = duration f /\
    parse_duration_to_minutes (duration f) = Ok (bu_duration_minutes c) /\
    bu_layover_city c = layover_city f /\
    bu_layover_hours c = layover_hours f /\
    (forall d' f' minutes,
       d' ∈ before -> f' ∈ flights d' ->
       parse_duration_to_minutes (duration f') = Ok minutes ->
       bu_duration_minutes c < minutes) /\
    (forall d' f' minutes,
       d' ∈ d :: after -> f' ∈ flights d' ->
       parse_duration_to_minutes (duration f') = Ok minutes ->
       bu_duration_minutes c <= minutes).

Definition shortest_duration_spec (days : list day) (c : option best_duration)
  : Prop :=
  match c with
  | None => all_records days = []
  | Some c => first_shortest_duration days c
  end.

(** [c] describes a record of the first day of [days] that holds the
    minimum layover over all days. *)
Definition first_shortest_layover (days : list day) (c : best_day) : Prop :=
  exists before d after f,
    days = before ++ d :: after /\
    f ∈ flights d /\
    bd_date c = date d /\
    bd_price c = price f /\
    bd_airline c = airline f /\
    bd_layover_city c = layover_city f /\
    bd_layover_hours c = layover_hours f /\
    (forall d' f', d' ∈ before -> f' ∈ flights d' ->
                   (bd_layover_hours c <? layover_hours f')%float = true) /\
    (forall d' f', d' ∈ d :: after -> f' ∈ flights d' ->
                   (layover_hours f' <? bd_layover_hours c)%float = false).

Definition shortest_layover_spec (days : list day) (c : option best_day)
  : Prop :=
  match c with
  | None => all_records days = []
  | Some c => first_shortest_layover days c
  end.

(** The score of the record can be computed and its layover is a number. *)
Definition layover_known (r : str * flight) : Prop :=
  is_ok (record_score r.2) = true /\ not_nan (layover_hours r.2).

(** Three days with durations [5h; 3h], [3h] and [4h], and layovers
    [2.5; 1.5], [1.5] and [0.5]. *)
Definition timed_flight (name d : string) (l : float) : flight :=
  {| airline := lit name; price := 100; duration := lit d; stops := 1;
     layover_city := lit "AUH"; layover_hours := l;
     departure := lit "2026-03-20T10:00:00";
     arrival := lit "2026-03-20T22:00:00" |}.

Definition timed_days : list day :=
  [ {| date := lit "2026-03-20";
       flights := [timed_flight "A" "5h 0m" 2.5;
                   timed_flight "B" "3h 0m" 1.5] |};
    {| date := lit "2026-03-21"; flights := [timed_flight "C" "3h 0m" 1.5] |};
    {| date := lit "2026-03-22"; flights := [timed_flight "D" "4h 0m" 0.5] |} ].

(** The three categories are filled together. *)
Definition all_present (r : ranking) : Prop :=
  is_Some (rk_cheapest r) /\ is_Some (rk_shortest_duration r) /\
  is_Some (rk_shortest_layover r).

(** The text summary of three categories: one line each. *)
Definition summary_lines (c : best_day) (d : best_duration) (l : best_day)
  : str :=
  join [chr_newline]
    [lit "Cheapest Day: " ++ bd_date c ++ lit " " ++ [chr_em_dash]
     ++ lit " $" ++ format_fixed 2 (bd_price c);
     lit "Shortest Duration: " ++ bu_date d ++ lit " "
     ++ [chr_em_dash] ++ lit " " ++ bu_duration d;
     lit "Shortest Layover: " ++ bd_date l ++ lit " "
     ++ [chr_em_dash] ++ lit " "
     ++ format_fixed 1 (bd_layover_hours l) ++ lit "h"].
(** *** Daily tables *)

(** The text before the first occurrence of [sep] in [s]; all of [s] when
    there is none. *)
Fixpoint before_sep (sep s : str) : str :=
  match s with
  | [] => []
  | c :: s' => if starts_with sep s then [] else c :: before_sep sep s'
  end.

(** The airline text is the code [code] alone or starts with the code and
    the separator [" — "]. *)
Definition has_code (code airline : str) : bool :=
  bool_decide (airline = code) || starts_with (code ++ dash_sep) airline.

(** The daily tables leave the option out: its airline text has the code
    of an excluded carrier. *)
Definition hidden_airline (airline : str) : bool :=
  has_code (lit "CX") airline || has_code (lit "AI") airline.

(** The options of a day with their numbers, the positions in the list
    counted from [idx]. *)
Definition numbered_options (idx : Z) (raw_options : list flight)
  : list FlightOption :=
  imap (fun i raw => parse_flight_option (idx + Z.of_nat i) raw) raw_options.

Definition daily_aligns : list str :=
  [lit "right"; lit "left"; lit "right"; lit "left"; lit "right";
   lit "left"; lit "right"; lit "left"; lit "left"].

(** Air Canada, Cathay Pacific and Etihad, in this order. *)
Definition mixed_options : list flight :=
  [carrier_flight airline_air_canada 400;
   carrier_flight (lit "CX" ++ dash_sep ++ lit "Cathay Pacific") 350;
   carrier_flight airline_etihad 500].

(** *** Rectangular tables *)

(** A table of [n_rows] rows: three borders, the header and one line per
    row, all of one length. *)
Definition rectangular (n_rows : nat) (table : str) : Prop :=
  length (lines_of table) = (n_rows + 4)%nat /\ lines_aligned table.

(** The texts of an entry hold no line break. *)
Definition clean_category (c : BestDayCategory) : Prop :=
  no_newline (bc_category c) /\ no_newline (bc_date c) /\
  no_newline (bc_airline c) /\ no_newline (bc_layover_city c).

Definition clean_overall (d : OverallBestDay) : Prop :=
  no_newline (ob_date d) /\ no_newline (ob_airline d) /\
  no_newline (ob_duration d) /\ no_newline (ob_layover_city d).

Definition clean_option (o : FlightOption) : Prop :=
  no_newline (fo_airline o) /\ no_newline (fo_duration o) /\
  no_newline (fo_layover_city o) /\ no_newline (fo_departure o) /\
  no_newline (fo_arrival o).

Definition clean_row (r : etihad_row) : Prop :=
  no_newline (er_date r) /\ no_newline (er_duration r).
(** *** Carrier codes *)

(** The carrier code [extract_flights] reads from an offer: the
    [carrierCode] of the first segment of the first itinerary. *)
Definition offer_carrier_code (offer : json) : res json :=
  itineraries ← py_get offer (lit "itineraries") (JList []);
  itin ← py_at itineraries 0;
  segments ← py_get itin (lit "segments") (JList []);
  first_segment ← py_at segments 0;
  py_get first_segment (lit "carrierCode") (JStr []).

(** A connection of Etihad through Abu Dhabi. *)
Definition sample_connection : json :=
  sample_offer "523.45" "PT17H50M"
    [sample_segment "EY" "2026-03-20T10:00:00" "2026-03-20T22:30:00" "AUH";
     sample_segment "EY" "2026-03-21T01:00:00" "2026-03-21T06:00:00" "MAA"].
(** *** Ties *)

(** [c] describes the first record, in encounter order, among those of
    minimum price: every record before it is strictly dearer, no record
    after it is cheaper. *)
Definition first_record_cheapest (days : list day) (c : best_day) : Prop :=
  exists before r after,
    all_records days = before ++ r :: after /\
    bd_date c = r.1 /\
    bd_price c = price r.2 /\
    bd_airline c = airline r.2 /\
    bd_layover_city c = layover_city r.2 /\
    bd_layover_hours c = layover_hours r.2 /\
    (forall r', r' ∈ before -> (bd_price c <? price r'.2)%float = true) /\
    (forall r', r' ∈ after -> (price r'.2 <? bd_price c)%float = false).

Definition cheapest_record_spec (days : list day) (c : option best_day)
  : Prop :=
  match c with
  | None => all_records days = []
  | Some c => first_record_cheapest days c
  end.

(** Two days; the minimum price 50 is held by B and C on the first day and
    by D on the second. *)
Definition equal_price_days : list day :=
  [ {| date := lit "2026-03-20";
       flights := [sample_flight "A" 100; sample_flight "B" 50;
                   sample_flight "C" 50] |};
    {| date := lit "2026-03-21"; flights := [sample_flight "D" 50] |} ].
(** *** Segments *)

(** The segments [extract_flights] reads from an offer: those of the first
    itinerary. *)
Definition offer_segments (offer : json) : res json :=
  itineraries ← py_get offer (lit "itineraries") (JList []);
  itin ← py_at itineraries 0;
  py_get itin (lit "segments") (JList []).

(** [segment[part][field]] *)
Definition segment_field (segment : json) (part field : string) : res json :=
  d ← py_item segment (lit part);
  py_item d (lit field).

(** Toronto to Chennai with two stops: 2.5 hours in Abu Dhabi, then 10
    hours in Mumbai. *)
Definition two_stop_offer : json :=
  sample_offer "640.00" "PT30H0M"
    [sample_segment "EY" "2026-03-20T10:00:00" "2026-03-20T22:30:00" "AUH";
     sample_segment "EY" "2026-03-21T01:00:00" "2026-03-21T04:00:00" "BOM";
     sample_segment "AI" "2026-03-21T14:00:00" "2026-03-21T16:00:00" "MAA"].
(** *** Carrier section *)

(** The carrier section as the report describes it: a title, an empty
    line and a table between two lines of three backticks, the table with
    the columns Date, Price, Duration and Layover and one line per record,
    showing its date, its price with two decimals, its duration and its
    layover hours with one decimal and an [h]; or one line saying that no
    flights were found. *)
Definition carrier_title : str :=
  [9992; 65039]%N ++ lit " ETIHAD AIRWAYS " ++ [8212%N]
  ++ lit " MARCH 20 TO MARCH 31".

Definition carrier_placeholder : str :=
  [9992; 65039]%N ++ lit " ETIHAD AIRWAYS " ++ [8212%N]
  ++ lit " No flights found for this date range.".

Definition carrier_headers : list str :=
  [lit "Date"; lit "Price"; lit "Duration"; lit "Layover"].

Definition carrier_cells (r : etihad_row) : list cell :=
  [CStr (er_date r);
   CStr (format_fixed 2 (er_price r));
   CStr (er_duration r);
   CStr (format_fixed 1 (er_layover_hours r) ++ lit "h")].

(** [text] is the carrier section listing [rows], in this order. *)
Definition carrier_section_text (rows : list etihad_row) (text : str)
  : Prop :=
  match rows with
  | [] => text = carrier_placeholder
  | _ :: _ =>
      exists widths header_line row_lines,
        text = carrier_title ++ [chr_newline; chr_newline]
               ++ lit "```" ++ [chr_newline]
               ++ join [chr_newline]
                    ([border widths; header_line; border widths]
                     ++ row_lines ++ [border widths])
               ++ [chr_newline] ++ lit "```" /\
        shows_row (map CStr carrier_headers) header_line /\
        Forall2 (fun r line => shows_row (carrier_cells r) line)
                rows row_lines
  end.
(** *** Records of the normalizer *)







(** * Properties *)

(** ** Strings and integers *)

Lemma digit_val_is_digit c : is_digit c -> digit_val c = Some (Z.of_N c - 48).
Proof.
  intros [H1 H2]. unfold digit_val. cbn [decimal_zeros digit_in].
  assert ((48 <=? c)%N = true) as -> by (apply N.leb_le; lia).
  assert ((c <? 48 + 10)%N = true) as -> by (apply N.ltb_lt; lia).
  cbn. f_equal. lia.
Qed.

Lemma digit_val_of_digit d :
  0 <= d < 10 -> digit_val (Z.to_N (48 + d)) = Some d.
Proof.
  intros Hd. rewrite digit_val_is_digit by (unfold is_digit; lia).
  f_equal. lia.
Qed.

(** One pass of [digits_go] prepends a non-empty block of digits that
    [int_digits] reads back as the number. *)
Lemma digits_go_spec fuel :
  forall n acc,
    (0 < fuel)%nat -> 0 <= n < 2 ^ Z.of_nat fuel ->
    exists ds,
      digits_go fuel n acc = ds ++ acc /\ ds <> [] /\ Forall is_digit ds /\
      forall a b rest,
        int_digits a b (ds ++ rest)
        = int_digits (a * 10 ^ Z.of_nat (length ds) + n) true rest.
Proof.
  induction fuel as [|f IH]; intros n acc Hf Hn; [lia|].
  assert (Hd : 0 <= n mod 10 < 10) by (apply Z.mod_pos_bound; lia).
  assert (Hdig : is_digit (Z.to_N (48 + n mod 10))) by (unfold is_digit; lia).
  cbn [digits_go]. destruct (n <? 10) eqn:Hlt.
  - apply Z.ltb_lt in Hlt. exists [Z.to_N (48 + n mod 10)].
    split; [done|]. split; [done|]. split; [constructor; [done | constructor]|].
    intros a b rest. cbn [app int_digits length].
    rewrite digit_val_of_digit by done.
    rewrite Z.mod_small by lia. f_equal. lia.
  - apply Z.ltb_ge in Hlt.
    assert (Hpow : 2 ^ Z.of_nat (S f) = 2 * 2 ^ Z.of_nat f)
      by (rewrite Nat2Z.inj_succ, Z.pow_succ_r; lia).
    assert (Hf' : (0 < f)%nat).
    { destruct f; [|lia]. change (2 ^ Z.of_nat 1) with 2 in Hn. lia. }
    assert (Hq : 0 <= n / 10 < 2 ^ Z.of_nat f).
    { split; [apply Z.div_pos; lia|].
      apply Z.div_lt_upper_bound; lia. }
    destruct (IH (n / 10) (Z.to_N (48 + n mod 10) :: acc) Hf' Hq)
      as (ds & Heq & Hne & Hall & Hread).
    exists (ds ++ [Z.to_N (48 + n mod 10)]).
    split; [|split; [|split]].
    + rewrite Heq. by rewrite <- app_assoc.
    + by destruct ds.
    + apply Forall_app. split; [done | constructor; [done | constructor]].
    + intros a b rest. rewrite <- app_assoc, Hread.
      cbn [app int_digits]. rewrite digit_val_of_digit by done.
      f_equal. rewrite length_app, Nat2Z.inj_add. cbn [length].
      change (Z.of_nat 1) with 1. rewrite Z.pow_add_r, Z.pow_1_r by lia.
      pose proof (Z.div_mod n 10). lia.
Qed.

Lemma digits_spec n :
  0 <= n ->
  digits n <> [] /\ Forall is_digit (digits n) /\
  int_digits 0 false (digits n) = Some n.
Proof.
  intros Hn. unfold digits.
  destruct (digits_go_spec (S (Z.to_nat (Z.log2 n))) n []) as
    (ds & Heq & Hne & Hall & Hread); [lia| |].
  - split; [done|]. rewrite Nat2Z.inj_succ, Z2Nat.id by apply Z.log2_nonneg.
    destruct (Z.eq_dec n 0) as [->|Hnz]; [reflexivity|].
    apply Z.log2_spec. lia.
  - rewrite app_nil_r in Heq. rewrite Heq. split; [done|]. split; [done|].
    specialize (Hread 0 false []). rewrite app_nil_r in Hread.
    rewrite Hread. cbn [int_digits]. f_equal; lia.
Qed.

Lemma is_digit_not_space c : is_digit c -> is_int_space c = false.
Proof.
  intros [H1 H2]. unfold is_int_space, unicode_space.
  repeat (apply orb_false_iff; split);
    try (apply N.eqb_neq; lia);
    apply andb_false_iff;
    ((right; apply N.leb_gt; lia) || (left; apply N.leb_gt; lia)).
Qed.

Lemma strip_digits ds : Forall is_digit ds -> strip_by is_int_space ds = ds.
Proof.
  intros Hall. unfold strip_by.
  assert (Hl : forall l, Forall is_digit l -> lstrip_by is_int_space l = l).
  { intros [|c l] H; [done|]. cbn. rewrite is_digit_not_space; [done|].
    by inversion H. }
  rewrite (Hl ds Hall), Hl, rev_involutive; [done|].
  by apply Forall_rev.
Qed.

(** [int(str(n)) == n] for a non-negative [n]. *)
Lemma int_digits_roundtrip n : 0 <= n -> int (digits n) = Ok n.
Proof.
  intros Hn. destruct (digits_spec n Hn) as (Hne & Hall & Hread).
  unfold int. rewrite strip_digits by done.
  destruct (digits n) as [|c ds] eqn:E; [done|].
  assert (Hc : is_digit c) by (by inversion Hall).
  destruct Hc as [Hc1 Hc2].
  assert ((c =? chr_minus)%N = false) as -> by (apply N.eqb_neq; unfold chr_minus; lia).
  assert ((c =? chr_plus)%N = false) as -> by (apply N.eqb_neq; unfold chr_plus; lia).
  by rewrite Hread.
Qed.

(** *** Single-character patterns *)

Lemma starts_with_char c x s : starts_with [c] (x :: s) = (c =? x)%N.
Proof. cbn. apply andb_true_r. Qed.

Lemma contains_char_app c a b :
  contains [c] (a ++ c :: b) = true.
Proof.
  induction a as [|x a IH]; cbn [app contains].
  - rewrite starts_with_char, N.eqb_refl. done.
  - rewrite IH. apply orb_true_r.
Qed.

Lemma replace_char_flat_map c new s :
  replace [c] new s = flat_map (fun x => if (c =? x)%N then new else [x]) s.
Proof.
  unfold replace. induction s as [|x s IH]; [done|].
  cbn [replace_go flat_map]. rewrite starts_with_char.
  change (length [c] - 1)%nat with 0%nat. rewrite IH.
  by destruct (c =? x)%N.
Qed.

Lemma replace_char_absent c new s :
  Forall (fun x => x <> c) s -> replace [c] new s = s.
Proof.
  intros H. rewrite replace_char_flat_map.
  induction H as [|x s Hx _ IH]; [done|].
  cbn [flat_map]. rewrite IH.
  assert ((c =? x)%N = false) as -> by (apply N.eqb_neq; congruence). done.
Qed.

Lemma replace_char_app c new a b :
  replace [c] new (a ++ b) = replace [c] new a ++ replace [c] new b.
Proof. rewrite !replace_char_flat_map. apply flat_map_app. Qed.

Lemma split_go_char_absent c cur a :
  Forall (fun x => x <> c) a -> split_go [c] 0 cur a = [rev cur ++ a].
Proof.
  intros H. revert cur. induction H as [|x a Hx _ IH]; intros cur.
  - cbn. by rewrite app_nil_r.
  - cbn [split_go]. rewrite starts_with_char.
    assert ((c =? x)%N = false) as -> by (apply N.eqb_neq; congruence).
    rewrite IH. cbn [rev]. by rewrite <- app_assoc.
Qed.

Lemma split_go_char_first c cur a b :
  Forall (fun x => x <> c) a ->
  split_go [c] 0 cur (a ++ c :: b) = (rev cur ++ a) :: split_go [c] 0 [] b.
Proof.
  intros H. revert cur. induction H as [|x a Hx _ IH]; intros cur.
  - cbn [app split_go]. rewrite starts_with_char, N.eqb_refl.
    by rewrite app_nil_r.
  - cbn [app split_go]. rewrite starts_with_char.
    assert ((c =? x)%N = false) as -> by (apply N.eqb_neq; congruence).
    rewrite IH. cbn [rev]. by rewrite <- app_assoc.
Qed.

Lemma digits_avoid c ds :
  ~ is_digit c -> Forall is_digit ds -> Forall (fun x => x <> c) ds.
Proof.
  intros Hc Hds. eapply Forall_impl; [exact Hds|].
  intros x Hx ->. done.
Qed.

Lemma lower_digits ds : Forall is_digit ds -> lower ds = ds.
Proof.
  unfold lower. induction 1 as [|c ds [H1 H2] _ IH]; [done|].
  cbn [map]. rewrite IH. unfold lower_char.
  assert ((c <=? 90)%N && (65 <=? c)%N = false) as E.
  { apply andb_false_iff. right. apply N.leb_gt. lia. }
  rewrite andb_comm, E. done.
Qed.

(** *** The duration parser on rendered durations *)

Lemma parse_digits_h_digits_m dh dm h m :
  dh <> [] -> dm <> [] -> Forall is_digit dh -> Forall is_digit dm ->
  int dh = Ok h -> int dm = Ok m ->
  parse_duration_to_minutes (dh ++ lit "h " ++ dm ++ lit "m") = Ok (h * 60 + m).
Proof.
  intros Hnh Hnm Hdh Hdm Hih Him.
  assert (Hh : ~ is_digit 104%N) by (unfold is_digit; lia).
  assert (Hm : ~ is_digit 109%N) by (unfold is_digit; lia).
  assert (Hs : ~ is_digit 32%N) by (unfold is_digit; lia).
  unfold parse_duration_to_minutes.
  change (lit "h ") with [104%N; 32%N]. change (lit "m") with [109%N].
  change (lit "h") with [104%N]. change (lit " ") with [32%N].
  change (lit "") with (@nil N).
  unfold lower. rewrite !map_app. fold (lower dh) (lower dm).
  rewrite (lower_digits dh), (lower_digits dm) by done. cbn [map].
  change (lower_char 104) with 104%N. change (lower_char 32) with 32%N.
  change (lower_char 109) with 109%N.
  rewrite !replace_char_app.
  rewrite (replace_char_absent _ _ dh) by (by apply digits_avoid).
  rewrite (replace_char_absent _ _ dm) by (by apply digits_avoid).
  change (replace [32%N] [] [104%N; 32%N]) with [104%N].
  change (replace [32%N] [] [109%N]) with [109%N].
  change (dh ++ [104%N] ++ dm ++ [109%N]) with (dh ++ 104%N :: (dm ++ [109%N])).
  rewrite contains_char_app. cbn [split mbind res_bind].
  rewrite split_go_char_first by (by apply digits_avoid).
  cbn [index lookup list_lookup rev app mbind res_bind].
  destruct dh as [|c dh']; [done|]. rewrite Hih.
  rewrite split_go_char_absent
    by (apply Forall_app; split; [by apply digits_avoid | by repeat constructor]).
  cbn [index lookup list_lookup rev app mbind res_bind].
  change (dm ++ [109%N]) with (dm ++ 109%N :: []).
  rewrite contains_char_app.
  rewrite split_go_char_first by (by apply digits_avoid).
  cbn [index lookup list_lookup rev app mbind res_bind].
  destruct dm as [|c' dm']; [done|]. rewrite Him. done.
Qed.

Lemma contains_char_absent c s :
  Forall (fun x => x <> c) s -> contains [c] s = false.
Proof.
  induction 1 as [|x s Hx _ IH]; [done|].
  cbn [contains]. rewrite starts_with_char, IH.
  assert ((c =? x)%N = false) as -> by (apply N.eqb_neq; congruence). done.
Qed.

(** A duration with the hours only. *)
Lemma parse_digits_h dh h :
  dh <> [] -> Forall is_digit dh -> int dh = Ok h ->
  parse_duration_to_minutes (dh ++ lit "h") = Ok (h * 60).
Proof.
  intros Hnh Hdh Hih.
  assert (Hh : ~ is_digit 104%N) by (unfold is_digit; lia).
  assert (Hs : ~ is_digit 32%N) by (unfold is_digit; lia).
  unfold parse_duration_to_minutes.
  change (lit "h") with [104%N]. change (lit "m") with [109%N].
  change (lit " ") with [32%N]. change (lit "") with (@nil N).
  unfold lower. rewrite map_app. fold (lower dh).
  rewrite (lower_digits dh) by done. cbn [map].
  change (lower_char 104) with 104%N.
  rewrite replace_char_app.
  rewrite (replace_char_absent _ _ dh) by (by apply digits_avoid).
  change (replace [32%N] [] [104%N]) with [104%N].
  change (dh ++ [104%N]) with (dh ++ 104%N :: []).
  rewrite contains_char_app. cbn [split mbind res_bind].
  rewrite split_go_char_first by (by apply digits_avoid).
  cbn [split_go index lookup list_lookup rev app mbind res_bind].
  destruct dh as [|c dh']; [done|]. rewrite Hih.
  cbn [mbind res_bind contains starts_with orb]. f_equal. lia.
Qed.

(** A duration with the minutes only. *)
Lemma parse_digits_m dm m :
  dm <> [] -> Forall is_digit dm -> int dm = Ok m ->
  parse_duration_to_minutes (dm ++ lit "m") = Ok m.
Proof.
  intros Hnm Hdm Him.
  assert (Hh : ~ is_digit 104%N) by (unfold is_digit; lia).
  assert (Hm : ~ is_digit 109%N) by (unfold is_digit; lia).
  assert (Hs : ~ is_digit 32%N) by (unfold is_digit; lia).
  unfold parse_duration_to_minutes.
  change (lit "h") with [104%N]. change (lit "m") with [109%N].
  change (lit " ") with [32%N]. change (lit "") with (@nil N).
  unfold lower. rewrite map_app. fold (lower dm).
  rewrite (lower_digits dm) by done. cbn [map].
  change (lower_char 109) with 109%N.
  rewrite replace_char_app.
  rewrite (replace_char_absent _ _ dm) by (by apply digits_avoid).
  change (replace [32%N] [] [109%N]) with [109%N].
  rewrite contains_char_absent.
  2:{ apply Forall_app. split; [by apply digits_avoid|].
      constructor; [done | constructor]. }
  cbn [mbind res_bind].
  change (dm ++ [109%N]) with (dm ++ 109%N :: []).
  rewrite contains_char_app. cbn [split mbind res_bind].
  rewrite split_go_char_first by (by apply digits_avoid).
  cbn [index lookup list_lookup rev app mbind res_bind].
  destruct dm as [|c' dm']; [done|]. rewrite Him. done.
Qed.

(** C5.  For all integers [h], [m] with [0 <= h] and [0 <= m < 60], parsing
    the rendered duration ["<h>h <m>m"] returns exactly [h * 60 + m]; a
    missing unit contributes zero: ["<h>h"] gives [h * 60] and ["<m>m"]
    gives [m]. *)
Theorem parse_duration_render (h m : Z) :
  (0 <= h) -> (0 <= m < 60) ->
  parse_duration_to_minutes (render_duration h m) = Ok (h * 60 + m) /\
  parse_duration_to_minutes (str_of_int h ++ lit "h") = Ok (h * 60) /\
  parse_duration_to_minutes (str_of_int m ++ lit "m") = Ok m.
Proof.
  intros Hh [Hm _]. unfold render_duration, str_of_int.
  assert ((h <? 0) = false) as -> by (apply Z.ltb_ge; lia).
  assert ((m <? 0) = false) as -> by (apply Z.ltb_ge; lia).
  destruct (digits_spec h Hh) as (Hne1 & Hall1 & _).
  destruct (digits_spec m Hm) as (Hne2 & Hall2 & _).
  pose proof (int_digits_roundtrip h Hh) as Hih.
  pose proof (int_digits_roundtrip m Hm) as Him.
  split; [by apply parse_digits_h_digits_m|].
  split; [by apply parse_digits_h | by apply parse_digits_m].
Qed.

Lemma parse_duration_render_witness :
  parse_duration_to_minutes (render_duration 17 50) = Ok 1070 /\
  parse_duration_to_minutes (str_of_int 17 ++ lit "h") = Ok 1020 /\
  parse_duration_to_minutes (str_of_int 50 ++ lit "m") = Ok 50.
Proof. apply (parse_duration_render 17 50); lia. Defined.

(** The examples of the source: both units, one unit, none. *)
Example parse_duration_examples :
  parse_duration_to_minutes (lit "22h 30m") = Ok 1350 /\
  parse_duration_to_minutes (lit "45m") = Ok 45 /\
  parse_duration_to_minutes (lit "3h") = Ok 180 /\
  parse_duration_to_minutes (lit "") = Ok 0.
Proof. by vm_compute. Qed.

(** ** The result monad *)

Lemma mapM_res_ok {A B} (f : A -> res B) (l : list A) (ys : list B) :
  Forall2 (fun x y => f x = Ok y) l ys -> mapM f l = Ok ys.
Proof.
  induction 1 as [|x y l ys Hx _ IH]; [done|].
  cbn [mapM]. rewrite Hx. cbn [mbind res_bind]. fold (mapM f l).
  by rewrite IH.
Qed.

Lemma mapM_res_inv {A B} (f : A -> res B) (l : list A) (ys : list B) :
  mapM f l = Ok ys -> Forall2 (fun x y => f x = Ok y) l ys.
Proof.
  revert ys. induction l as [|x l IH]; intros ys H.
  - cbn in H. injection H as <-. constructor.
  - cbn [mapM] in H. fold (mapM f l) in H.
    destruct (f x) as [y|e] eqn:Hx; [|done]. cbn [mbind res_bind] in H.
    destruct (mapM f l) as [ys'|e] eqn:Hl; [|done].
    cbn in H. injection H as <-. constructor; [done|]. by apply IH.
Qed.

Lemma mapM_res_raise {A B} (f : A -> res B) (l : list A) (e : exn) :
  Forall (fun x => is_ok (f x) = true \/ f x = Raise e) l ->
  Exists (fun x => f x = Raise e) l ->
  mapM f l = Raise e.
Proof.
  induction 1 as [|x l Hx Hl IH]; intros Hex; [by inversion Hex|].
  cbn [mapM]. fold (mapM f l).
  destruct (f x) as [y|e'] eqn:Hfx.
  - cbn [mbind res_bind]. rewrite IH; [done|].
    inversion Hex; subst; [congruence | done].
  - destruct Hx as [Hx|Hx]; [done|]. by injection Hx as ->.
Qed.

(** ** Table renderer *)

Lemma join_cons2 sep p q ps :
  join sep (p :: q :: ps) = p ++ sep ++ join sep (q :: ps).
Proof. done. Qed.

Lemma length_join_eq sep sep' (ps qs : list (list N)) :
  length sep = length sep' ->
  Forall2 (fun p q => length p = length q) ps qs ->
  length (join sep ps) = length (join sep' qs).
Proof.
  intros Hsep. induction 1 as [|p q ps qs Hpq Hrest IH]; [done|].
  destruct Hrest as [|p' q' ps qs Hpq' Hrest]; [done|].
  rewrite !join_cons2, !length_app, IH. lia.
Qed.

Lemma Forall_join (P : N -> Prop) sep (ps : list (list N)) :
  Forall P sep -> Forall (Forall P) ps -> Forall P (join sep ps).
Proof.
  intros Hsep. induction 1 as [|p ps Hp Hps IH]; [constructor|].
  destruct ps as [|q ps]; [done|].
  rewrite join_cons2. by rewrite !Forall_app.
Qed.

(** Splitting at line breaks undoes joining with line breaks, as long as
    no joined line contains one. *)
Lemma lines_of_join (ls : list (list N)) :
  ls <> [] ->
  Forall (Forall (fun c => c <> chr_newline)) ls ->
  lines_of (join [chr_newline] ls) = ls.
Proof.
  intros Hne Hall. unfold lines_of.
  induction Hall as [|p ps Hp Hps IH]; [done|].
  destruct ps as [|q ps].
  - cbn [join]. by rewrite split_go_char_absent.
  - rewrite join_cons2. cbn [app].
    rewrite split_go_char_first by done. cbn [rev app].
    by rewrite IH.
Qed.

Lemma land_1_bounds x : 0 <= Z.land x 1 <= 1.
Proof.
  change 1 with (Z.ones 1) at 1 2. rewrite Z.land_ones by lia.
  change (2 ^ 1) with 2. pose proof (Z.mod_pos_bound x 2). lia.
Qed.

Lemma length_repeat_char c n : length (repeat_char c n) = Z.to_nat n.
Proof. apply length_replicate. Qed.

(** A cell no longer than its column is padded to exactly the column's
    width, whatever the alignment. *)
Lemma length_pad text width align :
  len text <= width -> length (_pad text width align) = Z.to_nat width.
Proof.
  unfold _pad, len. intros Hle.
  assert ((width <? Z.of_nat (length text)) = false) as -> by (apply Z.ltb_ge; lia).
  destruct (bool_decide (align = lit "right"));
    [|destruct (bool_decide (align = lit "center"))].
  - unfold rjust, len. rewrite length_app, length_repeat_char. lia.
  - unfold center, len.
    destruct (width - Z.of_nat (length text) <=? 0) eqn:E.
    + apply Z.leb_le in E. lia.
    + apply Z.leb_gt in E.
      pose proof (land_1_bounds
                    (Z.land (width - Z.of_nat (length text)) width)) as Hb.
      assert (0 <= (width - Z.of_nat (length text)) / 2) by (apply Z.div_pos; lia).
      assert (2 * ((width - Z.of_nat (length text)) / 2)
              <= width - Z.of_nat (length text))
        by (apply Z.mul_div_le; lia).
      assert (width - Z.of_nat (length text) = 1 ->
              (width - Z.of_nat (length text)) / 2 = 0)
        by (intros ->; done).
      rewrite !length_app, !length_repeat_char. lia.
  - unfold ljust, len. rewrite length_app, length_repeat_char. lia.
Qed.

(** Padding adds nothing but spaces. *)
Lemma Forall_pad (P : N -> Prop) text width align :
  P chr_space -> Forall P text -> Forall P (_pad text width align).
Proof.
  intros Hsp Htext.
  assert (Hrep : forall n, Forall P (repeat_char chr_space n))
    by (intros n; by apply Forall_replicate).
  unfold _pad. destruct (width <? len text).
  - unfold slice_to. destruct (width <? 0); by apply Forall_take.
  - destruct (bool_decide (align = lit "right"));
      [|destruct (bool_decide (align = lit "center"))];
      unfold rjust, ljust, center;
      try destruct (_ <=? 0); rewrite ?Forall_app; auto.
Qed.

(** *** Column widths *)

Lemma widen_for_row_S n ml row :
  widen_for_row (S n) ml row =
  match row !! n with
  | Some c => alter (fun l => Z.max l (len (str_of c))) n (widen_for_row n ml row)
  | None => widen_for_row n ml row
  end.
Proof. unfold widen_for_row. by rewrite seq_S, foldl_app. Qed.

Lemma length_widen_for_row n ml row :
  length (widen_for_row n ml row) = length ml.
Proof.
  induction n as [|n IH]; [done|].
  rewrite widen_for_row_S. destruct (row !! n); [|done].
  by rewrite length_alter.
Qed.

(** Column [i] of [max_lengths] after one row: raised to the cell's length
    when the row has a cell there and [i] is below [num_cols]. *)
Lemma lookup_widen_for_row n ml row i :
  widen_for_row n ml row !! i =
  (fun l => match row !! i with
            | Some c => if decide (i < n)%nat then Z.max l (len (str_of c)) else l
            | None => l
            end) <$> ml !! i.
Proof.
  induction n as [|n IH].
  - cbn. destruct (ml !! i), (row !! i); done.
  - rewrite widen_for_row_S. destruct (decide (i = n)) as [->|Hne].
    + destruct (row !! n) as [c|] eqn:Hrow.
      * rewrite list_lookup_alter. rewrite decide_True by done.
        rewrite IH. destruct (ml !! n); [|done]. cbn.
        rewrite decide_False by lia. by rewrite decide_True by lia.
      * rewrite IH. by destruct (ml !! n).
    + assert (Hstep : widen_for_row n ml row !! i =
                      match row !! n with
                      | Some c => alter (fun l => Z.max l (len (str_of c))) n
                                        (widen_for_row n ml row)
                      | None => widen_for_row n ml row
                      end !! i).
      { destruct (row !! n); [|done]. by rewrite list_lookup_alter_ne. }
      rewrite <- Hstep, IH. destruct (ml !! i); [|done]. cbn.
      destruct (row !! i); [|done].
      destruct (decide (i < n)%nat), (decide (i < S n)%nat); done || lia.
Qed.

Lemma length_foldl_widen n rows ml :
  length (foldl (widen_for_row n) ml rows) = length ml.
Proof.
  revert ml. induction rows as [|row rows IH]; intros ml; [done|].
  cbn [foldl]. by rewrite IH, length_widen_for_row.
Qed.

Lemma lookup_foldl_widen n rows : forall ml i w,
  foldl (widen_for_row n) ml rows !! i = Some w ->
  exists w0, ml !! i = Some w0 /\ w0 <= w /\
    forall row c, row ∈ rows -> row !! i = Some c -> (i < n)%nat ->
                  len (str_of c) <= w.
Proof.
  induction rows as [|r rows IH]; intros ml i w H.
  - cbn in H. exists w. split; [done|]. split; [lia|].
    intros row c Hin. by apply elem_of_nil in Hin.
  - cbn [foldl] in H. apply IH in H as (w1 & H1 & Hle & Hrows).
    rewrite lookup_widen_for_row in H1.
    destruct (ml !! i) as [w0|] eqn:Hml; [|done].
    cbn in H1. injection H1 as H1. exists w0. split; [done|].
    split.
    + destruct (r !! i); [destruct (decide (i < n)%nat)|]; lia.
    + intros row c Hin Hrow Hi. apply elem_of_cons in Hin as [->|Hin].
      * rewrite Hrow in H1. rewrite decide_True in H1 by done. lia.
      * by eapply Hrows.
Qed.

Lemma length_auto_column_widths headers rows padding :
  length (auto_column_widths headers rows padding) = length headers.
Proof.
  unfold auto_column_widths.
  by rewrite length_map, length_foldl_widen, length_map.
Qed.

(** Every width covers the header of its column and every cell of the
    column, plus the padding. *)
Lemma auto_column_widths_cover headers rows padding i w :
  auto_column_widths headers rows padding !! i = Some w ->
  (exists h, headers !! i = Some h /\ len h + padding <= w) /\
  (forall row c, row ∈ rows -> row !! i = Some c ->
                 len (str_of c) + padding <= w).
Proof.
  unfold auto_column_widths. intros H.
  change (map (fun l => l + padding)) with (fmap (M:=list) (fun l => l + padding)) in H.
  rewrite list_lookup_fmap in H.
  destruct (foldl _ _ rows !! i) as [m|] eqn:Hm; [|done].
  cbn in H. injection H as <-.
  assert (Hi : (i < length headers)%nat).
  { apply lookup_lt_Some in Hm.
    by rewrite length_foldl_widen, length_map in Hm. }
  apply lookup_foldl_widen in Hm as (w0 & H0 & Hle & Hrows).
  change (map len headers) with (len <$> headers) in H0.
  rewrite list_lookup_fmap in H0.
  destruct (headers !! i) as [h|] eqn:Hh; [|done].
  cbn in H0. injection H0 as <-. split.
  - exists h. split; [done | lia].
  - intros row c Hin Hrow. specialize (Hrows row c Hin Hrow Hi). lia.
Qed.

(** *** Rows *)

Lemma format_cells_ok widths aligns row : forall i,
  (i + length row <= length widths)%nat ->
  (i + length row <= length aligns)%nat ->
  exists cells,
    format_cells widths aligns i row = Ok cells /\
    length cells = length row /\
    forall j c, row !! j = Some c ->
      exists w a, widths !! (i + j)%nat = Some w /\
                  aligns !! (i + j)%nat = Some a /\
                  cells !! j = Some (_pad (str_of c) w a).
Proof.
  induction row as [|c row IH]; intros i Hw Ha.
  - by exists [].
  - cbn [length] in Hw, Ha. cbn [format_cells]. unfold index.
    destruct (widths !! i) as [w|] eqn:Ew;
      [|apply lookup_ge_None in Ew; lia].
    destruct (aligns !! i) as [a|] eqn:Ea;
      [|apply lookup_ge_None in Ea; lia].
    cbn [mbind res_bind].
    destruct (IH (S i)) as (cells & Hcells & Hlen & Hlook); [lia..|].
    rewrite Hcells. cbn [mbind res_bind].
    exists (_pad (str_of c) w a :: cells). split; [done|].
    split; [cbn; lia|]. intros [|j] c' Hj.
    + cbn in Hj. injection Hj as <-. exists w, a.
      by rewrite Nat.add_0_r.
    + cbn in Hj. destruct (Hlook j c' Hj) as (w' & a' & H1 & H2 & H3).
      exists w', a'. by rewrite Nat.add_succ_r.
Qed.

Lemma format_cells_raise widths aligns row : forall i,
  (i <= length widths)%nat ->
  (length widths < i + length row)%nat ->
  format_cells widths aligns i row = Raise IndexError.
Proof.
  induction row as [|c row IH]; intros i Hi Hw; [cbn in Hw; lia|].
  cbn [length] in Hw. cbn [format_cells]. unfold index.
  destruct (widths !! i) as [w|] eqn:Ew; [|done].
  destruct (aligns !! i) as [a|] eqn:Ea; [|done].
  cbn [mbind res_bind]. apply lookup_lt_Some in Ew.
  rewrite IH; [done|lia..].
Qed.

Lemma format_cells_ok_or_index widths aligns row : forall i,
  is_ok (format_cells widths aligns i row) = true \/
  format_cells widths aligns i row = Raise IndexError.
Proof.
  induction row as [|c row IH]; intros i; [by left|].
  cbn [format_cells]. unfold index.
  destruct (widths !! i); [|by right].
  destruct (aligns !! i); [|by right].
  cbn [mbind res_bind]. destruct (IH (S i)) as [H|H].
  - destruct (format_cells widths aligns (S i) row); [by left | done].
  - rewrite H. by right.
Qed.

Lemma format_row_ok_or_index widths aligns row :
  is_ok (format_row widths aligns row) = true \/
  format_row widths aligns row = Raise IndexError.
Proof.
  unfold format_row.
  destruct (format_cells_ok_or_index widths aligns row 0) as [H|H].
  - destruct (format_cells widths aligns 0 row); [by left | done].
  - rewrite H. by right.
Qed.

Lemma format_row_raise widths aligns row :
  (length widths < length row)%nat ->
  format_row widths aligns row = Raise IndexError.
Proof.
  intros H. unfold format_row. rewrite format_cells_raise; [done|lia..].
Qed.

(** A row that fills the widths it is given, cell by cell, renders as a
    line as long as the border. *)
Lemma format_row_full widths aligns row :
  length row = length widths ->
  length aligns = length widths ->
  (forall j c w, row !! j = Some c -> widths !! j = Some w ->
                 len (str_of c) <= w) ->
  exists line,
    format_row widths aligns row = Ok line /\
    length line = length (border widths) /\
    (Forall (fun c => no_newline (str_of c)) row -> no_newline line).
Proof.
  intros Hrow Hal Hfit. unfold format_row.
  destruct (format_cells_ok widths aligns row 0) as (cells & Hcells & Hlen & Hlook);
    [lia..|].
  rewrite Hcells. cbn [mbind res_bind]. eexists. split; [done|]. split.
  - unfold border. rewrite !length_app. f_equal. f_equal.
    apply length_join_eq; [done|].
    apply Forall2_same_length_lookup. split.
    + rewrite length_map. lia.
    + intros j t d Ht Hd.
      change (map (repeat_char chr_minus) widths)
        with (repeat_char chr_minus <$> widths) in Hd.
      rewrite list_lookup_fmap in Hd.
      destruct (widths !! j) as [w|] eqn:Ew; [|done].
      cbn in Hd. injection Hd as <-.
      destruct (row !! j) as [c|] eqn:Ec.
      2:{ apply lookup_ge_None in Ec. apply lookup_lt_Some in Ht. lia. }
      destruct (Hlook j c Ec) as (w' & a & H1 & H2 & H3).
      cbn in H1. rewrite Ew in H1. injection H1 as <-.
      rewrite Ht in H3. injection H3 as ->.
      rewrite length_repeat_char. apply length_pad. by eapply Hfit.
  - intros Hnl. unfold no_newline. rewrite !Forall_app.
    split; [by repeat constructor|]. split; [|by repeat constructor].
    apply Forall_join; [by repeat constructor|].
    apply Forall_lookup. intros j t Ht.
    destruct (row !! j) as [c|] eqn:Ec.
    2:{ apply lookup_ge_None in Ec. apply lookup_lt_Some in Ht. lia. }
    destruct (Hlook j c Ec) as (w' & a & H1 & H2 & H3).
    rewrite Ht in H3. injection H3 as ->.
    apply Forall_pad; [done|].
    by eapply (Forall_lookup_1 _ _ _ _ Hnl).
Qed.

Lemma no_newline_border widths : no_newline (border widths).
Proof.
  unfold border, no_newline. rewrite !Forall_app.
  split; [by repeat constructor|]. split; [|by repeat constructor].
  apply Forall_join; [by repeat constructor|].
  apply Forall_forall. intros d Hd.
  change (map (repeat_char chr_minus) widths)
    with (repeat_char chr_minus <$> widths) in Hd.
  apply list_elem_of_fmap in Hd as (w & -> & _).
  by apply Forall_replicate.
Qed.

(** *** The whole table *)

Lemma mapM_rows_full widths aligns (rows : list (list cell)) :
  length aligns = length widths ->
  Forall (fun row => length row = length widths) rows ->
  (forall row j c w, row ∈ rows -> row !! j = Some c -> widths !! j = Some w ->
                     len (str_of c) <= w) ->
  exists row_lines,
    mapM (format_row widths aligns) rows = Ok row_lines /\
    length row_lines = length rows /\
    Forall (fun line => length line = length (border widths)) row_lines /\
    (Forall (Forall (fun c => no_newline (str_of c))) rows ->
     Forall no_newline row_lines).
Proof.
  intros Hal Hrows. induction Hrows as [|row rows Hrow _ IH]; intros Hfit.
  - exists []. repeat split; constructor.
  - destruct IH as (ls & Hls & Hlen & Hsame & Hnl).
    { intros r j c w Hin. apply Hfit. apply elem_of_cons. by right. }
    destruct (format_row_full widths aligns row Hrow Hal)
      as (line & Hline & Hlinelen & Hlinenl).
    { intros j c w. apply Hfit. apply elem_of_cons. by left. }
    exists (line :: ls). cbn [mapM]. rewrite Hline. cbn [mbind res_bind].
    fold (mapM (format_row widths aligns) rows). rewrite Hls.
    split; [done|]. split; [cbn; lia|]. split; [by constructor|].
    intros Hall. inversion Hall; subst. constructor; auto.
Qed.

Lemma mapM_rows_ok widths aligns (rows : list (list cell)) :
  Forall (fun row => (length row <= length widths)%nat
                     /\ (length row <= length aligns)%nat) rows ->
  exists row_lines, mapM (format_row widths aligns) rows = Ok row_lines.
Proof.
  induction 1 as [|row rows [Hw Ha] _ (ls & Hls)]; [by exists []|].
  destruct (format_cells_ok widths aligns row 0) as (cells & Hcells & _); [lia..|].
  assert (Hrow : format_row widths aligns row
                 = Ok (lit "| " ++ join (lit " | ") cells ++ lit " |"))
    by (unfold format_row; by rewrite Hcells).
  eexists. cbn [mapM]. rewrite Hrow.
  cbn [mbind res_bind]. fold (mapM (format_row widths aligns) rows).
  by rewrite Hls.
Qed.

Lemma header_cells_lookup (headers : list str) j c :
  map CStr headers !! j = Some c -> exists h, headers !! j = Some h /\ c = CStr h.
Proof.
  change (map CStr headers) with (CStr <$> headers).
  rewrite list_lookup_fmap. destruct (headers !! j) as [h|]; [|done].
  cbn. intros [= <-]. by exists h.
Qed.

(** C6 (as amended).  For every list of rows in which each row has exactly
    as many cells as there are headers and no header or cell text contains a
    line break, rendered with auto-computed column widths (a non-negative
    padding, 2 by default), every line of [make_table]'s output has the same
    length, and the number of lines is the number of rows plus 4: three
    borders, the header, one line per row. *)
Theorem make_table_lines_aligned headers rows padding :
  0 <= padding ->
  Forall (fun row => length row = length headers) rows ->
  Forall no_newline headers ->
  Forall (Forall (fun c => no_newline (str_of c))) rows ->
  exists table,
    make_table headers rows (auto_column_widths headers rows padding) None
      = Ok table /\
    length (lines_of table) = (length rows + 4)%nat /\
    lines_aligned table.
Proof.
  intros Hpad Hrows Hnlh Hnlr.
  set (widths := auto_column_widths headers rows padding).
  assert (Hlw : length widths = length headers)
    by apply length_auto_column_widths.
  assert (Hla : length (default_aligns headers) = length widths)
    by (unfold default_aligns; rewrite length_replicate; lia).
  unfold make_table, make_table_lines. fold (default_aligns headers).
  destruct (format_row_full widths (default_aligns headers) (map CStr headers))
    as (hline & Hh & Hhlen & Hhnl); [by rewrite length_map | done | |].
  { intros j c w Hc Hw. apply header_cells_lookup in Hc as (h & Hh & ->).
    apply auto_column_widths_cover in Hw as [(h' & Hh' & Hle) _].
    cbn. rewrite Hh in Hh'. injection Hh' as <-. lia. }
  destruct (mapM_rows_full widths (default_aligns headers) rows)
    as (rlines & Hr & Hrlen & Hrsame & Hrnl); [done | | |].
  { eapply Forall_impl; [exact Hrows|]. cbn. intros; lia. }
  { intros row j c w Hin Hc Hw.
    apply auto_column_widths_cover in Hw as [_ Hcover].
    specialize (Hcover row c Hin Hc). lia. }
  rewrite Hh. cbn [mbind res_bind]. rewrite Hr. cbn [mbind res_bind].
  eexists. split; [done|].
  assert (Hhn : no_newline hline).
  { apply Hhnl. apply Forall_forall. intros c Hc.
    change (map CStr headers) with (CStr <$> headers) in Hc.
    apply list_elem_of_fmap in Hc as (h & -> & Hin). cbn.
    by eapply (proj1 (Forall_forall _ _) Hnlh). }
  pose proof (no_newline_border widths) as Hb.
  assert (Hlines :
    lines_of (join [chr_newline]
      ([border widths; hline; border widths] ++ rlines ++ [border widths]))
    = [border widths; hline; border widths] ++ rlines ++ [border widths]).
  { apply lines_of_join; [done|].
    repeat (apply Forall_cons; split; [done|]).
    apply Forall_app. split; [by apply Hrnl|].
    constructor; [done | constructor]. }
  unfold lines_aligned. rewrite Hlines. split.
  - cbn [app length]. rewrite length_app, Hrlen. cbn. lia.
  - exists (length (border widths)).
    repeat (apply Forall_cons; split; [done|]).
    apply Forall_app. split; [done|]. constructor; [done | constructor].
Qed.

Lemma Forall_no_newline_dec (s : str) :
  forallb (fun c => negb (c =? chr_newline)%N) s = true -> no_newline s.
Proof.
  intros H. apply Forall_forall. intros c Hc ->.
  rewrite forallb_forall in H. apply list_elem_of_In in Hc.
  specialize (H _ Hc). by rewrite N.eqb_refl in H.
Qed.

(** Proves [Forall P l] for an explicit list [l], with [tac] on each element. *)
Ltac each_elem tac := repeat (constructor; [tac|]); constructor.

Lemma make_table_lines_aligned_witness :
  exists table,
    make_table sample_headers sample_rows
               (auto_column_widths sample_headers sample_rows default_padding)
               None = Ok table /\
    length (lines_of table) = 6%nat /\ lines_aligned table.
Proof.
  apply (make_table_lines_aligned sample_headers sample_rows default_padding).
  - unfold default_padding. lia.
  - each_elem ltac:(cbn; reflexivity).
  - each_elem ltac:(by apply Forall_no_newline_dec).
  - each_elem ltac:(each_elem ltac:(by apply Forall_no_newline_dec)).
Defined.

(** C6 (as stated) fails: a row with fewer cells than headers is rendered
    as a shorter line, and a cell holding a line break adds a line. *)
Lemma make_table_ragged_counterexample :
  (exists table,
     make_table [lit "A"; lit "B"] [[CStr (lit "x")]]
       (auto_column_widths [lit "A"; lit "B"] [[CStr (lit "x")]] default_padding)
       None = Ok table /\
     map length (lines_of table) = [13; 13; 13; 7; 13]%nat /\
     ~ lines_aligned table) /\
  (exists table,
     make_table [lit "A"] [[CStr [120; 10; 121]%N]]
       (auto_column_widths [lit "A"] [[CStr [120; 10; 121]%N]] default_padding)
       None = Ok table /\
     length (lines_of table) = 6%nat /\
     ~ lines_aligned table).
Proof.
  split; eexists; (split; [by vm_compute|]); (split; [by vm_compute|]).
  - intros [n Hn]. vm_compute in Hn.
    inversion Hn as [|? ? H1 Hn1]; subst.
    inversion Hn1 as [|? ? _ Hn2]; subst.
    inversion Hn2 as [|? ? _ Hn3]; subst.
    inversion Hn3 as [|? ? H4 _]; subst. discriminate H4.
  - intros [n Hn]. vm_compute in Hn.
    inversion Hn as [|? ? H1 Hn1]; subst.
    inversion Hn1 as [|? ? _ Hn2]; subst.
    inversion Hn2 as [|? ? _ Hn3]; subst.
    inversion Hn3 as [|? ? H4 _]; subst. discriminate H4.
Qed.

(** C10.  When every row has at most as many cells as there are headers,
    every lookup in the width and alignment lists inside [make_table] (auto
    widths, default alignments) is in bounds and the table is produced; a
    row with more cells than headers makes the width lookup raise
    [IndexError]. *)
Theorem make_table_index_safety :
  (forall headers rows,
     Forall (fun row : list cell => (length row <= length headers)%nat) rows ->
     exists table,
       make_table headers rows
         (auto_column_widths headers rows default_padding) None = Ok table) /\
  (forall headers rows,
     Exists (fun row : list cell => (length headers < length row)%nat) rows ->
     make_table headers rows
       (auto_column_widths headers rows default_padding) None
     = Raise IndexError).
Proof.
  split; intros headers rows Hrows.
  - set (widths := auto_column_widths headers rows default_padding).
    assert (Hlw : length widths = length headers)
      by apply length_auto_column_widths.
    unfold make_table, make_table_lines. fold (default_aligns headers).
    assert (Hla : length (default_aligns headers) = length headers)
      by apply length_replicate.
    destruct (format_cells_ok widths (default_aligns headers)
                (map CStr headers) 0) as (cells & Hcells & _);
      [rewrite length_map; lia..|].
    assert (Hhead : format_row widths (default_aligns headers) (map CStr headers)
                    = Ok (lit "| " ++ join (lit " | ") cells ++ lit " |"))
      by (unfold format_row; by rewrite Hcells).
    rewrite Hhead. cbn [mbind res_bind].
    destruct (mapM_rows_ok widths (default_aligns headers) rows) as (ls & Hls).
    { eapply Forall_impl; [exact Hrows|]. cbn. intros; lia. }
    rewrite Hls. cbn [mbind res_bind]. by eexists.
  - set (widths := auto_column_widths headers rows default_padding).
    assert (Hlw : length widths = length headers)
      by apply length_auto_column_widths.
    unfold make_table, make_table_lines. fold (default_aligns headers).
    assert (Hla : length (default_aligns headers) = length headers)
      by apply length_replicate.
    destruct (format_cells_ok widths (default_aligns headers)
                (map CStr headers) 0) as (cells & Hcells & _);
      [rewrite length_map; lia..|].
    assert (Hhead : format_row widths (default_aligns headers) (map CStr headers)
                    = Ok (lit "| " ++ join (lit " | ") cells ++ lit " |"))
      by (unfold format_row; by rewrite Hcells).
    rewrite Hhead. cbn [mbind res_bind].
    rewrite (mapM_res_raise _ rows IndexError); [done | |].
    + apply Forall_forall. intros row _. apply format_row_ok_or_index.
    + eapply Exists_impl; [exact Hrows|]. cbn. intros row Hrow.
      apply format_row_raise. lia.
Qed.

Lemma make_table_index_safety_witness :
  (exists table,
     make_table [lit "A"; lit "B"] [[CStr (lit "x")]]
       (auto_column_widths [lit "A"; lit "B"] [[CStr (lit "x")]] default_padding)
       None = Ok table) /\
  make_table [lit "A"] [[CStr (lit "x"); CStr (lit "y")]]
    (auto_column_widths [lit "A"] [[CStr (lit "x"); CStr (lit "y")]]
       default_padding) None = Raise IndexError.
Proof.
  split.
  - apply (proj1 make_table_index_safety). each_elem ltac:(cbn; lia).
  - apply (proj2 make_table_index_safety). apply Exists_cons_hd. cbn. lia.
Defined.

(** ** Stable insertion sort *)

Section StableSort.
Context {A : Type} (lt : A -> A -> bool) (ok : A -> Prop).

(** [lt] is a strict weak order on the elements that satisfy [ok]. *)
Hypothesis lt_irrefl : forall x, lt x x = false.
Hypothesis lt_trans :
  forall x y z, lt x y = true -> lt y z = true -> lt x z = true.
Hypothesis lt_incomparable_trans :
  forall x y z, ok y -> lt x y = false -> lt y z = false -> lt x z = false.

Lemma lt_asym x y : lt x y = true -> lt y x = false.
Proof using lt_irrefl lt_trans.
  intros Hxy. destruct (lt y x) eqn:Hyx; [|done].
  by rewrite <- (lt_irrefl x), (lt_trans x y x).
Qed.

Lemma insert_sorted_perm x l : Permutation (x :: l) (insert_sorted lt x l).
Proof using Type.
  induction l as [|y l IH]; [done|].
  cbn [insert_sorted]. destruct (lt y x); [|done].
  rewrite perm_swap. by constructor.
Qed.

Lemma sorted_with_perm l : Permutation l (sorted_with lt l).
Proof using Type.
  induction l as [|x l IH]; [done|].
  cbn [sorted_with foldr]. fold (sorted_with lt l).
  rewrite <- insert_sorted_perm. by constructor.
Qed.

Lemma insert_sorted_ascending x l :
  ok x -> Forall ok l -> ascending lt l -> ascending lt (insert_sorted lt x l).
Proof using lt_irrefl lt_trans lt_incomparable_trans.
  intros Hx Hok Hl. induction Hl as [|y l Hl IH Hy].
  - repeat constructor.
  - inversion Hok as [|? ? Hoky Hokl]; subst.
    cbn [insert_sorted]. destruct (lt y x) eqn:Hyx.
    + constructor; [by apply IH|].
      apply Forall_forall. intros z Hz.
      rewrite <- (insert_sorted_perm x l) in Hz.
      apply elem_of_cons in Hz as [->|Hz]; [by apply lt_asym|].
      by apply (proj1 (Forall_forall _ _) Hy).
    + constructor; [by constructor|].
      constructor; [done|].
      apply Forall_forall. intros z Hz.
      apply (lt_incomparable_trans z y x); [done| |done].
      by apply (proj1 (Forall_forall _ _) Hy).
Qed.

Lemma sorted_with_ascending l :
  Forall ok l -> ascending lt (sorted_with lt l).
Proof using lt_irrefl lt_trans lt_incomparable_trans.
  induction 1 as [|x l Hx Hl IH]; [constructor|].
  cbn [sorted_with foldr]. fold (sorted_with lt l).
  apply insert_sorted_ascending; [done| |done].
  by rewrite <- (sorted_with_perm l).
Qed.

(** Two elements tied with a third are not ordered by [lt]. *)
Lemma tied_not_lt a x y :
  ok a -> tied lt a x = true -> tied lt a y = true -> lt y x = false.
Proof using lt_incomparable_trans.
  unfold tied. intros Ha Hx Hy.
  apply andb_true_iff in Hx as [Hax Hxa], Hy as [Hay Hya].
  apply negb_true_iff in Hax, Hxa, Hay, Hya.
  by apply (lt_incomparable_trans y a x).
Qed.

Lemma insert_sorted_filter_tied a x l :
  ok a ->
  List.filter (tied lt a) (insert_sorted lt x l)
  = List.filter (tied lt a) (x :: l).
Proof using lt_incomparable_trans.
  intros Ha. induction l as [|y l IH]; [done|].
  cbn [insert_sorted]. destruct (lt y x) eqn:Hyx; [|done].
  cbn [List.filter] in *. rewrite IH.
  destruct (tied lt a y) eqn:Hy, (tied lt a x) eqn:Hx; try done.
  by rewrite (tied_not_lt a x y) in Hyx.
Qed.

Lemma sorted_with_filter_tied a l :
  ok a ->
  List.filter (tied lt a) (sorted_with lt l) = List.filter (tied lt a) l.
Proof using lt_incomparable_trans.
  intros Ha. induction l as [|x l IH]; [done|].
  cbn [sorted_with foldr]. fold (sorted_with lt l).
  rewrite insert_sorted_filter_tied by done.
  cbn [List.filter]. by rewrite IH.
Qed.

(** The insertion sort computes the stable ascending sort. *)
Lemma sorted_with_stable l :
  Forall ok l -> stable_sort_of lt l (sorted_with lt l).
Proof using lt_irrefl lt_trans lt_incomparable_trans.
  intros Hok. split; [apply sorted_with_perm|].
  split; [by apply sorted_with_ascending|].
  intros a Ha. apply sorted_with_filter_tied.
  by apply (proj1 (Forall_forall _ _) Hok).
Qed.

(** The first element of the sorted list is a minimum of the list. *)
Lemma sorted_with_head l m :
  Forall ok l ->
  index (sorted_with lt l) 0 = Ok m ->
  m ∈ l /\ forall x, x ∈ l -> lt x m = false.
Proof using lt_irrefl lt_trans lt_incomparable_trans.
  intros Hok Hm. pose proof (sorted_with_ascending l Hok) as Hasc.
  pose proof (sorted_with_perm l) as Hperm.
  unfold index in Hm. destruct (sorted_with lt l) as [|m' s] eqn:E; [done|].
  cbn in Hm. injection Hm as ->.
  assert (Hin : forall x, x ∈ l <-> x ∈ m :: s)
    by (intros x; by rewrite Hperm).
  split; [apply Hin, elem_of_cons; by left|].
  intros x Hx. apply Hin, elem_of_cons in Hx as [->|Hx]; [apply lt_irrefl|].
  inversion Hasc as [|? ? _ Hall]; subst.
  by apply (proj1 (Forall_forall _ _) Hall).
Qed.

(** The stable ascending sort is unique. *)
Lemma stable_sort_unique l : forall l1 l2,
  Forall ok l ->
  stable_sort_of lt l l1 -> stable_sort_of lt l l2 -> l1 = l2.
Proof using lt_irrefl lt_trans lt_incomparable_trans.
  assert (Hgen : forall n l1 l2,
    length l1 = n -> Forall ok l1 -> Permutation l1 l2 ->
    ascending lt l1 -> ascending lt l2 ->
    (forall a, a ∈ l1 ->
       List.filter (tied lt a) l1 = List.filter (tied lt a) l2) ->
    l1 = l2).
  { induction n as [|n IH]; intros l1 l2 Hlen Hok Hperm H1 H2 Hst.
    - destruct l1; [|done]. by apply Permutation_nil in Hperm.
    - destruct l1 as [|a l1]; [done|].
      destruct l2 as [|b l2];
        [by apply Permutation_sym, Permutation_nil in Hperm|].
      inversion H1 as [|? ? H1' Ha]; subst.
      inversion H2 as [|? ? H2' Hb]; subst.
      inversion Hok as [|? ? Hoka Hok']; subst.
      assert (Hba : lt b a = false).
      { assert (Hin : b ∈ a :: l1)
          by (rewrite Hperm; apply elem_of_cons; by left).
        apply elem_of_cons in Hin as [->|Hin]; [apply lt_irrefl|].
        by apply (proj1 (Forall_forall _ _) Ha). }
      assert (Hab : lt a b = false).
      { assert (Hin : a ∈ b :: l2)
          by (rewrite <- Hperm; apply elem_of_cons; by left).
        apply elem_of_cons in Hin as [->|Hin]; [apply lt_irrefl|].
        by apply (proj1 (Forall_forall _ _) Hb). }
      assert (Heq : a = b).
      { specialize (Hst a (proj2 (elem_of_cons _ _ _) (or_introl eq_refl))).
        assert (Haa : tied lt a a = true)
          by (unfold tied; by rewrite lt_irrefl).
        assert (Htab : tied lt a b = true)
          by (unfold tied; by rewrite Hab, Hba).
        cbn [List.filter] in Hst. rewrite Haa, Htab in Hst. congruence. }
      subst b. f_equal. apply Permutation_cons_inv in Hperm.
      apply IH; try done; [cbn in Hlen; lia|].
      intros c Hc.
      specialize (Hst c (proj2 (elem_of_cons _ _ _) (or_intror Hc))).
      cbn [List.filter] in Hst. destruct (tied lt c a); congruence. }
  intros l1 l2 Hok (Hp1 & Ha1 & Hs1) (Hp2 & Ha2 & Hs2).
  assert (Hin1 : forall a, a ∈ l1 -> a ∈ l)
    by (intros a Ha; by rewrite Hp1).
  apply (Hgen (length l1)); try done.
  - by rewrite <- Hp1.
  - by rewrite <- Hp1.
  - intros a Ha. rewrite Hs1, Hs2; auto.
Qed.
End StableSort.

(** A list that is one run already is left as it is, whatever [lt] is:
    each element is put before a list whose head is not smaller. *)
Lemma sorted_with_run {A} (lt : A -> A -> bool) (l : list A) :
  is_run lt l = true -> sorted_with lt l = l.
Proof.
  induction l as [|x l IH]; [done|]. intros Hrun.
  cbn [sorted_with foldr]. fold (sorted_with lt l).
  destruct l as [|y l']; [done|].
  cbn [is_run] in Hrun. apply andb_true_iff in Hrun as [Hyx Hrest].
  rewrite (IH Hrest). cbn [insert_sorted].
  apply negb_true_iff in Hyx. by rewrite Hyx.
Qed.

(** ** The order of floats *)

Lemma SFltb_lex x y kx ky :
  sf_key x = Some kx -> sf_key y = Some ky ->
  SFltb x y = true <-> lex3_lt kx ky.
Proof.
  unfold SFltb, SFcompare, lex3_lt.
  destruct x as [sx|[|]| |[|] mx ex], y as [sy|[|]| |[|] my ey];
    cbn [sf_key]; intros [= <-] [= <-];
    try (split; [intros ?; (done || lia) | intros ?; (done || lia)]);
    try (destruct sx; split; intros ?; (done || lia));
    try (destruct sy; split; intros ?; (done || lia)).
  - change (PosDef.Pos.compare_cont Eq mx my) with (Pos.compare mx my).
    destruct (Z.compare_spec ex ey), (Pos.compare_spec mx my);
      cbn; split; intros ?; (done || lia).
  - change (PosDef.Pos.compare_cont Eq mx my) with (Pos.compare mx my).
    destruct (Z.compare_spec ex ey), (Pos.compare_spec mx my);
      cbn; split; intros ?; (done || lia).
Qed.

Lemma SFltb_true_keys x y :
  SFltb x y = true -> exists kx ky, sf_key x = Some kx /\ sf_key y = Some ky.
Proof.
  unfold SFltb, SFcompare.
  destruct x as [sx|[|]| |[|] mx ex], y as [sy|[|]| |[|] my ey];
    cbn [sf_key]; intros H; try done; eauto.
Qed.

Lemma not_nan_key x :
  not_nan x <-> exists k, sf_key (Prim2SF x) = Some k.
Proof.
  unfold not_nan, PrimFloat.is_nan. rewrite FloatAxioms.eqb_spec.
  unfold SFeqb, SFcompare.
  destruct (Prim2SF x) as [s|[|]| |[|] m e]; cbn [sf_key negb];
    try (split; [eauto | done]);
    try (split; [done | intros [k Hk]; done]).
  - rewrite Z.compare_refl.
    change (PosDef.Pos.compare_cont Eq m m) with (Pos.compare m m).
    rewrite Pos.compare_refl. cbn. split; [eauto | done].
  - rewrite Z.compare_refl.
    change (PosDef.Pos.compare_cont Eq m m) with (Pos.compare m m).
    rewrite Pos.compare_refl. cbn. split; [eauto | done].
Qed.

Lemma lex3_lt_irrefl k : ~ lex3_lt k k.
Proof. destruct k as [[a b] c]. unfold lex3_lt. lia. Qed.

Lemma lex3_lt_trans k1 k2 k3 : lex3_lt k1 k2 -> lex3_lt k2 k3 -> lex3_lt k1 k3.
Proof.
  destruct k1 as [[a1 b1] c1], k2 as [[a2 b2] c2], k3 as [[a3 b3] c3].
  unfold lex3_lt. lia.
Qed.

Lemma lex3_lt_total k1 k2 k3 : lex3_lt k1 k3 -> lex3_lt k1 k2 \/ lex3_lt k2 k3.
Proof.
  destruct k1 as [[a1 b1] c1], k2 as [[a2 b2] c2], k3 as [[a3 b3] c3].
  unfold lex3_lt. lia.
Qed.

(** [<] on floats is irreflexive and transitive, and being incomparable
    through a number (not a NaN) is transitive. *)
Lemma float_lt_irrefl (x : float) : (x <? x)%float = false.
Proof.
  rewrite FloatAxioms.ltb_spec. destruct (SFltb _ _) eqn:E; [|done].
  destruct (SFltb_true_keys _ _ E) as (k & k' & Hk & Hk').
  apply (SFltb_lex _ _ _ _ Hk Hk) in E. by apply lex3_lt_irrefl in E.
Qed.

Lemma float_lt_trans (x y z : float) :
  (x <? y)%float = true -> (y <? z)%float = true -> (x <? z)%float = true.
Proof.
  rewrite !FloatAxioms.ltb_spec. intros Hxy Hyz.
  destruct (SFltb_true_keys _ _ Hxy) as (kx & ky & Hkx & Hky).
  destruct (SFltb_true_keys _ _ Hyz) as (ky' & kz & Hky' & Hkz).
  rewrite Hky in Hky'. injection Hky' as <-.
  apply (SFltb_lex _ _ _ _ Hkx Hky) in Hxy.
  apply (SFltb_lex _ _ _ _ Hky Hkz) in Hyz.
  apply (SFltb_lex _ _ _ _ Hkx Hkz). by eapply lex3_lt_trans.
Qed.

Lemma float_lt_incomparable_trans (x y z : float) :
  not_nan y ->
  (x <? y)%float = false -> (y <? z)%float = false -> (x <? z)%float = false.
Proof.
  intros Hy Hxy Hyz. apply not_nan_key in Hy as [ky Hky].
  destruct (x <? z)%float eqn:Hxz; [|done].
  rewrite FloatAxioms.ltb_spec in Hxy, Hyz, Hxz.
  destruct (SFltb_true_keys _ _ Hxz) as (kx & kz & Hkx & Hkz).
  apply (SFltb_lex _ _ _ _ Hkx Hkz) in Hxz.
  destruct (lex3_lt_total kx ky kz Hxz) as [H|H].
  - apply (SFltb_lex _ _ _ _ Hkx Hky) in H. congruence.
  - apply (SFltb_lex _ _ _ _ Hky Hkz) in H. congruence.
Qed.

(** A float that is smaller or greater than another is a number. *)
Lemma float_lt_not_nan (x y : float) :
  (x <? y)%float = true -> not_nan x /\ not_nan y.
Proof.
  rewrite FloatAxioms.ltb_spec. intros H.
  destruct (SFltb_true_keys _ _ H) as (kx & ky & Hkx & Hky).
  split; apply not_nan_key; eauto.
Qed.

(** *** Sorting by a float key *)

Section SortedBy.
Context {A : Type} (key : A -> float).

Let ok (a : A) : Prop := not_nan (key a).

Lemma sorted_by_stable (l : list A) :
  Forall (fun a => not_nan (key a)) l ->
  stable_sort_of (key_lt key) l (sorted_by key l).
Proof using Type.
  intros Hok. unfold sorted_by. apply (sorted_with_stable (key_lt key) ok).
  - intros x. apply float_lt_irrefl.
  - intros x y z. apply float_lt_trans.
  - intros x y z. apply float_lt_incomparable_trans.
  - done.
Qed.

Lemma sorted_by_unique (l l' : list A) :
  Forall (fun a => not_nan (key a)) l ->
  stable_sort_of (key_lt key) l l' -> l' = sorted_by key l.
Proof using Type.
  intros Hok Hl'.
  apply (stable_sort_unique (key_lt key) ok) with (l := l); try done.
  - intros x. apply float_lt_irrefl.
  - intros x y z. apply float_lt_trans.
  - intros x y z. apply float_lt_incomparable_trans.
  - by apply sorted_by_stable.
Qed.

Lemma sorted_by_head (l : list A) (m : A) :
  Forall (fun a => not_nan (key a)) l ->
  index (sorted_by key l) 0 = Ok m ->
  m ∈ l /\ forall x, x ∈ l -> (key x <? key m)%float = false.
Proof using Type.
  intros Hok. apply (sorted_with_head (key_lt key) ok); try done.
  - intros x. apply float_lt_irrefl.
  - intros x y z. apply float_lt_trans.
  - intros x y z. apply float_lt_incomparable_trans.
Qed.

Lemma sorted_by_perm (l : list A) : Permutation l (sorted_by key l).
Proof using Type. apply sorted_with_perm. Qed.
End SortedBy.

(** ** Ranking engine *)

Lemma bind_ok_inv {A B} (m : res A) (f : A -> res B) (b : B) :
  m ≫= f = Ok b -> exists a, m = Ok a /\ f a = Ok b.
Proof. destruct m as [a|e]; [|done]. intros H. by exists a. Qed.

Lemma rank_days_snoc days : forall acc d,
  rank_days acc (days ++ [d]) = (r ← rank_days acc days; rank_day r d).
Proof.
  induction days as [|d' days IH]; intros acc d;
    cbn [app rank_days mbind res_bind].
  - by destruct (rank_day acc d).
  - destruct (rank_day acc d') as [acc'|e]; [|done].
    cbn [mbind res_bind]. apply IH.
Qed.

Lemma all_records_snoc days d :
  all_records (days ++ [d]) = all_records days ++ map (pair (date d)) (flights d).
Proof.
  unfold all_records. rewrite flat_map_app. cbn [flat_map].
  by rewrite app_nil_r.
Qed.

Lemma elem_of_all_records days r :
  r ∈ all_records days <->
  exists d, d ∈ days /\ r.1 = date d /\ r.2 ∈ flights d.
Proof.
  unfold all_records. rewrite list_elem_of_In, in_flat_map. split.
  - intros (d & Hd & Hr). exists d. apply list_elem_of_In in Hd.
    apply in_map_iff in Hr as (f & <- & Hf). by apply list_elem_of_In in Hf.
  - intros (d & Hd & H1 & H2). exists d. split; [by apply list_elem_of_In|].
    apply in_map_iff. exists r.2. split; [|by apply list_elem_of_In].
    destruct r. cbn in *. by subst.
Qed.

(** What [normalize] keeps of a record. *)
Lemma normalize_inv f nf :
  normalize f = Ok nf ->
  nf_flight nf = f /\ price_val nf = price f /\
  layover_val nf = layover_hours f /\
  parse_duration_to_minutes (duration f) = Ok (duration_val nf).
Proof.
  unfold normalize. intros H.
  apply bind_ok_inv in H as (minutes & Hm & H). injection H as <-. by cbn.
Qed.

Lemma scored_of_entry d f nf e :
  normalize f = Ok nf -> scored_of d nf = Ok e -> scored_entry (d, f) e.
Proof.
  intros Hn He. apply normalize_inv in Hn as (Hf & Hp & Hl & Hd).
  unfold scored_of in He. apply bind_ok_inv in He as (score & Hs & He).
  injection He as <-. unfold scored_entry.
  cbn [fst snd sc_date sc_score sc_price sc_airline sc_duration
       sc_layover_city sc_layover_hours].
  unfold score_of in Hs. apply bind_ok_inv in Hs as (m & Hm & Hs).
  injection Hs as <-. unfold record_score. rewrite Hd.
  cbn [mbind res_bind]. rewrite Hm.
  cbn [mbind res_bind]. by rewrite Hf, Hp, Hl.
Qed.

(** The parts of one iteration over a day that has records. *)
Lemma rank_day_inv acc d acc' :
  flights d <> [] ->
  rank_day acc d = Ok acc' ->
  exists nfs cf new,
    mapM normalize (flights d) = Ok nfs /\
    index (sorted_by price_val nfs) 0 = Ok cf /\
    mapM (scored_of (date d)) nfs = Ok new /\
    rk_cheapest acc' =
      match rk_cheapest acc with
      | None => Some (best_day_of (date d) cf)
      | Some c =>
          if (price_val cf <? bd_price c)%float
          then Some (best_day_of (date d) cf) else Some c
      end /\
    rk_scored_flights acc' = rk_scored_flights acc ++ new.
Proof.
  intros Hne H. unfold rank_day in H. destruct (flights d) as [|f fs]; [done|].
  apply bind_ok_inv in H as (nfs & Hnfs & H).
  apply bind_ok_inv in H as (cf & Hcf & H).
  apply bind_ok_inv in H as (df & Hdf & H).
  apply bind_ok_inv in H as (lf & Hlf & H).
  apply bind_ok_inv in H as (new & Hnew & H).
  injection H as <-. by exists nfs, cf, new.
Qed.

Lemma rank_day_empty acc d : flights d = [] -> rank_day acc d = Ok acc.
Proof. unfold rank_day. by intros ->. Qed.

(** The entries one day adds to [scored_flights]. *)
Lemma rank_day_scored acc d acc' :
  rank_day acc d = Ok acc' ->
  exists new,
    Forall2 scored_entry (map (pair (date d)) (flights d)) new /\
    rk_scored_flights acc' = rk_scored_flights acc ++ new.
Proof.
  intros H. destruct (flights d) as [|f fs] eqn:Hfl.
  - rewrite rank_day_empty in H by done. injection H as <-.
    exists []. split; [constructor | by rewrite app_nil_r].
  - apply rank_day_inv in H as (nfs & cf & new & Hn & _ & Hs & _ & Hsc);
      [|by rewrite Hfl].
    exists new. split; [|done]. rewrite <- Hfl.
    apply mapM_res_inv in Hn, Hs. clear Hfl Hsc.
    revert new Hs. induction Hn as [|f' nf fs' nfs' Hf _ IH]; intros new Hs.
    + inversion Hs. constructor.
    + inversion Hs as [|? e ? new' He Hs']; subst. cbn [map].
      constructor; [by eapply scored_of_entry | by apply IH].
Qed.

Lemma rank_days_scored days : forall acc r,
  rank_days acc days = Ok r ->
  exists new,
    Forall2 scored_entry (all_records days) new /\
    rk_scored_flights r = rk_scored_flights acc ++ new.
Proof.
  induction days as [|d days IH]; intros acc r H.
  - injection H as <-. exists []. split; [constructor | by rewrite app_nil_r].
  - cbn [rank_days] in H. apply bind_ok_inv in H as (acc' & Hd & H).
    apply rank_day_scored in Hd as (new1 & Hnew1 & Hacc').
    apply IH in H as (new2 & Hnew2 & Hr).
    exists (new1 ++ new2). split.
    + change (all_records (d :: days))
        with (map (pair (date d)) (flights d) ++ all_records days).
      by apply Forall2_app.
    + by rewrite Hr, Hacc', app_assoc.
Qed.

(** *** The engine returns on readable durations *)

Lemma mapM_res_total {A B} (f : A -> res B) (l : list A) :
  Forall (fun x => is_ok (f x) = true) l ->
  exists ys, mapM f l = Ok ys /\ length ys = length l.
Proof.
  induction 1 as [|x l Hx _ (ys & Hys & Hlen)]; [by exists []|].
  destruct (f x) as [y|e] eqn:Hfx; [|done].
  exists (y :: ys). cbn [mapM]. rewrite Hfx. cbn [mbind res_bind].
  fold (mapM f l). rewrite Hys. split; [done | cbn; lia].
Qed.

Lemma record_score_ok_inv f :
  is_ok (record_score f) = true ->
  exists minutes m,
    parse_duration_to_minutes (duration f) = Ok minutes /\
    float_of_int minutes = Ok m.
Proof.
  unfold record_score.
  destruct (parse_duration_to_minutes (duration f)) as [minutes|]; [|done].
  cbn [mbind res_bind].
  destruct (float_of_int minutes) as [m|] eqn:Hm; [|done].
  intros _. by exists minutes, m.
Qed.

Lemma index_0_nonempty {A} (l : list A) :
  l <> [] -> exists x, index l 0 = Ok x.
Proof. destruct l as [|x l]; [done|]. by exists x. Qed.

Lemma sorted_with_nonempty {A} (lt : A -> A -> bool) (l : list A) :
  l <> [] -> sorted_with lt l <> [].
Proof.
  intros Hne Hs. pose proof (sorted_with_perm lt l) as Hp.
  rewrite Hs in Hp. by apply Permutation_nil_r in Hp.
Qed.

Lemma rank_day_total acc d :
  Forall (fun f => is_ok (record_score f) = true) (flights d) ->
  exists acc', rank_day acc d = Ok acc'.
Proof.
  intros Hall. unfold rank_day. destruct (flights d) as [|f fs] eqn:Hfl;
    [by exists acc|]. rewrite <- Hfl in *.
  assert (Hne : flights d <> []) by (by rewrite Hfl).
  destruct (mapM_res_total normalize (flights d)) as (nfs & Hnfs & Hlen).
  { eapply Forall_impl; [exact Hall|]. intros f' Hf'. cbn in Hf'.
    apply record_score_ok_inv in Hf' as (minutes & m & Hp & _).
    unfold normalize. by rewrite Hp. }
  assert (Hnfs_ne : nfs <> []).
  { intros ->. destruct (flights d); done. }
  rewrite Hnfs. cbn [mbind res_bind].
  destruct (index_0_nonempty (sorted_by price_val nfs)) as (cf & ->);
    [by apply sorted_with_nonempty|]. cbn [mbind res_bind].
  destruct (index_0_nonempty (sorted_by_int duration_val nfs)) as (df & ->);
    [by apply sorted_with_nonempty|]. cbn [mbind res_bind].
  destruct (index_0_nonempty (sorted_by layover_val nfs)) as (lf & ->);
    [by apply sorted_with_nonempty|]. cbn [mbind res_bind].
  destruct (mapM_res_total (scored_of (date d)) nfs) as (new & -> & _).
  { apply mapM_res_inv in Hnfs. clear -Hnfs Hall.
    induction Hnfs as [|f' nf fs' nfs' Hf _ IH]; [constructor|].
    inversion Hall as [|? ? Hok Hall']; subst.
    constructor; [|by apply IH].
    apply record_score_ok_inv in Hok as (minutes & m & Hp & Hm).
    apply normalize_inv in Hf as (_ & _ & _ & Hd).
    rewrite Hp in Hd. injection Hd as Hd. unfold scored_of, score_of.
    rewrite <- Hd, Hm. done. }
  cbn [mbind res_bind]. by eexists.
Qed.

Lemma Forall_all_records_cons (P : str * flight -> Prop) d days :
  Forall P (all_records (d :: days)) <->
  Forall (fun f => P (date d, f)) (flights d) /\ Forall P (all_records days).
Proof.
  change (all_records (d :: days))
    with (map (pair (date d)) (flights d) ++ all_records days).
  rewrite Forall_app. change (map (pair (date d)) (flights d))
    with (pair (date d) <$> flights d). by rewrite Forall_fmap.
Qed.

Lemma rank_days_total days : forall acc,
  Forall (fun r => is_ok (record_score r.2) = true) (all_records days) ->
  exists r, rank_days acc days = Ok r.
Proof.
  induction days as [|d days IH]; intros acc Hall; [by exists acc|].
  apply Forall_all_records_cons in Hall as [Hd Hdays].
  cbn [rank_days]. destruct (rank_day_total acc d Hd) as (acc' & ->).
  cbn [mbind res_bind]. by apply IH.
Qed.

(** C1.  When the score of every record can be computed and is a number,
    [compute_best_day] returns, and its top-3 list is the first three
    entries of the stable ascending sort by score of the scored records of
    all days, taken in encounter order, each scored by
    [price/1000 + duration_minutes/1000 + layover_hours/10].  For scores
    [0.5; 0.5; 0.3] of the flights A, B, C the order is C, A, B. *)
Theorem top3_overall_stable_prefix :
  (forall days,
     Forall scorable (all_records days) ->
     exists s entries ranked,
       compute_best_day days = Ok s /\
       Forall2 scored_entry (all_records days) entries /\
       stable_sort_of (key_lt sc_score) entries ranked /\
       top3_overall s = take 3 ranked) /\
  (exists s,
     compute_best_day tie_days = Ok s /\
     map sc_airline (top3_overall s) = [lit "C"; lit "A"; lit "B"] /\
     map sc_score (top3_overall s) = [(300 / 1000)%float; 0.5%float; 0.5%float]).
Proof.
  split.
  - intros days Hall.
    destruct (rank_days_total days empty_ranking) as (r & Hr).
    { eapply Forall_impl; [exact Hall|]. intros rec (score & Hs & _).
      cbn beta. by rewrite Hs. }
    destruct (rank_days_scored days _ _ Hr) as (entries & Hent & Hsc).
    cbn [empty_ranking rk_scored_flights app] in Hsc.
    unfold compute_best_day. rewrite Hr. cbn [mbind res_bind].
    eexists _, entries, (sorted_by sc_score entries).
    split; [done|]. split; [done|]. split; [|by rewrite Hsc].
    apply sorted_by_stable.
    clear -Hall Hent. induction Hent as [|rec e recs es He _ IH];
      [constructor|].
    inversion Hall as [|? ? (score & Hs & Hnn) Hall']; subst.
    constructor; [|by apply IH].
    destruct He as (He & _). rewrite Hs in He. by injection He as <-.
  - eexists. split; [by vm_compute|]. split; by vm_compute.
Qed.

Lemma scorable_dec r score :
  record_score r.2 = Ok score -> PrimFloat.is_nan score = false -> scorable r.
Proof. intros H1 H2. by exists score. Qed.

Lemma top3_overall_stable_prefix_witness :
  exists s entries ranked,
    compute_best_day tie_days = Ok s /\
    Forall2 scored_entry (all_records tie_days) entries /\
    stable_sort_of (key_lt sc_score) entries ranked /\
    top3_overall s = take 3 ranked.
Proof.
  apply (proj1 top3_overall_stable_prefix tie_days).
  each_elem ltac:(eapply scorable_dec; [vm_compute; reflexivity | vm_compute; reflexivity]).
Defined.

(** C1 (as stated) fails where a score is a NaN.  The total ["nan"] is
    read as a NaN price, so the flights A, N, B of one day get the scores
    [0.5; NaN; 0.3].  No element of this list is smaller than the one
    before it, so [sorted] leaves it as it is: the top-3 list is A, N, B,
    with B behind A although the score of B is the smaller one.  It is the
    first three entries of no ascending arrangement of the scored
    records. *)
Lemma top3_overall_nan_counterexample :
  py_float (JStr (lit "nan")) = Ok nan /\
  exists s a b,
    compute_best_day nan_score_days = Ok s /\
    map sc_airline (top3_overall s) = [lit "A"; lit "N"; lit "B"] /\
    is_run (key_lt sc_score) (top3_overall s) = true /\
    top3_overall s !! 0%nat = Some a /\
    top3_overall s !! 2%nat = Some b /\
    (sc_score b <? sc_score a)%float = true /\
    ~ (exists entries ranked,
         Forall2 scored_entry (all_records nan_score_days) entries /\
         stable_sort_of (key_lt sc_score) entries ranked /\
         top3_overall s = take 3 ranked).
Proof.
  split; [by vm_compute|].
  eexists _, _, _. split; [vm_compute; reflexivity|].
  cbn [top3_overall]. split; [by vm_compute|]. split; [by vm_compute|].
  split; [reflexivity|]. split; [reflexivity|]. split; [by vm_compute|].
  intros (entries & ranked & Hent & (Hperm & Hasc & _) & Htop).
  apply Forall2_length in Hent. apply Permutation_length in Hperm.
  rewrite take_ge in Htop
    by (rewrite <- Hperm, <- Hent; vm_compute; lia).
  subst ranked. unfold ascending in Hasc.
  apply StronglySorted_inv in Hasc as [_ Hhead].
  apply Forall_cons in Hhead as [_ Hhead].
  apply Forall_cons in Hhead as [Hlt _].
  by vm_compute in Hlt.
Qed.


(** *** The cheapest day *)

Lemma normalize_all_inv fs nfs :
  mapM normalize fs = Ok nfs ->
  (forall nf, nf ∈ nfs ->
     nf_flight nf ∈ fs /\ price_val nf = price (nf_flight nf) /\
     layover_val nf = layover_hours (nf_flight nf)) /\
  (forall f, f ∈ fs -> exists nf, nf ∈ nfs /\ nf_flight nf = f /\
                                  price_val nf = price f).
Proof.
  intros H. apply mapM_res_inv in H.
  induction H as [|f nf fs nfs Hf _ [IH1 IH2]].
  - split; intros x Hx; by apply elem_of_nil in Hx.
  - apply normalize_inv in Hf as (Hfl & Hp & Hl & _). split.
    + intros x Hx. apply elem_of_cons in Hx as [->|Hx].
      * rewrite Hfl. split; [apply elem_of_cons; by left | done].
      * destruct (IH1 x Hx) as [H1 H2]. split; [|done].
        apply elem_of_cons. by right.
    + intros x Hx. apply elem_of_cons in Hx as [->|Hx].
      * exists nf. split; [apply elem_of_cons; by left | done].
      * destruct (IH2 x Hx) as (nf' & H1 & H2). exists nf'.
        split; [apply elem_of_cons; by right | done].
Qed.

Lemma first_cheapest_skip days c d :
  flights d = [] -> first_cheapest days c -> first_cheapest (days ++ [d]) c.
Proof.
  intros Hd (before & d0 & after & f & -> & Hf & H1 & H2 & H3 & H4 & H5 & Hb & Ha).
  exists before, d0, (after ++ [d]), f.
  split; [by rewrite <- app_assoc|]. repeat (split; [done|]).
  intros d' f' Hd' Hf'. rewrite app_comm_cons in Hd'.
  apply elem_of_app in Hd' as [Hd'|Hd']; [by eapply Ha|].
  apply list_elem_of_singleton in Hd' as ->. rewrite Hd in Hf'.
  by apply elem_of_nil in Hf'.
Qed.

(** One day keeps the description of the cheapest entry. *)
Lemma rank_day_cheapest days acc d acc' :
  Forall (fun r => not_nan (price r.2)) (all_records (days ++ [d])) ->
  cheapest_spec days (rk_cheapest acc) ->
  rank_day acc d = Ok acc' ->
  cheapest_spec (days ++ [d]) (rk_cheapest acc').
Proof.
  intros Hnn Hspec Hstep.
  assert (Hnum : forall d' f', d' ∈ days ++ [d] -> f' ∈ flights d' ->
                               not_nan (price f')).
  { intros d' f' Hd' Hf'.
    apply (proj1 (Forall_forall _ _) Hnn (date d', f')).
    apply elem_of_all_records. by exists d'. }
  destruct (flights d) as [|f0 fs0] eqn:Hfl.
  - rewrite rank_day_empty in Hstep by done. injection Hstep as <-.
    destruct (rk_cheapest acc) as [c|]; cbn [cheapest_spec] in *.
    + by apply first_cheapest_skip.
    + rewrite all_records_snoc, Hspec, Hfl. done.
  - apply rank_day_inv in Hstep
      as (nfs & cf & new & Hn & Hcf & _ & Hch & _); [|by rewrite Hfl].
    clear Hfl f0 fs0.
    destruct (normalize_all_inv _ _ Hn) as [Hnf1 Hnf2].
    assert (Hd_in : d ∈ days ++ [d])
      by (apply elem_of_app; right; by apply list_elem_of_singleton).
    apply sorted_by_head in Hcf as [Hcf_in Hcf_min].
    2:{ apply Forall_forall. intros nf Hnf.
        destruct (Hnf1 nf Hnf) as (Hin & -> & _). by eapply Hnum. }
    destruct (Hnf1 cf Hcf_in) as (Hcf_fl & Hcf_p & Hcf_l).
    assert (Hcf_num : not_nan (price_val cf))
      by (rewrite Hcf_p; by eapply Hnum).
    assert (Hmin : forall d' f', d' ∈ [d] -> f' ∈ flights d' ->
                                 (price f' <? price_val cf)%float = false).
    { intros d' f' Hd' Hf'. apply list_elem_of_singleton in Hd' as ->.
      destruct (Hnf2 f' Hf') as (nf & Hnf & _ & Hp).
      rewrite <- Hp. by apply Hcf_min. }
    rewrite Hch.
    destruct (rk_cheapest acc) as [c|] eqn:Hc; cbn [cheapest_spec] in Hspec.
    + destruct Hspec as (before & d0 & after & f & -> & Hf & Hdate & Hpf
                         & Hr1 & Hr2 & Hr3 & Hb & Ha).
      destruct (price_val cf <? bd_price c)%float eqn:Hlt;
        cbn [cheapest_spec].
      * exists (before ++ d0 :: after), d, [], (nf_flight cf).
        cbn [best_day_of bd_date bd_price bd_airline bd_layover_city
             bd_layover_hours].
        split; [done|]. split; [done|]. do 5 (split; [done|]).
        split; [|done].
        intros d' f' Hd' Hf'.
        assert (Hnf' : not_nan (price f')).
        { apply (Hnum d' f'); [|done]. apply elem_of_app. by left. }
        apply elem_of_app in Hd' as [Hd'|Hd'].
        -- eapply float_lt_trans; [exact Hlt|]. by eapply Hb.
        -- destruct (price_val cf <? price f')%float eqn:E; [done|].
           rewrite <- Hlt. symmetry.
           apply (float_lt_incomparable_trans _ (price f') _);
             [done | done | by eapply Ha].
      * exists before, d0, (after ++ [d]), f.
        split; [by rewrite <- app_assoc|]. repeat (split; [done|]).
        intros d' f' Hd' Hf'. rewrite app_comm_cons in Hd'.
        apply elem_of_app in Hd' as [Hd'|Hd']; [by eapply Ha|].
        apply (float_lt_incomparable_trans _ (price_val cf) _);
          [done | by eapply Hmin | done].
    + cbn [cheapest_spec].
      exists days, d, [], (nf_flight cf).
      cbn [best_day_of bd_date bd_price bd_airline bd_layover_city
           bd_layover_hours].
      split; [done|]. split; [done|]. do 5 (split; [done|]).
      split; [|done].
      intros d' f' Hd' Hf'.
      assert (Hrec : (date d', f') ∈ all_records days)
        by (apply elem_of_all_records; by exists d').
      rewrite Hspec in Hrec. by apply elem_of_nil in Hrec.
Qed.

Lemma rank_days_cheapest days : forall r,
  Forall (fun rec => not_nan (price rec.2)) (all_records days) ->
  rank_days empty_ranking days = Ok r ->
  cheapest_spec days (rk_cheapest r).
Proof.
  induction days as [|d days IH] using rev_ind; intros r Hnn Hr.
  - injection Hr as <-. done.
  - rewrite rank_days_snoc in Hr. apply bind_ok_inv in Hr as (r0 & Hr0 & Hd).
    apply (rank_day_cheapest days r0 d r); [done| |done].
    apply IH; [|done]. rewrite all_records_snoc in Hnn.
    by apply Forall_app in Hnn as [Hnn _].
Qed.

(** C2.  When every record can be scored and every price is a number,
    [compute_best_day] returns and its cheapest entry describes a record of
    the first day that holds the minimum price over all records of all
    days: replacement happens under strict less-than only, so every record
    of an earlier day is strictly dearer and no record from that day on is
    cheaper.  There is no entry exactly when no day has a record.  For the
    days priced [100; 50; 200], [300], [10] the entry is the third day's. *)
Theorem cheapest_first_global_minimum :
  (forall days,
     Forall priced (all_records days) ->
     exists s,
       compute_best_day days = Ok s /\ cheapest_spec days (cheapest s)) /\
  (exists s,
     compute_best_day price_days = Ok s /\
     bd_date <$> cheapest s = Some (lit "2026-03-22") /\
     bd_price <$> cheapest s = Some 10%float).
Proof.
  split.
  - intros days Hall.
    destruct (rank_days_total days empty_ranking) as (r & Hr).
    { eapply Forall_impl; [exact Hall|]. by intros rec [Hok _]. }
    unfold compute_best_day. rewrite Hr. cbn [mbind res_bind].
    eexists. split; [done|]. cbn [cheapest].
    apply rank_days_cheapest; [|done].
    eapply Forall_impl; [exact Hall|]. by intros rec [_ Hnn].
  - eexists. split; [by vm_compute|]. split; by vm_compute.
Qed.

Lemma cheapest_first_global_minimum_witness :
  exists s,
    compute_best_day price_days = Ok s /\
    cheapest_spec price_days (cheapest s).
Proof.
  apply (proj1 cheapest_first_global_minimum price_days).
  each_elem ltac:(split; vm_compute; reflexivity).
Defined.

(** C2 (as stated) fails where a price is a NaN.  The prices [5; NaN; 3]
    of the first day form a list in which no element is smaller than the
    one before it, so [sorted] leaves it as it is and the day is taken to
    cost 5; the second day, at 4, replaces it.  The cheapest entry is the
    second day's at 4, although the first day holds the price 3. *)
Lemma cheapest_nan_counterexample :
  is_run (key_lt price) [sample_flight "A" 5; sample_flight "N" nan;
                         sample_flight "B" 3] = true /\
  exists s c,
    compute_best_day nan_price_days = Ok s /\
    cheapest s = Some c /\
    bd_date c = lit "2026-03-21" /\
    bd_price c = 4%float /\
    (exists d f,
       d ∈ nan_price_days /\ f ∈ flights d /\
       date d = lit "2026-03-20" /\
       (price f <? bd_price c)%float = true) /\
    ~ cheapest_spec nan_price_days (cheapest s).
Proof.
  split; [by vm_compute|].
  eexists _, _. split; [vm_compute; reflexivity|].
  cbn [cheapest]. split; [reflexivity|].
  split; [by vm_compute|]. split; [by vm_compute|]. split.
  { eexists _, (sample_flight "B" 3). split; [apply elem_of_cons; by left|].
    split; [|split; [reflexivity | by vm_compute]].
    cbn [flights]. apply elem_of_cons. right. apply elem_of_cons. right.
    apply elem_of_cons. by left. }
  cbn [cheapest_spec].
  intros (before & d & after & f & Hdays & _ & _ & _ & _ & _ & _ & Hbefore
          & Hafter).
  cbn [bd_price] in Hbefore, Hafter.
  destruct before as [|d1 before].
  - injection Hdays as <- <-.
    specialize (Hafter _ (sample_flight "B" 3)
                  ltac:(apply elem_of_cons; by left)
                  ltac:(cbn [flights]; apply elem_of_cons; right;
                        apply elem_of_cons; right; apply elem_of_cons;
                        by left)).
    by vm_compute in Hafter.
  - injection Hdays as <- Hrest.
    specialize (Hbefore _ (sample_flight "B" 3)
                  ltac:(apply elem_of_cons; by left)
                  ltac:(cbn [flights]; apply elem_of_cons; right;
                        apply elem_of_cons; right; apply elem_of_cons;
                        by left)).
    by vm_compute in Hbefore.
Qed.


(** ** Price history *)

Lemma drop_message_nonempty date prev cur : drop_message date prev cur <> [].
Proof. done. Qed.

(** C3.  When the history file can be written, [detect_price_drop] stores
    [current_price] for the date, replacing what was stored and leaving the
    other dates alone, and returns a non-empty message exactly when a price
    was stored before and [current_price] is strictly less than it; on a
    first observation, a rise or an equal price it returns nothing. *)
Theorem detect_price_drop_spec (date : str) (current_price : float) (s : disk) :
  fault s = NoFault ->
  exists result s',
    detect_price_drop date current_price s = (Ok result, s') /\
    file s' = FileHistory (<[date := current_price]> (_load_price_history s)) /\
    stored_price s' date = Some current_price /\
    (forall other, other <> date -> stored_price s' other = stored_price s other) /\
    match stored_price s date with
    | Some prev =>
        if (current_price <? prev)%float
        then exists message, result = Some message /\ message <> []
        else result = None
    | None => result = None
    end.
Proof.
  intros Hfault. unfold detect_price_drop, _save_price_history, stored_price.
  rewrite Hfault.
  set (s' := {| file := FileHistory (<[date:=current_price]> (_load_price_history s));
                fault := NoFault |}).
  assert (Hs' : _load_price_history s'
                = <[date:=current_price]> (_load_price_history s)) by done.
  destruct (_load_price_history s !! date) as [prev|] eqn:Hprev.
  - destruct (current_price <? prev)%float eqn:Hlt.
    + eexists _, s'. split; [done|]. split; [done|].
      rewrite Hs'. split; [apply lookup_insert_eq|].
      split; [intros other Hne; by apply lookup_insert_ne|].
      eexists. split; [done|]. apply drop_message_nonempty.
    + exists None, s'. split; [done|]. split; [done|].
      rewrite Hs'. split; [apply lookup_insert_eq|].
      split; [intros other Hne; by apply lookup_insert_ne | done].
  - exists None, s'. split; [done|]. split; [done|].
    rewrite Hs'. split; [apply lookup_insert_eq|].
    split; [intros other Hne; by apply lookup_insert_ne | done].
Qed.

Lemma detect_price_drop_spec_witness :
  exists result s',
    detect_price_drop sample_date 450%float sample_disk = (Ok result, s') /\
    file s' = FileHistory (<[sample_date := 450%float]>
                             (_load_price_history sample_disk)) /\
    stored_price s' sample_date = Some 450%float /\
    (forall other, other <> sample_date ->
                   stored_price s' other = stored_price sample_disk other) /\
    match stored_price sample_disk sample_date with
    | Some prev =>
        if (450 <? prev)%float
        then exists message, result = Some message /\ message <> []
        else result = None
    | None => result = None
    end.
Proof. apply (detect_price_drop_spec sample_date 450%float sample_disk). reflexivity. Defined.

(** Two observations of one date on a writable disk: the first returns
    nothing when no price was stored, the second a message exactly when the
    price fell. *)
Lemma detect_price_drop_twice (date : str) (p1 p2 : float) (s : disk) :
  fault s = NoFault -> stored_price s date = None ->
  exists s1 r2 s2,
    detect_price_drop date p1 s = (Ok None, s1) /\
    detect_price_drop date p2 s1 = (Ok r2, s2) /\
    (if (p2 <? p1)%float then exists m, r2 = Some m /\ m <> [] else r2 = None).
Proof.
  unfold stored_price. intros Hfault Hnone.
  set (s1 := {| file := FileHistory (<[date:=p1]> (_load_price_history s));
                fault := NoFault |}).
  assert (H1 : detect_price_drop date p1 s = (Ok None, s1)).
  { unfold detect_price_drop, _save_price_history.
    by rewrite Hfault, Hnone. }
  assert (Hprev : _load_price_history s1 !! date = Some p1)
    by apply lookup_insert_eq.
  exists s1. unfold detect_price_drop at 2, _save_price_history.
  rewrite Hprev. cbn [fault s1].
  destruct (p2 <? p1)%float; eexists _, _; (split; [exact H1|]);
    (split; [reflexivity|]); [|done].
  eexists. split; [done|]. apply drop_message_nonempty.
Qed.

(** C4 fails on the code: when the history file cannot be written, the
    [OSError] of [_save_price_history] leaves [detect_price_drop], although
    the stored price (500) is above the new one (450). *)
Theorem detect_price_drop_write_error_propagates :
  stored_price read_only_disk sample_date = Some 500%float /\
  (450 <? 500)%float = true /\
  detect_price_drop sample_date 450%float read_only_disk
  = (Raise OSError, read_only_disk).
Proof.
  split; [by vm_compute|]. split; [by vm_compute|].
  unfold detect_price_drop, _save_price_history. done.
Qed.

(** Whatever the date, the price and the stored history, a failing write
    makes [detect_price_drop] raise. *)
Lemma detect_price_drop_raises_on_fault date current_price s :
  fault s <> NoFault ->
  (detect_price_drop date current_price s).1 = Raise OSError.
Proof.
  intros Hfault. unfold detect_price_drop, _save_price_history.
  by destruct (fault s).
Qed.

(** ** Report assembler *)

(** *** Tables are always produced *)

Lemma make_table_ok headers (rows : list (list cell)) padding aligns :
  match aligns with
  | Some a => (length headers <= length a)%nat
  | None => True
  end ->
  Forall (fun row => (length row <= length headers)%nat) rows ->
  exists table,
    make_table headers rows (auto_column_widths headers rows padding) aligns
    = Ok table.
Proof.
  intros Hal Hrows.
  set (widths := auto_column_widths headers rows padding).
  assert (Hlw : length widths = length headers)
    by apply length_auto_column_widths.
  unfold make_table, make_table_lines.
  set (als := match aligns with
              | Some a => a
              | None => replicate (length headers) (lit "left")
              end).
  assert (Hla : (length headers <= length als)%nat).
  { unfold als. destruct aligns; [done|]. by rewrite length_replicate. }
  destruct (format_cells_ok widths als (map CStr headers) 0)
    as (cells & Hcells & _); [rewrite length_map; lia..|].
  assert (Hhead : format_row widths als (map CStr headers)
                  = Ok (lit "| " ++ join (lit " | ") cells ++ lit " |"))
    by (unfold format_row; by rewrite Hcells).
  rewrite Hhead. cbn [mbind res_bind].
  destruct (mapM_rows_ok widths als rows) as (ls & Hls).
  { eapply Forall_impl; [exact Hrows|]. cbn. intros; lia. }
  rewrite Hls. cbn [mbind res_bind]. by eexists.
Qed.

Lemma Forall_map_length {A} (f : A -> list cell) (n : nat) (l : list A) :
  (forall x, length (f x) = n) ->
  Forall (fun row => (length row <= n)%nat) (map f l).
Proof.
  intros Hf. apply Forall_forall. intros row Hrow.
  change (map f l) with (f <$> l) in Hrow.
  apply list_elem_of_fmap in Hrow as (x & -> & _). by rewrite Hf.
Qed.

Lemma build_best_day_summary_table_ok categories :
  exists table, build_best_day_summary_table categories = Ok table.
Proof.
  unfold build_best_day_summary_table.
  apply make_table_ok; [cbn; lia|]. by apply Forall_map_length.
Qed.

Lemma build_top3_overall_table_ok overall_days :
  exists table, build_top3_overall_table overall_days = Ok table.
Proof.
  unfold build_top3_overall_table.
  apply make_table_ok; [cbn; lia|]. by apply Forall_map_length.
Qed.

Lemma split_go_nonempty sep s : forall skip cur, split_go sep skip cur s <> [].
Proof.
  induction s as [|c s IH]; intros skip cur; cbn [split_go]; [done|].
  destruct skip; [|apply IH]. destruct (starts_with sep (c :: s)); [done|].
  apply IH.
Qed.

Lemma split_dash_sep s : split dash_sep s = Ok (split_go dash_sep 0 [] s).
Proof. done. Qed.

Lemma filter_excluded_ok options :
  exists filtered, filter_excluded options = Ok filtered.
Proof.
  induction options as [|opt rest (filtered & IH)]; [by exists []|].
  cbn [filter_excluded]. rewrite split_dash_sep. cbn [mbind res_bind].
  destruct (index_0_nonempty (split_go dash_sep 0 [] (fo_airline opt)))
    as (code & ->); [apply split_go_nonempty|].
  cbn [mbind res_bind]. rewrite IH. cbn [mbind res_bind]. by eexists.
Qed.

Lemma build_daily_flights_table_ok day_flights :
  exists text, build_daily_flights_table day_flights = Ok text.
Proof.
  unfold build_daily_flights_table.
  destruct (filter_excluded_ok (df_options day_flights)) as (filtered & ->).
  cbn [mbind res_bind].
  destruct (make_table_ok daily_headers (map daily_row (take 10 filtered))
              default_padding
              (Some [lit "right"; lit "left"; lit "right"; lit "left";
                     lit "right"; lit "left"; lit "right"; lit "left";
                     lit "left"])) as (table & ->);
    [cbn; lia | by apply Forall_map_length |].
  cbn [mbind res_bind]. by eexists.
Qed.

Lemma dict_get_ok {V} (d : list (str * V)) key :
  key ∈ map fst d -> exists v, dict_get d key = Ok v.
Proof.
  induction d as [|[k v] d IH]; intros Hin; [by apply elem_of_nil in Hin|].
  cbn [dict_get]. case_bool_decide; [by exists v|].
  apply IH. cbn [map fst] in Hin.
  apply elem_of_cons in Hin as [->|Hin]; done.
Qed.

Lemma build_daily_sections_ok daily_raw :
  exists text, build_daily_sections daily_raw = Ok text.
Proof.
  unfold build_daily_sections.
  destruct (mapM_res_total (daily_parts daily_raw)
              (sorted_with str_lt (map fst daily_raw))) as (parts & -> & _).
  - apply Forall_forall. intros date Hdate.
    rewrite <- (sorted_with_perm str_lt (map fst daily_raw)) in Hdate.
    unfold daily_parts.
    destruct (dict_get_ok daily_raw date Hdate) as (v & ->).
    cbn [mbind res_bind].
    destruct (build_daily_flights_table_ok (parse_day_flights date v))
      as (table & ->). done.
  - cbn [mbind res_bind]. by eexists.
Qed.

Lemma build_best_day_section_ok best_days_raw :
  exists text, build_best_day_section best_days_raw = Ok text.
Proof.
  unfold build_best_day_section.
  destruct (_ ++ _ ++ _) as [|c cs]; [by eexists|].
  destruct (build_best_day_summary_table_ok (c :: cs)) as (table & ->).
  by eexists.
Qed.

Lemma build_top3_overall_section_ok overall_raw :
  exists text, build_top3_overall_section overall_raw = Ok text.
Proof.
  unfold build_top3_overall_section.
  destruct (parse_best_overall_days overall_raw) as [|d ds]; [by eexists|].
  destruct (build_top3_overall_table_ok (d :: ds)) as (table & ->).
  by eexists.
Qed.

Lemma etihad_section_ok daily_raw :
  exists text, etihad_section daily_raw = Ok text.
Proof.
  unfold etihad_section. destruct (etihad_rows daily_raw) as [|r rs];
    [by eexists|].
  destruct (make_table_ok etihad_headers (map etihad_cells (r :: rs))
              default_padding (Some etihad_aligns)) as (table & Htable);
    [cbn; lia | by apply Forall_map_length |].
  unfold etihad_aligns in Htable. rewrite Htable. by eexists.
Qed.

(** The report is always produced, and it is its four sections joined with
    an empty line between them. *)
Lemma build_full_report_sections best_days_raw overall_raw daily_raw :
  exists best overall carrier daily,
    build_best_day_section best_days_raw = Ok best /\
    build_top3_overall_section overall_raw = Ok overall /\
    etihad_section daily_raw = Ok carrier /\
    build_daily_sections daily_raw = Ok daily /\
    build_full_report best_days_raw overall_raw daily_raw
    = Ok (join [chr_newline] [best; []; overall; []; carrier; []; daily]).
Proof.
  destruct (build_best_day_section_ok best_days_raw) as (best & Hb).
  destruct (build_top3_overall_section_ok overall_raw) as (overall & Ho).
  destruct (etihad_section_ok daily_raw) as (carrier & Hc).
  destruct (build_daily_sections_ok daily_raw) as (daily & Hd).
  exists best, overall, carrier, daily. unfold build_full_report.
  by rewrite Hb, Ho, Hc, Hd.
Qed.

(** *** The carrier section *)

Lemma replace_char_map c d s :
  replace [c] [d] s = map (fun x => if (c =? x)%N then d else x) s.
Proof.
  rewrite replace_char_flat_map. induction s as [|x s IH]; [done|].
  cbn [flat_map map]. rewrite IH. by destruct (c =? x)%N.
Qed.

(** Replacing one character by another does not change where a pattern
    without either of them occurs. *)
Lemma starts_with_map_other c d p : forall s,
  Forall (fun a => a <> c /\ a <> d) p ->
  starts_with p (map (fun x => if (c =? x)%N then d else x) s)
  = starts_with p s.
Proof.
  induction p as [|a p IH]; intros s Hp; [by destruct s|].
  inversion Hp as [|? ? [Hac Had] Hp']; subst.
  destruct s as [|x s]; [done|]. cbn [map starts_with]. rewrite IH by done.
  f_equal. destruct (N.eqb_spec c x) as [->|Hcx]; [|done].
  transitivity false; [|symmetry]; by apply N.eqb_neq.
Qed.

Lemma contains_map_other c d p s :
  Forall (fun a => a <> c /\ a <> d) p ->
  contains p (map (fun x => if (c =? x)%N then d else x) s) = contains p s.
Proof.
  intros Hp. set (g := fun x => if (c =? x)%N then d else x).
  induction s as [|x s IH]; [done|].
  cbn [map contains]. rewrite IH. f_equal.
  change (g x :: map g s) with (map g (x :: s)).
  by apply starts_with_map_other.
Qed.

(** The report's test is case-insensitive containment of the carrier's
    name: normalising the dashes changes nothing for it. *)
Lemma is_etihad_mentions a :
  is_etihad a = mentions_carrier (lit "Etihad") a.
Proof.
  unfold is_etihad, mentions_carrier.
  change (lit "-") with [45%N]. rewrite !replace_char_map.
  change (lower (lit "Etihad")) with (lit "etihad").
  rewrite !contains_map_other; [done|..];
    each_elem ltac:(split; by vm_compute).
Qed.

Lemma collect_etihad_rows_matches daily_raw :
  collect_etihad_rows daily_raw = carrier_matches daily_raw.
Proof.
  unfold collect_etihad_rows, carrier_matches.
  induction daily_raw as [|[date fs] rest IH]; [done|].
  cbn [flat_map]. rewrite IH. f_equal.
  induction fs as [|f fs IHf]; [done|].
  cbn [flat_map List.filter]. rewrite IHf, is_etihad_mentions.
  by destruct (mentions_carrier (lit "Etihad") (airline f)).
Qed.

(** *** A report without data *)

Lemma compute_best_day_no_days : compute_best_day [] = Ok no_data.
Proof. done. Qed.

(** The three sections that have a placeholder show it exactly when they
    have nothing to list. *)
Lemma build_best_day_section_placeholder best_days_raw :
  cheapest best_days_raw = None ->
  shortest_duration best_days_raw = None ->
  shortest_layover best_days_raw = None ->
  build_best_day_section best_days_raw = Ok no_best_day_text.
Proof. unfold build_best_day_section. by intros -> -> ->. Qed.

Lemma build_top3_overall_section_placeholder :
  build_top3_overall_section [] = Ok no_top3_text.
Proof. done. Qed.

(** C7 fails on the code, for the per-day section: without any date it is
    the empty text, and for dates without offers it is a header-only table
    per date; only the other three sections have a placeholder.  The report
    of a run without data ends with the empty per-day section. *)
Theorem report_without_data :
  build_best_day_section no_data = Ok no_best_day_text /\
  build_top3_overall_section [] = Ok no_top3_text /\
  etihad_section [] = Ok no_etihad_text /\
  build_daily_sections [] = Ok [] /\
  build_full_report no_data [] []
  = Ok (no_best_day_text ++ [chr_newline; chr_newline]
        ++ no_top3_text ++ [chr_newline; chr_newline]
        ++ no_etihad_text ++ [chr_newline; chr_newline]) /\
  (exists daily,
     build_daily_sections empty_days = Ok daily /\
     length (lines_of daily) = 11%nat /\
     contains (lit "No ") daily = false).
Proof.
  do 5 (split; [by vm_compute|]).
  eexists. split; [by vm_compute|]. split; by vm_compute.
Qed.

(** ** Flight normalizer *)

(** Splits a successful bind [H] into its first step and the rest. *)
Tactic Notation "inv_bind" hyp(H) "as" ident(x) ident(Hx) :=
  apply bind_ok_inv in H as (x & Hx & H).

Lemma py_len_nonneg v n : py_len v = Ok n -> 0 <= n.
Proof. destruct v; cbn; intros [= <-]; unfold len; lia. Qed.


(** ** More about texts *)

Lemma lstrip_by_idem f s : lstrip_by f (lstrip_by f s) = lstrip_by f s.
Proof.
  induction s as [|c s IH]; [done|].
  cbn [lstrip_by]. destruct (f c) eqn:Hc; [done|].
  cbn [lstrip_by]. by rewrite Hc.
Qed.

Lemma lstrip_by_snoc f a c :
  f c = false -> exists u, lstrip_by f (a ++ [c]) = u ++ [c].
Proof.
  intros Hc. induction a as [|x a IH].
  - exists []. cbn. by rewrite Hc.
  - cbn [app lstrip_by]. destruct (f x); [done|]. by exists (x :: a).
Qed.

Lemma lstrip_by_head f s :
  match lstrip_by f s with
  | [] => True
  | c :: _ => f c = false
  end.
Proof.
  induction s as [|c s IH]; [done|].
  cbn [lstrip_by]. by destruct (f c) eqn:Hc.
Qed.

Lemma lstrip_by_fixed f c s : f c = false -> lstrip_by f (c :: s) = c :: s.
Proof. intros Hc. cbn. by rewrite Hc. Qed.

Lemma strip_by_idem f s : strip_by f (strip_by f s) = strip_by f s.
Proof.
  unfold strip_by.
  assert (Hl : forall t, lstrip_by f t = t ->
             lstrip_by f (rev (lstrip_by f (rev t))) = rev (lstrip_by f (rev t))).
  { intros t Ht. destruct t as [|c t]; [done|].
    assert (Hc : f c = false).
    { pose proof (lstrip_by_head f (c :: t)) as H. by rewrite Ht in H. }
    cbn [rev]. destruct (lstrip_by_snoc f (rev t) c Hc) as [u ->].
    rewrite rev_app_distr. cbn [rev app]. by apply lstrip_by_fixed. }
  rewrite (Hl (lstrip_by f s)) by apply lstrip_by_idem.
  by rewrite rev_involutive, lstrip_by_idem.
Qed.

Lemma strip_by_sublist f s (P : N -> Prop) :
  Forall P s -> Forall P (strip_by f s).
Proof.
  assert (Hl : forall t, Forall P t -> Forall P (lstrip_by f t)).
  { induction 1 as [|c t Hc Ht IH]; [constructor|].
    cbn [lstrip_by]. destruct (f c); [done | by constructor]. }
  intros H. unfold strip_by.
  apply Forall_rev, Hl, Forall_rev, Hl, H.
Qed.

Lemma strip_by_cons_space f c s : f c = true -> strip_by f (c :: s) = strip_by f s.
Proof. intros Hc. unfold strip_by. cbn [lstrip_by]. by rewrite Hc. Qed.

(** Removing a character: [s.replace(c, "")]. *)
Lemma replace_char_remove c s :
  Forall (fun x => x <> c) (replace [c] (lit "") s) /\
  forall P : N -> Prop, Forall P s -> Forall P (replace [c] (lit "") s).
Proof.
  rewrite replace_char_flat_map. change (lit "") with (@nil N).
  induction s as [|x s [IH1 IH2]].
  - split; [constructor | intros; constructor].
  - cbn [flat_map]. destruct (c =? x)%N eqn:Hx.
    + split; [done|]. intros P HP. apply Forall_cons in HP as [_ HP].
      by apply IH2.
    + apply N.eqb_neq in Hx. split.
      * constructor; [congruence | done].
      * intros P HP. apply Forall_cons in HP as [Hx' HP].
        constructor; [done | by apply IH2].
Qed.

(** The pieces of [s.split(c)] hold the characters of [s], and no [c]. *)
Lemma split_go_char_pieces c (P : N -> Prop) s : forall cur,
  Forall P cur -> Forall P s ->
  Forall (fun x => x <> c) cur ->
  Forall (fun piece => Forall P piece /\ Forall (fun x => x <> c) piece)
         (split_go [c] 0 cur s).
Proof.
  induction s as [|x s IH]; intros cur Hcur Hs Hc.
  - cbn. constructor; [|constructor]. split; by apply Forall_rev.
  - cbn [split_go]. rewrite starts_with_char.
    apply Forall_cons in Hs as [Hx Hs].
    destruct (c =? x)%N eqn:Hcx.
    + constructor; [split; by apply Forall_rev|].
      change (length [c] - 1)%nat with 0%nat. apply IH; by try constructor.
    + apply N.eqb_neq in Hcx. apply IH; [by constructor | done |].
      constructor; [congruence | done].
Qed.

Lemma split_go_char_prefix c a s : forall cur,
  Forall (fun x => x <> c) a ->
  split_go [c] 0 cur (a ++ s) = split_go [c] 0 (rev a ++ cur) s.
Proof.
  induction a as [|x a IH]; intros cur Ha; [done|].
  apply Forall_cons in Ha as [Hx Ha].
  cbn [app split_go]. rewrite starts_with_char.
  assert ((c =? x)%N = false) as -> by (apply N.eqb_neq; congruence).
  rewrite IH by done. cbn [rev]. by rewrite <- app_assoc.
Qed.

Lemma split_go_app_sep c a b : forall cur,
  split_go [c] 0 cur (a ++ c :: b)
  = split_go [c] 0 cur a ++ split_go [c] 0 [] b.
Proof.
  induction a as [|x a IH]; intros cur.
  - cbn [app split_go]. by rewrite starts_with_char, N.eqb_refl.
  - cbn [app split_go]. rewrite !starts_with_char.
    destruct (c =? x)%N; [|apply IH].
    change (length [c] - 1)%nat with 0%nat. cbn [app]. f_equal. apply IH.
Qed.

Lemma replace_first_absent c old new s :
  Forall (fun x => x <> c) s -> replace (c :: old) new s = s.
Proof.
  unfold replace. induction 1 as [|x s Hx _ IH]; [done|].
  cbn [replace_go starts_with].
  assert ((c =? x)%N = false) as -> by (apply N.eqb_neq; congruence).
  cbn [andb]. by rewrite IH.
Qed.

Lemma replace_char_same c s : replace [c] [c] s = s.
Proof.
  rewrite replace_char_flat_map. induction s as [|x s IH]; [done|].
  cbn [flat_map]. rewrite IH.
  destruct (c =? x)%N eqn:E; [|done]. apply N.eqb_eq in E. by subst.
Qed.

Lemma replace_go_miss old new c s :
  starts_with old (c :: s) = false ->
  replace_go old new 0 (c :: s) = c :: replace_go old new 0 s.
Proof. intros H. cbn [replace_go]. by rewrite H. Qed.

(** [int] rejects a text that starts with a character that is neither
    white space, a sign nor a digit. *)
Lemma int_bad_start c s :
  is_int_space c = false -> digit_val c = None ->
  c <> chr_minus -> c <> chr_plus ->
  int (c :: s) = Raise ValueError.
Proof.
  intros Hsp Hd Hminus Hplus. unfold int, strip_by.
  cbn [lstrip_by]. rewrite Hsp. cbn [rev].
  destruct (lstrip_by_snoc is_int_space (rev s) c Hsp) as [u ->].
  rewrite rev_app_distr. cbn [rev app].
  assert ((c =? chr_minus)%N = false) as -> by (by apply N.eqb_neq).
  assert ((c =? chr_plus)%N = false) as -> by (by apply N.eqb_neq).
  cbn [int_digits]. rewrite Hd. by rewrite andb_false_r.
Qed.

(** *** Lower case of ASCII text *)

Lemma lower_code_point_ascii (c : N) :
  (c < 128)%N -> lower_code_point c = [lower_char c].
Proof.
  intros Hc.
  assert (Hall : forallb (fun n => bool_decide
                            (lower_code_point (N.of_nat n)
                             = [lower_char (N.of_nat n)]))
                         (seq 0 128) = true) by (by vm_compute).
  rewrite forallb_forall in Hall.
  specialize (Hall (N.to_nat c)). rewrite N2Nat.id in Hall.
  eapply bool_decide_eq_true_1, Hall. apply in_seq. lia.
Qed.

(** On ASCII text the full lower case is the ASCII one. *)
Lemma lower_unicode_ascii (s : str) :
  Forall (fun c => (c < 128)%N) s -> lower_unicode s = lower s.
Proof.
  unfold lower_unicode. generalize (@nil N) as before.
  induction s as [|c s IH]; intros before Hs; [done|].
  apply Forall_cons in Hs as [Hc Hs]. cbn [lower_from lower map].
  assert ((c =? 931)%N = false) as -> by (apply N.eqb_neq; lia).
  rewrite lower_code_point_ascii by done. cbn [app].
  f_equal. by apply IH.
Qed.

Lemma digits_ascii (s : str) :
  Forall is_digit s -> Forall (fun c => (c < 128)%N) s.
Proof.
  intros H. eapply Forall_impl; [exact H|]. unfold is_digit. cbn beta. lia.
Qed.

(** ** SMS segments *)

Lemma slice_to_pos (text : str) (n : Z) :
  0 <= n -> slice_to text n = take (Z.to_nat n) text.
Proof. intros H. unfold slice_to. by assert ((n <? 0) = false) as -> by lia. Qed.

Lemma slice_from_pos (text : str) (n : Z) :
  0 <= n -> slice_from text n = drop (Z.to_nat n) text.
Proof. intros H. unfold slice_from. by assert ((n <? 0) = false) as -> by lia. Qed.

Lemma split_message_loop_nil fuel max_length :
  split_message_loop (S fuel) [] max_length = Some [].
Proof. done. Qed.

Lemma split_message_loop_cons fuel c message max_length :
  split_message_loop (S fuel) (c :: message) max_length =
  (segments ← split_message_loop fuel (slice_from (c :: message) max_length)
                                 max_length;
   Some (slice_to (c :: message) max_length :: segments)).
Proof. done. Qed.

Lemma split_message_loop_partition (message : str) (max_length : Z) (fuel : nat) :
  0 < max_length -> (length message < fuel)%nat ->
  exists segments,
    split_message_loop fuel message max_length = Some segments /\
    concat segments = message /\
    Forall (fun s => s <> [] /\ len s <= max_length) segments /\
    (forall i s, segments !! i = Some s -> (S i < length segments)%nat ->
                 len s = max_length) /\
    len segments = (len message + max_length - 1) / max_length.
Proof.
  intros Hmax. revert message.
  induction fuel as [|fuel IH]; intros message Hfuel; [lia|].
  destruct message as [|c message].
  { exists []. rewrite split_message_loop_nil.
    split; [done|]. split; [done|]. split; [constructor|]. split.
    - intros i s H. by rewrite lookup_nil in H.
    - unfold len. cbn [length]. symmetry. apply Z.div_small. lia. }
  rewrite split_message_loop_cons.
  rewrite slice_to_pos, slice_from_pos by lia.
  set (n := Z.to_nat max_length). set (m := c :: message) in *.
  assert (Hn : (0 < n)%nat) by (subst n; lia).
  assert (Hm : (0 < length m)%nat) by (subst m; cbn; lia).
  destruct (IH (drop n m)) as (segs & -> & Hcat & Hall & Hfull & Hcount).
  { rewrite length_drop. lia. }
  cbn [mbind option_bind]. exists (take n m :: segs).
  split; [done|]. split.
  { cbn [concat]. rewrite Hcat. apply take_drop. }
  split.
  { constructor; [|done]. split.
    - destruct n; [lia|]. subst m. done.
    - unfold len. rewrite length_take. lia. }
  split.
  { intros [|i] s Hs Hi.
    - cbn in Hs. injection Hs as <-. cbn [length] in Hi.
      destruct segs as [|s0 segs']; [cbn in Hi; lia|].
      assert (H0 : drop n m <> []).
      { intros Hnil. rewrite Hnil in Hcat. cbn [concat] in Hcat.
        apply app_eq_nil in Hcat as [-> _].
        apply Forall_cons in Hall as [[Hne _] _]. done. }
      assert (n < length m)%nat.
      { destruct (decide (n < length m)%nat) as [|Hge]; [done|].
        exfalso. apply H0. apply drop_ge. lia. }
      unfold len. rewrite length_take. lia.
    - cbn in Hs. cbn [length] in Hi. apply (Hfull i s Hs). lia. }
  unfold len in *. cbn [length]. rewrite Nat2Z.inj_succ, Hcount.
  rewrite length_drop.
  destruct (decide (length m <= n)%nat) as [Hle|Hgt].
  - replace (length m - n)%nat with 0%nat by lia.
    rewrite (Z.div_small (Z.of_nat 0 + max_length - 1)) by lia.
    apply Z.div_unique with (r := Z.of_nat (length m) - 1); lia.
  - replace (Z.of_nat (length m) + max_length - 1)
      with (Z.of_nat (length m - n) + max_length - 1 + 1 * max_length) by lia.
    rewrite Z.div_add by lia. lia.
Qed.


(** The pieces of a partition into full segments and a last one. *)
Lemma partition_pieces (n : nat) (segs : list str) : forall message,
  concat segs = message ->
  Forall (fun s => s <> [] /\ (length s <= n)%nat) segs ->
  (forall i s, segs !! i = Some s -> (S i < length segs)%nat -> length s = n) ->
  forall i seg, segs !! i = Some seg -> seg = take n (drop (n * i) message).
Proof.
  induction segs as [|s0 segs IH]; intros message Hcat Hall Hfull i seg Hseg;
    [done|].
  cbn [concat] in Hcat.
  assert (Hs0 : s0 = take n message /\ concat segs = drop n message).
  { destruct segs as [|s1 segs'].
    - cbn [concat] in Hcat. rewrite app_nil_r in Hcat. subst s0.
      apply Forall_cons in Hall as [[_ Hlen] _].
      rewrite take_ge, drop_ge by lia. done.
    - assert (Hl : length s0 = n)
        by (apply (Hfull 0%nat); [done | cbn; lia]).
      rewrite <- Hcat.
      rewrite take_app_length', drop_app_length' by lia. done. }
  destruct Hs0 as [Hs0 Hrest].
  destruct i as [|i]; cbn in Hseg.
  - injection Hseg as <-. by rewrite Nat.mul_0_r, drop_0.
  - apply Forall_cons in Hall as [_ Hall].
    assert (seg = take n (drop (n * i) (drop n message))) as ->.
    { apply IH; try done.
      intros j s Hj Hlt. apply (Hfull (S j) s Hj). cbn. lia. }
    rewrite drop_drop. do 2 f_equal. lia.
Qed.

(** X1.  For a positive [max_length] the loop of [split_message] ends
    (after at most [len(message) + 1] tests of its condition) and cuts the
    message into consecutive pieces: joined, the segments are the message;
    no segment is empty or longer than [max_length]; every segment but the
    last has exactly [max_length] characters; there are
    [ceil(len(message) / max_length)] of them, the [i]-th being
    [message[i * max_length : (i + 1) * max_length]]. *)
Theorem split_message_partition (message : str) (max_length : Z) (fuel : nat) :
  0 < max_length -> (length message < fuel)%nat ->
  exists segments,
    split_message fuel message max_length = Some segments /\
    concat segments = message /\
    Forall (fun s => s <> [] /\ len s <= max_length) segments /\
    (forall i s, segments !! i = Some s -> (S i < length segments)%nat ->
                 len s = max_length) /\
    len segments = (len message + max_length - 1) / max_length /\
    (forall i s, segments !! i = Some s ->
                 s = take (Z.to_nat max_length)
                          (drop (Z.to_nat max_length * i) message)).
Proof.
  intros Hmax Hfuel. unfold split_message.
  destruct (split_message_loop_partition message max_length fuel Hmax Hfuel)
    as (segments & Hloop & Hcat & Hall & Hfull & Hcount).
  exists segments. do 5 (split; [done|]).
  apply partition_pieces; [done | |].
  - eapply Forall_impl; [exact Hall|]. intros s [Hne Hlen].
    split; [done|]. unfold len in Hlen. lia.
  - intros i s Hs Hi. specialize (Hfull i s Hs Hi). unfold len in Hfull. lia.
Qed.

Lemma split_message_partition_witness :
  exists segments,
    split_message 6 (lit "abcde") 2 = Some segments /\
    concat segments = lit "abcde" /\
    Forall (fun s => s <> [] /\ len s <= 2) segments /\
    (forall i s, segments !! i = Some s -> (S i < length segments)%nat ->
                 len s = 2) /\
    len segments = (len (lit "abcde") + 2 - 1) / 2 /\
    (forall i s, segments !! i = Some s ->
                 s = take (Z.to_nat 2) (drop (Z.to_nat 2 * i) (lit "abcde"))).
Proof. apply (split_message_partition (lit "abcde") 2 6); [lia | cbn; lia]. Defined.

Lemma slice_from_nonempty (message : str) (max_length : Z) :
  max_length <= 0 -> message <> [] -> slice_from message max_length <> [].
Proof.
  intros Hmax Hne. unfold slice_from, len.
  assert (0 < length message)%nat by (destruct message; [done | cbn; lia]).
  intros Hnil. apply (f_equal length) in Hnil. cbn [length] in Hnil.
  destruct (max_length <? 0) eqn:Hneg; rewrite length_drop in Hnil; lia.
Qed.

(** X2.  With [max_length <= 0] the loop of [split_message] never ends on
    a non-empty message: the remaining message stays non-empty (a zero
    length removes nothing, a negative one keeps the last characters), so
    no number of iterations produces a result. *)
Theorem split_message_diverges (message : str) (max_length : Z) (fuel : nat) :
  max_length <= 0 -> message <> [] ->
  split_message fuel message max_length = None.
Proof.
  intros Hmax. unfold split_message. revert message.
  induction fuel as [|fuel IH]; intros message Hne; [done|].
  destruct message as [|c message]; [done|].
  rewrite split_message_loop_cons.
  rewrite IH; [done|]. by apply slice_from_nonempty.
Qed.

Lemma split_message_diverges_witness :
  split_message 1000 (lit "hello") 0 = None /\
  split_message 1000 (lit "hello") (-2) = None.
Proof.
  split.
  - apply (split_message_diverges (lit "hello") 0 1000); [lia | done].
  - apply (split_message_diverges (lit "hello") (-2) 1000); [lia | done].
Defined.

Lemma str_of_int_nonempty (n : Z) : 0 <= n -> (1 <= length (str_of_int n))%nat.
Proof.
  intros Hn. unfold str_of_int.
  assert ((n <? 0) = false) as -> by lia.
  destruct (digits_spec n Hn) as (Hne & _).
  destruct (digits n); [done | cbn; lia].
Qed.

Lemma number_from_lookup total : forall raw_segments idx i body,
  number_from total idx raw_segments !! i = Some body ->
  exists seg,
    raw_segments !! i = Some seg /\
    body = str_of_int (idx + Z.of_nat i) ++ lit "/" ++ str_of_int total
           ++ lit " " ++ seg.
Proof.
  induction raw_segments as [|seg rest IH]; intros idx i body H; [done|].
  destruct i as [|i]; cbn in H.
  - injection H as <-. exists seg. split; [done|].
    by rewrite Z.add_0_r.
  - destruct (IH _ _ _ H) as (seg' & Hseg & ->).
    exists seg'. split; [done|].
    by replace (idx + 1 + Z.of_nat i) with (idx + Z.of_nat (S i)) by lia.
Qed.

Lemma length_number_from total : forall raw_segments idx,
  length (number_from total idx raw_segments) = length raw_segments.
Proof.
  induction raw_segments as [|seg rest IH]; intros idx; [done|].
  cbn. by rewrite IH.
Qed.

(** X3.  [send_sms] cuts the message into segments of
    [MAX_SEGMENT_LENGTH] characters and then puts the prefix
    ["<idx>/<total> "] before each: there are [ceil(len(message) / 160)]
    bodies, each is its prefix followed by the corresponding piece of the
    message, and every body that carries a full segment (all but the last,
    and the only one of a message of exactly 160 characters) is at least
    four characters longer than [MAX_SEGMENT_LENGTH]. *)
Theorem numbered_segments_exceed_limit (message : str) (fuel : nat) :
  (length message < fuel)%nat ->
  exists bodies,
    numbered_segments fuel message = Some bodies /\
    len bodies = (len message + 159) / 160 /\
    (forall i body, bodies !! i = Some body ->
       body = str_of_int (Z.of_nat i + 1) ++ lit "/"
              ++ str_of_int (len bodies) ++ lit " "
              ++ take 160 (drop (160 * i) message)) /\
    (forall i body, bodies !! i = Some body ->
       160 * (Z.of_nat i + 1) <= len message ->
       MAX_SEGMENT_LENGTH + 4 <= len body).
Proof.
  intros Hfuel. unfold numbered_segments, split_message.
  destruct (split_message_loop_partition message MAX_SEGMENT_LENGTH fuel)
    as (segs & -> & Hcat & Hall & Hfull & Hcount); [done | done |].
  cbn [mbind option_bind]. eexists. split; [done|].
  assert (Hpieces : forall i seg, segs !! i = Some seg ->
                      seg = take 160 (drop (160 * i) message)).
  { apply partition_pieces; [done | |].
    - eapply Forall_impl; [exact Hall|]. intros s [Hne Hlen].
      split; [done|]. unfold len, MAX_SEGMENT_LENGTH in Hlen. lia.
    - intros i s Hs Hi. specialize (Hfull i s Hs Hi).
      unfold len, MAX_SEGMENT_LENGTH in Hfull. lia. }
  unfold MAX_SEGMENT_LENGTH in Hcount.
  replace (len message + 160 - 1) with (len message + 159) in Hcount by lia.
  rewrite <- Hcount. unfold len at 1 2. rewrite length_number_from.
  split; [done|]. split.
  - intros i body Hbody.
    apply number_from_lookup in Hbody as (seg & Hseg & ->).
    rewrite (Hpieces _ _ Hseg). unfold len. rewrite length_number_from.
    by replace (1 + Z.of_nat i) with (Z.of_nat i + 1) by lia.
  - intros i body Hbody Hi.
    apply number_from_lookup in Hbody as (seg & Hseg & ->).
    rewrite (Hpieces _ _ Hseg). unfold len, MAX_SEGMENT_LENGTH in *.
    rewrite !length_app, length_take, length_drop.
    pose proof (str_of_int_nonempty (1 + Z.of_nat i) ltac:(lia)).
    pose proof (str_of_int_nonempty (Z.of_nat (length segs)) ltac:(lia)).
    change (length (lit "/")) with 1%nat. change (length (lit " ")) with 1%nat.
    lia.
Qed.

Lemma numbered_segments_exceed_limit_witness :
  exists bodies,
    numbered_segments 400 (replicate 330 97%N) = Some bodies /\
    len bodies = (len (replicate 330 97%N) + 159) / 160 /\
    (forall i body, bodies !! i = Some body ->
       body = str_of_int (Z.of_nat i + 1) ++ lit "/"
              ++ str_of_int (len bodies) ++ lit " "
              ++ take 160 (drop (160 * i) (replicate 330 97%N))) /\
    (forall i body, bodies !! i = Some body ->
       160 * (Z.of_nat i + 1) <= len (replicate 330 97%N) ->
       MAX_SEGMENT_LENGTH + 4 <= len body).
Proof.
  apply (numbered_segments_exceed_limit (replicate 330 97%N) 400).
  vm_compute. lia.
Defined.

(** A message of 330 characters goes out as three bodies of 164, 164 and
    14 characters: the two full segments exceed the limit of 160. *)
Example numbered_segments_330 :
  map len <$> numbered_segments 400 (replicate 330 97%N)
  = Some [164; 164; 14].
Proof. by vm_compute. Qed.

(** ** E-mail recipients *)

(** A recipient is a stripped, non-empty piece without list syntax. *)
Lemma recipients_pieces (EMAIL_TO : str) (r : str) :
  r ∈ recipients EMAIL_TO ->
  r <> [] /\
  exists piece, r = strip piece /\ Forall (fun c => ~ is_list_syntax c) piece.
Proof.
  unfold recipients. intros Hr.
  apply list_elem_of_In, filter_In in Hr as [Hr Hne].
  apply list_elem_of_In, list_elem_of_fmap in Hr as (piece & -> & Hpiece).
  set (cleaned := replace [chr_quote] (lit "") _) in Hpiece.
  assert (Hcleaned : Forall (fun c => c <> chr_lbracket /\ c <> chr_rbracket
                                      /\ c <> chr_quote) cleaned).
  { subst cleaned.
    destruct (replace_char_remove chr_lbracket EMAIL_TO) as [H1 _].
    destruct (replace_char_remove chr_rbracket
                (replace [chr_lbracket] (lit "") EMAIL_TO)) as [H2 K2].
    destruct (replace_char_remove chr_quote
                (replace [chr_rbracket] (lit "")
                   (replace [chr_lbracket] (lit "") EMAIL_TO))) as [H3 K3].
    specialize (K2 _ H1). apply K3 in K2 as K32. apply K3 in H2 as K33.
    rewrite Forall_forall in *. intros c Hc.
    split; [by apply K32 | split; [by apply K33 | by apply H3]]. }
  pose proof (split_go_char_pieces chr_comma _ cleaned [] ltac:(constructor)
                Hcleaned ltac:(constructor)) as Hpieces.
  rewrite Forall_forall in Hpieces.
  destruct (Hpieces _ Hpiece) as [Hp1 Hp2].
  split.
  - intros Heq. rewrite Heq in Hne. by rewrite bool_decide_eq_true_2 in Hne.
  - exists piece. split; [done|].
    rewrite Forall_forall in *. intros c Hc [-> | [-> | [-> | ->]]].
    + by apply (Hp2 _ Hc).
    + by destruct (Hp1 _ Hc) as (? & ? & ?).
    + by destruct (Hp1 _ Hc) as (? & ? & ?).
    + by destruct (Hp1 _ Hc) as (? & ? & ?).
Qed.

(** X4.  Every recipient [send_email] reads from [EMAIL_TO] is a clean
    address: it is not empty, has no white space around it, and holds no
    comma, bracket or double quote. *)
Theorem recipients_clean (EMAIL_TO : str) (r : str) :
  r ∈ recipients EMAIL_TO -> clean_address r.
Proof.
  intros Hr. destruct (recipients_pieces _ _ Hr) as (Hne & piece & -> & Hp).
  split; [done|]. split.
  - apply strip_by_idem.
  - by apply strip_by_sublist.
Qed.

Lemma recipients_clean_witness :
  clean_address (lit "a@x.org").
Proof.
  apply (recipients_clean (lit "[ a@x.org , b@y.org ]") (lit "a@x.org")).
  vm_compute. apply list_elem_of_In. left. reflexivity.
Defined.

(** Cutting a joined list at the first character of the separator gives
    the elements back, the rest of the separator before all but the
    first. *)
Lemma split_go_join c sp (rs : list str) : forall r cur,
  Forall (fun x => x <> c) sp ->
  Forall (Forall (fun x => x <> c)) (r :: rs) ->
  split_go [c] 0 cur (join (c :: sp) (r :: rs))
  = (rev cur ++ r) :: map (app sp) rs.
Proof.
  induction rs as [|r2 rs IH]; intros r cur Hsp Hall.
  - apply Forall_cons in Hall as [Hr _]. cbn [join map].
    by apply split_go_char_absent.
  - apply Forall_cons in Hall as [Hr Hall].
    rewrite join_cons2. cbn [app].
    rewrite split_go_char_first by done. f_equal.
    rewrite split_go_char_prefix by done.
    rewrite IH by done. cbn [map]. by rewrite app_nil_r, rev_involutive.
Qed.

Lemma clean_address_chars r c :
  clean_address r -> is_list_syntax c -> Forall (fun x => x <> c) r.
Proof.
  intros (_ & _ & Hr) Hc. eapply Forall_impl; [exact Hr|].
  intros x Hx ->. by apply Hx.
Qed.

(** The recipients of a header made of clean addresses. *)
Lemma recipients_of_clean (rs : list str) :
  Forall clean_address rs -> recipients (to_header rs) = rs.
Proof.
  intros Hrs. unfold recipients, to_header.
  assert (Hno : forall c, is_list_syntax c -> c <> chr_comma ->
                  Forall (fun x => x <> c) (join (lit ", ") rs)).
  { intros c Hc Hcomma. apply Forall_join.
    - constructor; [done|]. constructor; [|constructor].
      destruct Hc as [-> | [-> | [-> | ->]]]; done.
    - eapply Forall_impl; [exact Hrs|]. intros r Hr.
      by apply clean_address_chars. }
  rewrite (replace_char_absent chr_lbracket)
    by (apply Hno; [right; by left | done]).
  rewrite (replace_char_absent chr_rbracket)
    by (apply Hno; [right; right; by left | done]).
  rewrite (replace_char_absent chr_quote)
    by (apply Hno; [right; right; by right | done]).
  destruct rs as [|r rs]; [done|].
  change (lit ", ") with (chr_comma :: [chr_space]).
  rewrite split_go_join.
  2:{ constructor; [done | constructor]. }
  2:{ eapply Forall_impl; [exact Hrs|]. intros x Hx.
      apply clean_address_chars; [done | by left]. }
  cbn [rev app map List.filter].
  apply Forall_cons in Hrs as [(Hne & Hstrip & _) Hrs].
  rewrite Hstrip.
  assert (negb (bool_decide (r = [])) = true) as ->
    by (by rewrite bool_decide_eq_false_2).
  f_equal. clear Hno.
  induction Hrs as [|r2 rs (Hne2 & Hstrip2 & _) Hrs IH]; [done|].
  cbn [map List.filter app].
  assert (strip (chr_space :: r2) = r2) as ->.
  { unfold strip. rewrite strip_by_cons_space by done. exact Hstrip2. }
  assert (negb (bool_decide (r2 = [])) = true) as ->
    by (by rewrite bool_decide_eq_false_2).
  by rewrite IH.
Qed.

(** X5.  The [To] header [send_email] writes, [", ".join(recipients)],
    reads back as the same recipients: a list of clean addresses survives
    the round trip, and so does the list read from any [EMAIL_TO]. *)
Theorem recipients_to_header_roundtrip :
  (forall rs, Forall clean_address rs -> recipients (to_header rs) = rs) /\
  (forall EMAIL_TO,
     recipients (to_header (recipients EMAIL_TO)) = recipients EMAIL_TO) /\
  recipients (lit "[ a@x.org , b@y.org ],") = [lit "a@x.org"; lit "b@y.org"] /\
  recipients (lit " , ") = [].
Proof.
  split; [exact recipients_of_clean|]. split; [|by vm_compute].
  intros EMAIL_TO. apply recipients_of_clean.
  apply Forall_forall. intros r Hr.
  destruct (recipients_pieces _ _ Hr) as (Hne & piece & -> & Hp).
  split; [done|]. split.
  - apply strip_by_idem.
  - by apply strip_by_sublist.
Qed.
(** ** Table renderer: padding, widths, truncation *)

Lemma blank_repeat n : blank (repeat_char chr_space n).
Proof. by apply Forall_replicate. Qed.

Lemma len_repeat_char c n : 0 <= n -> len (repeat_char c n) = n.
Proof. intros Hn. unfold len. rewrite length_repeat_char. lia. Qed.

(** The lowest bit of [marg & width], the space [str.center] adds on the
    left of an odd margin. *)
Lemma land_odd_bit (marg width : Z) :
  Z.land (Z.land marg width) 1
  = if Z.odd marg && Z.odd width then 1 else 0.
Proof.
  change 1 with (Z.ones 1) at 1. rewrite Z.land_ones by lia.
  change (2 ^ 1) with 2. rewrite <- Z.bit0_mod, Z.land_spec, !Z.bit0_odd.
  by destruct (Z.odd marg), (Z.odd width).
Qed.

(** X6.  [_pad] returns exactly [width] characters for every non-negative
    [width]: a text that is too long is cut to its first [width] characters
    whatever the alignment, any other text is kept whole with the missing
    [width - len(text)] spaces added: all before it for ["right"], for
    ["center"] half of them before it and the rest after it, the odd one
    going before the text when [width] is odd and after it when [width] is
    even, and all after it for any other alignment. *)
Theorem _pad_exact_width (text : str) (width : Z) (align : str) :
  0 <= width ->
  len (_pad text width align) = width /\
  (width < len text -> _pad text width align = take (Z.to_nat width) text) /\
  (len text <= width ->
   exists l r,
     _pad text width align = l ++ text ++ r /\ blank l /\ blank r /\
     len l + len r = width - len text /\
     (align = lit "right" -> r = []) /\
     (align = lit "center" ->
      len l = (width - len text) / 2
              + (if Z.odd (width - len text) && Z.odd width then 1 else 0)) /\
     (align <> lit "right" -> align <> lit "center" -> l = [])).
Proof.
  intros Hw. unfold _pad.
  destruct (width <? len text) eqn:Hlt.
  - apply Z.ltb_lt in Hlt. rewrite slice_to_pos by done.
    split; [|split; [done | lia]].
    unfold len in *. rewrite length_take. lia.
  - apply Z.ltb_ge in Hlt. split; [|split; [lia|]].
    + pose proof (length_pad text width align Hlt) as H.
      unfold _pad in H.
      assert ((width <? len text) = false) as Hf by lia.
      rewrite Hf in H. unfold len at 1. rewrite H. lia.
    + intros _. destruct (bool_decide (align = lit "right")) eqn:Hr.
      { apply bool_decide_eq_true in Hr.
        exists (repeat_char chr_space (width - len text)), [].
        unfold rjust. rewrite app_nil_r.
        split; [done|]. split; [apply blank_repeat|].
        split; [constructor|].
        split; [rewrite len_repeat_char by lia; change (len (@nil N)) with 0; lia|].
        split; [done|]. split; [by rewrite Hr|]. done. }
      apply bool_decide_eq_false in Hr.
      destruct (bool_decide (align = lit "center")) eqn:Hc.
      { apply bool_decide_eq_true in Hc. unfold center.
        pose proof (land_odd_bit (width - len text) width) as Hbit.
        destruct (width - len text <=? 0) eqn:Hm.
        - assert (width - len text = 0) as H0 by lia.
          exists [], []. rewrite app_nil_r.
          split; [done|]. split; [constructor|]. split; [constructor|].
          split; [change (len (@nil N)) with 0; lia|]. split; [done|].
          split; [intros _; by rewrite H0|]. done.
        - apply Z.leb_gt in Hm.
          set (marg := width - len text) in *.
          set (left := marg / 2 + Z.land (Z.land marg width) 1) in *.
          assert (0 <= left <= marg) as Hleft.
          { subst left. rewrite Hbit.
            pose proof (Z.div_mod marg 2 ltac:(lia)) as Hdm.
            pose proof (Z.mod_pos_bound marg 2 ltac:(lia)) as Hmb.
            destruct (Z.odd marg) eqn:Hodd; cbn [andb].
            - rewrite Zmod_odd, Hodd in Hdm.
              destruct (Z.odd width); lia.
            - lia. }
          exists (repeat_char chr_space left),
                 (repeat_char chr_space (marg - left)).
          split; [done|]. split; [apply blank_repeat|].
          split; [apply blank_repeat|].
          split; [rewrite !len_repeat_char by lia; lia|].
          split; [done|].
          split; [intros _; rewrite len_repeat_char by lia;
                  subst left; by rewrite Hbit|].
          done. }
      apply bool_decide_eq_false in Hc.
      exists [], (repeat_char chr_space (width - len text)).
      split; [done|]. split; [constructor|]. split; [apply blank_repeat|].
      split; [rewrite len_repeat_char by lia; change (len (@nil N)) with 0; lia|].
      split; [done|]. split; [done|]. done.
Qed.

Lemma _pad_exact_width_witness :
  len (_pad (lit "EY") 7 (lit "center")) = 7 /\
  (7 < len (lit "EY") ->
   _pad (lit "EY") 7 (lit "center") = take (Z.to_nat 7) (lit "EY")) /\
  (len (lit "EY") <= 7 ->
   exists l r,
     _pad (lit "EY") 7 (lit "center") = l ++ lit "EY" ++ r /\
     blank l /\ blank r /\
     len l + len r = 7 - len (lit "EY") /\
     (lit "center" = lit "right" -> r = []) /\
     (lit "center" = lit "center" ->
      len l = (7 - len (lit "EY")) / 2
              + (if Z.odd (7 - len (lit "EY")) && Z.odd 7 then 1 else 0)) /\
     (lit "center" <> lit "right" -> lit "center" <> lit "center" -> l = [])).
Proof. apply (_pad_exact_width (lit "EY") 7 (lit "center")). lia. Defined.

(** The four cases on short texts: padded on the right, on the left, on
    both sides (the odd space before the text for an odd width, after it
    for an even one), and cut. *)
Example _pad_cases :
  _pad (lit "EY") 5 (lit "left") = lit "EY   " /\
  _pad (lit "EY") 5 (lit "right") = lit "   EY" /\
  _pad (lit "EY") 7 (lit "center") = lit "   EY  " /\
  _pad (lit "EY") 5 (lit "center") = lit "  EY " /\
  _pad (lit "EYA") 6 (lit "center") = lit " EYA  " /\
  _pad (lit "Air Canada") 4 (lit "center") = lit "Air ".
Proof. repeat split; by vm_compute. Qed.

Lemma lookup_foldl_widen_attained n rows : forall ml i w,
  foldl (widen_for_row n) ml rows !! i = Some w ->
  ml !! i = Some w \/
  exists row c, row ∈ rows /\ row !! i = Some c /\ w = len (str_of c).
Proof.
  induction rows as [|r rows IH]; intros ml i w H; [by left|].
  cbn [foldl] in H. apply IH in H as [H | (row & c & Hin & Hc & ->)].
  - rewrite lookup_widen_for_row in H.
    destruct (ml !! i) as [w0|] eqn:Hml; [|done].
    cbn in H. injection H as H.
    destruct (r !! i) as [c|] eqn:Hr; [|left; by subst].
    destruct (decide (i < n)%nat); [|left; by subst].
    destruct (Z.max_spec w0 (len (str_of c))) as [[_ Hmax] | [_ Hmax]];
      rewrite Hmax in H.
    + right. exists r, c. split; [apply elem_of_cons; by left | done].
    + left. by subst.
  - right. exists row, c. split; [apply elem_of_cons; by right | done].
Qed.

(** X7.  [auto_column_widths] returns one width per header, whatever the
    shape of the rows (cells beyond the last header are ignored, missing
    cells count for nothing), and each width is exactly the padding plus
    the longest text of its column: it covers the header and every cell of
    the column, and it is attained by the header or by one of the cells. *)
Theorem auto_column_widths_exact (headers : list str) (rows : list (list cell))
    (padding : Z) :
  length (auto_column_widths headers rows padding) = length headers /\
  forall i w,
    auto_column_widths headers rows padding !! i = Some w ->
    exists h,
      headers !! i = Some h /\
      len h + padding <= w /\
      (forall row c, row ∈ rows -> row !! i = Some c ->
                     len (str_of c) + padding <= w) /\
      (w = len h + padding \/
       exists row c, row ∈ rows /\ row !! i = Some c /\
                     w = len (str_of c) + padding).
Proof.
  split.
  { unfold auto_column_widths.
    by rewrite length_map, length_foldl_widen, length_map. }
  intros i w H. unfold auto_column_widths in H.
  change (map (fun l => l + padding))
    with (fmap (M:=list) (fun l => l + padding)) in H.
  rewrite list_lookup_fmap in H.
  destruct (foldl _ _ rows !! i) as [m|] eqn:Hm; [|done].
  cbn in H. injection H as <-.
  assert (Hi : (i < length headers)%nat).
  { apply lookup_lt_Some in Hm.
    by rewrite length_foldl_widen, length_map in Hm. }
  pose proof (lookup_foldl_widen_attained _ _ _ _ _ Hm) as Hatt.
  apply lookup_foldl_widen in Hm as (w0 & H0 & Hle & Hrows).
  change (map len headers) with (len <$> headers) in H0, Hatt.
  rewrite list_lookup_fmap in H0, Hatt.
  destruct (headers !! i) as [h|] eqn:Hh; [|done].
  cbn in H0, Hatt. injection H0 as <-.
  exists h. split; [done|]. split; [lia|]. split.
  - intros row c Hin Hc. specialize (Hrows row c Hin Hc Hi). lia.
  - destruct Hatt as [Heq | (row & c & Hin & Hc & ->)].
    + left. injection Heq as ->. done.
    + right. by exists row, c.
Qed.

Lemma length_pad_any text width align :
  0 <= width -> length (_pad text width align) = Z.to_nat width.
Proof.
  intros Hw. destruct (decide (len text <= width)) as [Hle|Hgt].
  - by apply length_pad.
  - unfold _pad. assert ((width <? len text) = true) as -> by lia.
    rewrite slice_to_pos by done. unfold len in Hgt.
    rewrite length_take. lia.
Qed.

Lemma pad_fits text width align :
  len text <= width -> padded_text text (_pad text width align).
Proof.
  intros Hle. unfold _pad, padded_text.
  assert ((width <? len text) = false) as -> by lia.
  destruct (bool_decide (align = lit "right")).
  { exists (repeat_char chr_space (width - len text)), [].
    unfold rjust. rewrite app_nil_r.
    split; [done|]. split; [apply blank_repeat | constructor]. }
  destruct (bool_decide (align = lit "center")).
  { unfold center. destruct (width - len text <=? 0).
    - exists [], []. rewrite app_nil_r. split; [done|]. split; constructor.
    - eexists _, _. split; [reflexivity|]. split; apply blank_repeat. }
  exists [], (repeat_char chr_space (width - len text)).
  split; [done|]. split; [constructor | apply blank_repeat].
Qed.

(** A row that has a cell for every width renders as a line as long as
    the border, whatever the non-negative widths are. *)
Lemma format_row_any widths aligns row :
  length row = length widths ->
  (length widths <= length aligns)%nat ->
  Forall (fun w => 0 <= w) widths ->
  exists line,
    format_row widths aligns row = Ok line /\
    length line = length (border widths) /\
    (Forall (fun c => no_newline (str_of c)) row -> no_newline line).
Proof.
  intros Hrow Hal Hpos. unfold format_row.
  destruct (format_cells_ok widths aligns row 0) as (cells & Hcells & Hlen & Hlook);
    [lia..|].
  rewrite Hcells. cbn [mbind res_bind]. eexists. split; [done|]. split.
  - unfold border. rewrite !length_app. f_equal. f_equal.
    apply length_join_eq; [done|].
    apply Forall2_same_length_lookup. split.
    + rewrite length_map. lia.
    + intros j t d Ht Hd.
      change (map (repeat_char chr_minus) widths)
        with (repeat_char chr_minus <$> widths) in Hd.
      rewrite list_lookup_fmap in Hd.
      destruct (widths !! j) as [w|] eqn:Ew; [|done].
      cbn in Hd. injection Hd as <-.
      destruct (row !! j) as [c|] eqn:Ec.
      2:{ apply lookup_ge_None in Ec. apply lookup_lt_Some in Ht. lia. }
      destruct (Hlook j c Ec) as (w' & a & H1 & H2 & H3).
      cbn in H1. rewrite Ew in H1. injection H1 as <-.
      rewrite Ht in H3. injection H3 as ->.
      rewrite length_repeat_char. apply length_pad_any.
      by eapply (Forall_lookup_1 _ _ _ _ Hpos).
  - intros Hnl. unfold no_newline. rewrite !Forall_app.
    split; [by repeat constructor|]. split; [|by repeat constructor].
    apply Forall_join; [by repeat constructor|].
    apply Forall_lookup. intros j t Ht.
    destruct (row !! j) as [c|] eqn:Ec.
    2:{ apply lookup_ge_None in Ec. apply lookup_lt_Some in Ht. lia. }
    destruct (Hlook j c Ec) as (w' & a & H1 & H2 & H3).
    rewrite Ht in H3. injection H3 as ->.
    apply Forall_pad; [done|].
    by eapply (Forall_lookup_1 _ _ _ _ Hnl).
Qed.

Lemma mapM_rows_any widths aligns (rows : list (list cell)) :
  (length widths <= length aligns)%nat ->
  Forall (fun w => 0 <= w) widths ->
  Forall (fun row => length row = length widths) rows ->
  Forall (Forall (fun c => no_newline (str_of c))) rows ->
  exists row_lines,
    mapM (format_row widths aligns) rows = Ok row_lines /\
    length row_lines = length rows /\
    Forall (fun line => length line = length (border widths)) row_lines /\
    Forall no_newline row_lines.
Proof.
  intros Hal Hpos Hrows. induction Hrows as [|row rows Hrow _ IH]; intros Hnl.
  - exists []. split; [done|]. split; [done|]. split; constructor.
  - apply Forall_cons in Hnl as [Hnl1 Hnl].
    destruct (IH Hnl) as (ls & Hls & Hlen & Hsame & Hlsnl).
    destruct (format_row_any widths aligns row Hrow Hal Hpos)
      as (line & Hline & Hlinelen & Hlinenl).
    exists (line :: ls). cbn [mapM]. rewrite Hline. cbn [mbind res_bind].
    fold (mapM (format_row widths aligns) rows). rewrite Hls.
    split; [done|]. split; [cbn; lia|]. split; constructor; auto.
Qed.

Lemma length_join_sum (sep : str) (ps : list str) :
  ps <> [] ->
  len (join sep ps)
  = foldr Z.add 0 (map len ps) + len sep * (len ps - 1).
Proof.
  induction ps as [|p ps IH]; [done|]. intros _.
  destruct ps as [|q ps].
  - cbn. unfold len. cbn. lia.
  - rewrite join_cons2. unfold len in *. rewrite !length_app.
    rewrite Nat2Z.inj_add, Nat2Z.inj_add, IH by done.
    cbn [map foldr length]. lia.
Qed.

(** The table of rows that have a cell for every width. *)
Lemma make_table_any_widths (headers : list str) (rows : list (list cell))
    (widths : list Z) (aligns : option (list str)) :
  Forall (fun w => 0 <= w) widths ->
  length widths = length headers ->
  match aligns with
  | Some a => (length headers <= length a)%nat
  | None => True
  end ->
  Forall (fun row => length row = length headers) rows ->
  Forall no_newline headers ->
  Forall (Forall (fun c => no_newline (str_of c))) rows ->
  exists table,
    make_table headers rows widths aligns = Ok table /\
    length (lines_of table) = (length rows + 4)%nat /\
    Forall (fun line => length line = length (border widths))
           (lines_of table).
Proof.
  intros Hpos Hlw Hal Hrows Hnlh Hnlr.
  unfold make_table, make_table_lines.
  set (als := match aligns with
              | Some a => a
              | None => replicate (length headers) (lit "left")
              end).
  assert (Hla : (length widths <= length als)%nat).
  { subst als. destruct aligns; [lia|]. rewrite length_replicate. lia. }
  destruct (format_row_any widths als (map CStr headers))
    as (hline & Hh & Hhlen & Hhnl); [by rewrite length_map | done | done |].
  destruct (mapM_rows_any widths als rows)
    as (rlines & Hr & Hrlen & Hrsame & Hrnl); [done | done | | done |].
  { eapply Forall_impl; [exact Hrows|]. cbn. intros; lia. }
  rewrite Hh. cbn [mbind res_bind]. rewrite Hr. cbn [mbind res_bind].
  assert (Hhn : no_newline hline).
  { apply Hhnl. apply Forall_forall. intros c Hc.
    change (map CStr headers) with (CStr <$> headers) in Hc.
    apply list_elem_of_fmap in Hc as (h & -> & Hin). cbn.
    by eapply (proj1 (Forall_forall _ _) Hnlh). }
  pose proof (no_newline_border widths) as Hb.
  assert (Hlines :
    lines_of (join [chr_newline]
      ([border widths; hline; border widths] ++ rlines ++ [border widths]))
    = [border widths; hline; border widths] ++ rlines ++ [border widths]).
  { apply lines_of_join; [done|].
    repeat (apply Forall_cons; split; [done|]).
    apply Forall_app. split; [done|].
    constructor; [done | constructor]. }
  eexists. split; [done|]. rewrite Hlines. split.
  - cbn [app length]. rewrite length_app, Hrlen. cbn. lia.
  - repeat (apply Forall_cons; split; [done|]).
    apply Forall_app. split; [done|]. constructor; [done | constructor].
Qed.

(** X8.  [make_table] cuts or pads every cell to the width of its column,
    so for any non-negative widths, one per header, and rows with one cell
    per header (texts without line breaks), the table has one line per row
    plus four and all its lines are as long as the border: the sum of the
    widths plus [3 * columns + 1] characters when there is a column. *)
Theorem make_table_fixed_widths (headers : list str) (rows : list (list cell))
    (widths : list Z) (aligns : option (list str)) :
  Forall (fun w => 0 <= w) widths ->
  length widths = length headers ->
  match aligns with
  | Some a => (length headers <= length a)%nat
  | None => True
  end ->
  Forall (fun row => length row = length headers) rows ->
  Forall no_newline headers ->
  Forall (Forall (fun c => no_newline (str_of c))) rows ->
  exists table,
    make_table headers rows widths aligns = Ok table /\
    length (lines_of table) = (length rows + 4)%nat /\
    Forall (fun line => length line = length (border widths))
           (lines_of table) /\
    (widths <> [] ->
     len (border widths) = foldr Z.add 0 widths + 3 * len widths + 1).
Proof.
  intros Hpos Hlw Hal Hrows Hnlh Hnlr.
  destruct (make_table_any_widths headers rows widths aligns)
    as (table & Htable & Hcount & Hsame); try done.
  exists table. split; [done|]. split; [done|]. split; [done|].
  intros Hne. unfold border. unfold len at 1.
  rewrite !length_app, !Nat2Z.inj_add.
  fold (len (lit "+-")). fold (len (lit "-+")).
  fold (len (join (lit "-+-") (map (repeat_char chr_minus) widths))).
  rewrite length_join_sum by (by destruct widths).
  rewrite map_map.
  assert (Hsum : map (fun w => len (repeat_char chr_minus w)) widths = widths).
  { clear -Hpos. induction Hpos as [|w ws Hw _ IH]; [done|].
    cbn [map]. rewrite IH. f_equal. unfold len.
    rewrite length_repeat_char. lia. }
  rewrite Hsum. unfold len. rewrite length_map. cbn. lia.
Qed.

Lemma make_table_fixed_widths_witness :
  exists table,
    make_table [lit "Airline"; lit "Price"]
               [[CStr (lit "Air Canada"); CStr (lit "523.45")]]
               [4; 8] None = Ok table /\
    length (lines_of table) = (1 + 4)%nat /\
    Forall (fun line => length line = length (border [4; 8]))
           (lines_of table) /\
    ([4; 8] <> [] ->
     len (border [4; 8]) = foldr Z.add 0 [4; 8] + 3 * len [4; 8] + 1).
Proof.
  apply (make_table_fixed_widths [lit "Airline"; lit "Price"]
           [[CStr (lit "Air Canada"); CStr (lit "523.45")]] [4; 8] None).
  - repeat constructor; lia.
  - reflexivity.
  - exact I.
  - repeat constructor.
  - each_elem ltac:(apply Forall_no_newline_dec; reflexivity).
  - each_elem ltac:(each_elem ltac:(apply Forall_no_newline_dec; reflexivity)).
Defined.

(** A row whose cells fit the widths of their columns is shown in full. *)
Lemma format_row_shows widths aligns row :
  (length row <= length widths)%nat ->
  (length row <= length aligns)%nat ->
  (forall j c w, row !! j = Some c -> widths !! j = Some w ->
                 len (str_of c) <= w) ->
  exists line, format_row widths aligns row = Ok line /\ shows_row row line.
Proof.
  intros Hw Ha Hfit. unfold format_row.
  destruct (format_cells_ok widths aligns row 0) as (cells & Hcells & Hlen & Hlook);
    [lia..|].
  rewrite Hcells. cbn [mbind res_bind]. eexists. split; [done|].
  exists cells. split; [done|].
  apply Forall2_same_length_lookup. split; [done|].
  intros j c shown Hc Hshown.
  destruct (Hlook j c Hc) as (w & a & H1 & H2 & H3).
  rewrite Hshown in H3. injection H3 as ->.
  apply pad_fits. by eapply Hfit.
Qed.

(** X9.  With the widths of [auto_column_widths] and a non-negative
    padding nothing is cut: [make_table] returns the border, the header
    line, the border, one line per row and the border again, and the
    header line and every row line show each of their cells in full, with
    spaces only added around the text.  This holds for rows of any length
    up to the number of headers. *)
Theorem make_table_shows_cells (headers : list str) (rows : list (list cell))
    (padding : Z) (aligns : option (list str)) :
  0 <= padding ->
  match aligns with
  | Some a => (length headers <= length a)%nat
  | None => True
  end ->
  Forall (fun row => (length row <= length headers)%nat) rows ->
  let widths := auto_column_widths headers rows padding in
  exists header_line row_lines,
    make_table_lines headers rows widths aligns
    = Ok ([border widths; header_line; border widths] ++ row_lines
          ++ [border widths]) /\
    shows_row (map CStr headers) header_line /\
    Forall2 shows_row rows row_lines.
Proof.
  intros Hpad Hal Hrows widths.
  assert (Hlw : length widths = length headers)
    by apply length_auto_column_widths.
  unfold make_table_lines.
  set (als := match aligns with
              | Some a => a
              | None => replicate (length headers) (lit "left")
              end).
  assert (Hla : (length headers <= length als)%nat).
  { subst als. destruct aligns; [lia|]. rewrite length_replicate. lia. }
  destruct (format_row_shows widths als (map CStr headers))
    as (hline & Hh & Hhshow).
  { rewrite length_map. lia. }
  { rewrite length_map. lia. }
  { intros j c w Hc Hw. apply header_cells_lookup in Hc as (h & Hh & ->).
    apply auto_column_widths_cover in Hw as [(h' & Hh' & Hle) _].
    cbn. rewrite Hh in Hh'. injection Hh' as <-. lia. }
  assert (Hrl : exists rlines,
             mapM (format_row widths als) rows = Ok rlines /\
             Forall2 shows_row rows rlines).
  { assert (Hfit : forall row j c w, row ∈ rows -> row !! j = Some c ->
                     widths !! j = Some w -> len (str_of c) <= w).
    { intros row j c w Hin Hc Hw.
      apply auto_column_widths_cover in Hw as [_ Hcover].
      specialize (Hcover row c Hin Hc). lia. }
    clearbody widths. clear Hh Hhshow.
    induction Hrows as [|row rows Hrow _ IH].
    - exists []. split; [done | constructor].
    - destruct IH as (ls & Hls & Hshow).
      { intros r j c w Hin. apply Hfit. apply elem_of_cons. by right. }
      destruct (format_row_shows widths als row) as (line & Hline & Hlshow);
        [lia | lia | |].
      { intros j c w. apply Hfit. apply elem_of_cons. by left. }
      exists (line :: ls). cbn [mapM]. rewrite Hline. cbn [mbind res_bind].
      fold (mapM (format_row widths als) rows). rewrite Hls.
      split; [done | by constructor]. }
  destruct Hrl as (rlines & Hr & Hshow).
  exists hline, rlines.
  rewrite Hh. cbn [mbind res_bind]. rewrite Hr. done.
Qed.

Lemma make_table_shows_cells_witness :
  let widths := auto_column_widths sample_headers sample_rows 2 in
  exists header_line row_lines,
    make_table_lines sample_headers sample_rows widths None
    = Ok ([border widths; header_line; border widths] ++ row_lines
          ++ [border widths]) /\
    shows_row (map CStr sample_headers) header_line /\
    Forall2 shows_row sample_rows row_lines.
Proof.
  apply (make_table_shows_cells sample_headers sample_rows 2 None).
  - lia.
  - exact I.
  - repeat constructor.
Defined.

(** X10.  [render_ascii_block] adds exactly two lines, a line of three
    backticks before the table and one after it; the lines of the table
    are left as they are. *)
Theorem render_ascii_block_lines (table : str) :
  lines_of (render_ascii_block table)
  = [lit "```"] ++ lines_of table ++ [lit "```"].
Proof.
  unfold render_ascii_block, lines_of.
  change ([chr_newline] ++ table ++ [chr_newline] ++ lit "```")
    with (chr_newline :: (table ++ chr_newline :: lit "```")).
  rewrite split_go_app_sep. f_equal.
  - rewrite split_go_app_sep. done.
Qed.
(** ** Durations: from the ISO text of the payload to minutes *)

(** The text [display_duration] makes of digits, an [H], digits, an [M]
    after the prefix [PT]. *)
Lemma display_duration_digits (dh dm : str) (hs ms : str) :
  Forall is_digit dh -> Forall is_digit dm ->
  (hs = [] \/ hs = lit "H") -> (ms = [] \/ ms = lit "M") ->
  display_duration (JStr (lit "PT" ++ dh ++ hs ++ dm ++ ms))
  = Ok (dh ++ replace (lit "h") (lit "h ") (lower hs) ++ dm ++ lower ms).
Proof.
  intros Hdh Hdm Hhs Hms. unfold display_duration. f_equal.
  assert (HP : ~ is_digit 80%N) by (unfold is_digit; lia).
  assert (Hh : ~ is_digit 104%N) by (unfold is_digit; lia).
  assert (Hm : ~ is_digit 109%N) by (unfold is_digit; lia).
  assert (Hrest : Forall (fun x => x <> 80%N) (dh ++ hs ++ dm ++ ms)).
  { rewrite !Forall_app. split; [by apply digits_avoid|].
    split; [destruct Hhs as [-> | ->]; by repeat constructor|].
    split; [by apply digits_avoid|].
    destruct Hms as [-> | ->]; by repeat constructor. }
  assert (Hpt : replace (lit "PT") (lit "") (lit "PT" ++ dh ++ hs ++ dm ++ ms)
                = dh ++ hs ++ dm ++ ms).
  { change (lit "PT") with [80%N; 84%N]. cbn [app replace replace_go].
    cbn [starts_with]. rewrite !N.eqb_refl. cbn [andb length Nat.sub].
    change (lit "") with (@nil N). cbn [app].
    apply (replace_first_absent 80%N [84%N] [] _ Hrest). }
  rewrite Hpt. rewrite lower_unicode_ascii.
  2:{ rewrite !Forall_app. split; [by apply digits_ascii|].
      split; [destruct Hhs as [-> | ->]; by repeat constructor|].
      split; [by apply digits_ascii|].
      destruct Hms as [-> | ->]; by repeat constructor. }
  unfold lower. rewrite !map_app.
  fold (lower dh) (lower dm) (lower hs) (lower ms).
  rewrite (lower_digits dh), (lower_digits dm) by done.
  change (lit "h") with [104%N]. change (lit "m") with [109%N].
  rewrite !replace_char_app.
  rewrite (replace_char_absent 104%N _ dh) by (by apply digits_avoid).
  rewrite (replace_char_absent 104%N _ dm) by (by apply digits_avoid).
  assert (replace [104%N] (lit "h ") (lower ms) = lower ms) as ->
    by (destruct Hms as [-> | ->]; done).
  by rewrite !replace_char_same.
Qed.

(** The parser looks at its argument in lower case and without spaces. *)
Lemma parse_duration_normal (s s' : str) :
  replace (lit " ") (lit "") (lower s) = replace (lit " ") (lit "") (lower s') ->
  parse_duration_to_minutes s = parse_duration_to_minutes s'.
Proof. unfold parse_duration_to_minutes. by intros ->. Qed.

(** X11.  The duration text [extract_flights] makes of an ISO duration
    reads back as the minutes of that duration: ["PT<h>H<m>M"] becomes
    ["<h>h <m>m"] and parses to [h * 60 + m]; ["PT<h>H"] becomes ["<h>h "]
    and parses to [h * 60]; ["PT<m>M"] becomes ["<m>m"] and parses to
    [m]. *)
Theorem iso_duration_minutes (h m : Z) :
  0 <= h -> 0 <= m ->
  (display_duration
     (JStr (lit "PT" ++ str_of_int h ++ lit "H" ++ str_of_int m ++ lit "M"))
   = Ok (render_duration h m) /\
   parse_duration_to_minutes (render_duration h m) = Ok (h * 60 + m)) /\
  (display_duration (JStr (lit "PT" ++ str_of_int h ++ lit "H"))
   = Ok (str_of_int h ++ lit "h ") /\
   parse_duration_to_minutes (str_of_int h ++ lit "h ") = Ok (h * 60)) /\
  (display_duration (JStr (lit "PT" ++ str_of_int m ++ lit "M"))
   = Ok (str_of_int m ++ lit "m") /\
   parse_duration_to_minutes (str_of_int m ++ lit "m") = Ok m).
Proof.
  intros Hh Hm. unfold render_duration, str_of_int.
  assert ((h <? 0) = false) as -> by (apply Z.ltb_ge; lia).
  assert ((m <? 0) = false) as -> by (apply Z.ltb_ge; lia).
  destruct (digits_spec h Hh) as (Hne1 & Hall1 & _).
  destruct (digits_spec m Hm) as (Hne2 & Hall2 & _).
  pose proof (int_digits_roundtrip h Hh) as Hih.
  pose proof (int_digits_roundtrip m Hm) as Him.
  split; [|split].
  - split; [|by apply parse_digits_h_digits_m].
    rewrite (display_duration_digits (digits h) (digits m) (lit "H") (lit "M"))
      by (done || by right).
    done.
  - split.
    + pose proof (display_duration_digits (digits h) [] (lit "H") []
                    Hall1 ltac:(constructor) ltac:(by right) ltac:(by left))
        as H.
      rewrite !app_nil_r in H. cbn [app] in H. by rewrite H.
    + rewrite (parse_duration_normal _ (digits h ++ lit "h")).
      * by apply parse_digits_h.
      * unfold lower. rewrite !map_app.
        change (lit " ") with [32%N]. rewrite !replace_char_app. done.
  - split; [|by apply parse_digits_m].
    pose proof (display_duration_digits [] (digits m) [] (lit "M")
                  ltac:(constructor) Hall2 ltac:(by left) ltac:(by right))
      as H.
    cbn [app] in H. by rewrite H.
Qed.

Lemma iso_duration_minutes_witness :
  (display_duration (JStr (lit "PT" ++ str_of_int 17 ++ lit "H"
                           ++ str_of_int 50 ++ lit "M"))
   = Ok (render_duration 17 50) /\
   parse_duration_to_minutes (render_duration 17 50) = Ok (17 * 60 + 50)) /\
  (display_duration (JStr (lit "PT" ++ str_of_int 17 ++ lit "H"))
   = Ok (str_of_int 17 ++ lit "h ") /\
   parse_duration_to_minutes (str_of_int 17 ++ lit "h ") = Ok (17 * 60)) /\
  (display_duration (JStr (lit "PT" ++ str_of_int 50 ++ lit "M"))
   = Ok (str_of_int 50 ++ lit "m") /\
   parse_duration_to_minutes (str_of_int 50 ++ lit "m") = Ok 50).
Proof. apply (iso_duration_minutes 17 50); lia. Defined.

(** X12.  A duration of a day or more, ["P<d>DT<h>H<m>M"] in the
    payload, is not understood: [extract_flights] turns it into the text
    ["p<d>dt<h>h <m>m"], on which [parse_duration_to_minutes] raises
    [ValueError], so [compute_best_day] raises [ValueError] for any list of
    days whose first day starts with such a flight. *)
Theorem day_long_duration_rejected (d h m : Z) :
  0 <= d -> 0 <= h -> 0 <= m ->
  let text := lit "p" ++ str_of_int d ++ lit "dt" ++ str_of_int h ++ lit "h "
              ++ str_of_int m ++ lit "m" in
  display_duration
    (JStr (lit "P" ++ str_of_int d ++ lit "DT" ++ str_of_int h ++ lit "H"
           ++ str_of_int m ++ lit "M")) = Ok text /\
  parse_duration_to_minutes text = Raise ValueError /\
  forall f fs date days,
    duration f = text ->
    compute_best_day ({| date := date; flights := f :: fs |} :: days)
    = Raise ValueError.
Proof.
  intros Hd Hh Hm text. subst text. unfold str_of_int.
  assert ((d <? 0) = false) as -> by (apply Z.ltb_ge; lia).
  assert ((h <? 0) = false) as -> by (apply Z.ltb_ge; lia).
  assert ((m <? 0) = false) as -> by (apply Z.ltb_ge; lia).
  destruct (digits_spec d Hd) as (Hned & Halld & _).
  destruct (digits_spec h Hh) as (Hneh & Hallh & _).
  destruct (digits_spec m Hm) as (Hnem & Hallm & _).
  set (D := digits d) in *. set (H := digits h) in *. set (M := digits m) in *.
  assert (HP : ~ is_digit 80%N) by (unfold is_digit; lia).
  assert (HT : ~ is_digit 84%N) by (unfold is_digit; lia).
  assert (Hhh : ~ is_digit 104%N) by (unfold is_digit; lia).
  assert (Hmm : ~ is_digit 109%N) by (unfold is_digit; lia).
  assert (Hss : ~ is_digit 32%N) by (unfold is_digit; lia).
  assert (Hparse :
    parse_duration_to_minutes
      (lit "p" ++ D ++ lit "dt" ++ H ++ lit "h " ++ M ++ lit "m")
    = Raise ValueError).
  { unfold parse_duration_to_minutes.
    change (lit "p") with [112%N]. change (lit "dt") with [100%N; 116%N].
    change (lit "h ") with [104%N; 32%N]. change (lit "m") with [109%N].
    change (lit "h") with [104%N]. change (lit " ") with [32%N].
    change (lit "") with (@nil N).
    unfold lower. rewrite !map_app. fold (lower D) (lower H) (lower M).
    rewrite (lower_digits D), (lower_digits H), (lower_digits M) by done.
    cbn [map]. change (lower_char 112) with 112%N.
    change (lower_char 100) with 100%N. change (lower_char 116) with 116%N.
    change (lower_char 104) with 104%N. change (lower_char 32) with 32%N.
    change (lower_char 109) with 109%N.
    rewrite !replace_char_app.
    rewrite (replace_char_absent _ _ D) by (by apply digits_avoid).
    rewrite (replace_char_absent _ _ H) by (by apply digits_avoid).
    rewrite (replace_char_absent _ _ M) by (by apply digits_avoid).
    change (replace [32%N] [] [112%N]) with [112%N].
    change (replace [32%N] [] [100%N; 116%N]) with [100%N; 116%N].
    change (replace [32%N] [] [104%N; 32%N]) with [104%N].
    change (replace [32%N] [] [109%N]) with [109%N].
    replace ([112%N] ++ D ++ [100%N; 116%N] ++ H ++ [104%N] ++ M ++ [109%N])
      with (([112%N] ++ D ++ [100%N; 116%N] ++ H) ++ 104%N :: (M ++ [109%N]))
      by (by rewrite <- !app_assoc).
    rewrite contains_char_app. cbn [split mbind res_bind].
    rewrite split_go_char_first.
    2:{ rewrite !Forall_app. split; [by repeat constructor|].
        split; [by apply digits_avoid|].
        split; [by repeat constructor | by apply digits_avoid]. }
    cbn [index lookup list_lookup rev app mbind res_bind].
    rewrite int_bad_start; done. }
  split; [|split; [exact Hparse|]].
  - unfold display_duration. f_equal.
    assert (Hpt : replace (lit "PT") (lit "")
                    (lit "P" ++ D ++ lit "DT" ++ H ++ lit "H" ++ M ++ lit "M")
                  = lit "P" ++ D ++ lit "DT" ++ H ++ lit "H" ++ M ++ lit "M").
    { change (lit "PT") with [80%N; 84%N]. change (lit "P") with [80%N].
      set (rest := D ++ lit "DT" ++ H ++ lit "H" ++ M ++ lit "M").
      assert (Hrest : Forall (fun x => x <> 80%N) rest).
      { subst rest. rewrite !Forall_app.
        split; [by apply digits_avoid|]. split; [by repeat constructor|].
        split; [by apply digits_avoid|]. split; [by repeat constructor|].
        split; [by apply digits_avoid | by repeat constructor]. }
      assert (Hstart : starts_with [80%N; 84%N] (80%N :: rest) = false).
      { subst rest. destruct D as [|d0 D']; [done|].
        apply Forall_cons in Halld as [Hd0 _]. cbn [app starts_with].
        assert ((84 =? d0)%N = false) as ->
          by (apply N.eqb_neq; intros <-; by apply HT).
        by rewrite andb_false_r. }
      change ([80%N] ++ rest) with (80%N :: rest).
      change (replace [80%N; 84%N] (lit "") (80%N :: rest))
        with (replace_go [80%N; 84%N] (lit "") 0 (80%N :: rest)).
      rewrite replace_go_miss by done. f_equal.
      apply (replace_first_absent 80%N [84%N] _ _ Hrest). }
    rewrite Hpt. rewrite lower_unicode_ascii.
    2:{ rewrite !Forall_app. split; [by repeat constructor|].
        split; [by apply digits_ascii|]. split; [by repeat constructor|].
        split; [by apply digits_ascii|]. split; [by repeat constructor|].
        split; [by apply digits_ascii | by repeat constructor]. }
    unfold lower. rewrite !map_app.
    fold (lower D) (lower H) (lower M).
    rewrite (lower_digits D), (lower_digits H), (lower_digits M) by done.
    change (lit "h") with [104%N]. change (lit "m") with [109%N].
    rewrite !replace_char_app.
    rewrite (replace_char_absent 104%N _ D) by (by apply digits_avoid).
    rewrite (replace_char_absent 104%N _ H) by (by apply digits_avoid).
    rewrite (replace_char_absent 104%N _ M) by (by apply digits_avoid).
    by rewrite !replace_char_same.
  - intros f fs date days Hf. unfold compute_best_day.
    assert (Hn : normalize f = Raise ValueError)
      by (unfold normalize; by rewrite Hf, Hparse).
    cbn [rank_days]. unfold rank_day. cbn [flights mapM].
    by rewrite Hn.
Qed.

Lemma day_long_duration_rejected_witness :
  display_duration (JStr (lit "P" ++ str_of_int 1 ++ lit "DT" ++ str_of_int 2
                          ++ lit "H" ++ str_of_int 30 ++ lit "M"))
  = Ok (lit "p1dt2h 30m") /\
  parse_duration_to_minutes (lit "p1dt2h 30m") = Raise ValueError /\
  forall f fs date days,
    duration f = lit "p1dt2h 30m" ->
    compute_best_day ({| date := date; flights := f :: fs |} :: days)
    = Raise ValueError.
Proof. apply (day_long_duration_rejected 1 2 30); lia. Defined.
(** ** Ranking engine: the other categories, errors, presence *)

(** All parts of one iteration over a day that has records. *)
Lemma rank_day_inv_all acc d acc' :
  flights d <> [] ->
  rank_day acc d = Ok acc' ->
  exists nfs cf df lf new,
    mapM normalize (flights d) = Ok nfs /\
    index (sorted_by price_val nfs) 0 = Ok cf /\
    index (sorted_by_int duration_val nfs) 0 = Ok df /\
    index (sorted_by layover_val nfs) 0 = Ok lf /\
    mapM (scored_of (date d)) nfs = Ok new /\
    rk_cheapest acc' =
      match rk_cheapest acc with
      | None => Some (best_day_of (date d) cf)
      | Some c =>
          if (price_val cf <? bd_price c)%float
          then Some (best_day_of (date d) cf) else Some c
      end /\
    rk_shortest_duration acc' =
      match rk_shortest_duration acc with
      | None => Some (best_duration_of (date d) df)
      | Some c =>
          if duration_val df <? bu_duration_minutes c
          then Some (best_duration_of (date d) df) else Some c
      end /\
    rk_shortest_layover acc' =
      match rk_shortest_layover acc with
      | None => Some (best_day_of (date d) lf)
      | Some c =>
          if (layover_val lf <? bd_layover_hours c)%float
          then Some (best_day_of (date d) lf) else Some c
      end /\
    rk_scored_flights acc' = rk_scored_flights acc ++ new.
Proof.
  intros Hne H. unfold rank_day in H. destruct (flights d) as [|f fs]; [done|].
  apply bind_ok_inv in H as (nfs & Hnfs & H).
  apply bind_ok_inv in H as (cf & Hcf & H).
  apply bind_ok_inv in H as (df & Hdf & H).
  apply bind_ok_inv in H as (lf & Hlf & H).
  apply bind_ok_inv in H as (new & Hnew & H).
  injection H as <-. by exists nfs, cf, df, lf, new.
Qed.

Lemma normalize_all_duration fs nfs :
  mapM normalize fs = Ok nfs ->
  (forall nf, nf ∈ nfs ->
     nf_flight nf ∈ fs /\
     parse_duration_to_minutes (duration (nf_flight nf))
     = Ok (duration_val nf)) /\
  (forall f, f ∈ fs ->
     exists nf, nf ∈ nfs /\ nf_flight nf = f /\
                parse_duration_to_minutes (duration f) = Ok (duration_val nf) /\
                layover_val nf = layover_hours f).
Proof.
  intros H. apply mapM_res_inv in H.
  induction H as [|f nf fs nfs Hf _ [IH1 IH2]].
  - split; intros x Hx; by apply elem_of_nil in Hx.
  - apply normalize_inv in Hf as (Hfl & Hp & Hl & Hd). split.
    + intros x Hx. apply elem_of_cons in Hx as [->|Hx].
      * rewrite Hfl. split; [apply elem_of_cons; by left | done].
      * destruct (IH1 x Hx) as [H1 H2]. split; [|done].
        apply elem_of_cons. by right.
    + intros x Hx. apply elem_of_cons in Hx as [->|Hx].
      * exists nf. split; [apply elem_of_cons; by left | done].
      * destruct (IH2 x Hx) as (nf' & H1 & H2). exists nf'.
        split; [apply elem_of_cons; by right | done].
Qed.

(** The head of a list sorted by an integer key has the least key. *)
Lemma sorted_by_int_head {A} (key : A -> Z) (l : list A) (m : A) :
  index (sorted_by_int key l) 0 = Ok m ->
  m ∈ l /\ forall x, x ∈ l -> key m <= key x.
Proof.
  intros H. unfold sorted_by_int in H.
  apply (sorted_with_head (fun a b => key a <? key b) (fun _ => True)) in H.
  - destruct H as [Hin Hmin]. split; [done|].
    intros x Hx. specialize (Hmin x Hx). lia.
  - intros x. lia.
  - intros x y z. lia.
  - intros x y z _. lia.
  - by apply Forall_forall.
Qed.

Lemma first_shortest_duration_skip days c d :
  flights d = [] -> first_shortest_duration days c ->
  first_shortest_duration (days ++ [d]) c.
Proof.
  intros Hd (before & d0 & after & f & -> & Hf & H1 & H2 & H3 & H4 & H5 & H6
             & H7 & Hb & Ha).
  exists before, d0, (after ++ [d]), f.
  split; [by rewrite <- app_assoc|]. repeat (split; [done|]).
  intros d' f' m' Hd' Hf'. rewrite app_comm_cons in Hd'.
  apply elem_of_app in Hd' as [Hd'|Hd']; [by eapply Ha|].
  apply list_elem_of_singleton in Hd' as ->. rewrite Hd in Hf'.
  by apply elem_of_nil in Hf'.
Qed.

(** One day keeps the description of the shortest-duration entry. *)
Lemma rank_day_shortest_duration days acc d acc' :
  shortest_duration_spec days (rk_shortest_duration acc) ->
  rank_day acc d = Ok acc' ->
  shortest_duration_spec (days ++ [d]) (rk_shortest_duration acc').
Proof.
  intros Hspec Hstep.
  destruct (flights d) as [|f0 fs0] eqn:Hfl.
  - rewrite rank_day_empty in Hstep by done. injection Hstep as <-.
    destruct (rk_shortest_duration acc) as [c|];
      cbn [shortest_duration_spec] in *.
    + by apply first_shortest_duration_skip.
    + rewrite all_records_snoc, Hspec, Hfl. done.
  - apply rank_day_inv_all in Hstep
      as (nfs & _ & df & _ & _ & Hn & _ & Hdf & _ & _ & _ & Hsd & _);
      [|by rewrite Hfl].
    clear Hfl f0 fs0.
    destruct (normalize_all_duration _ _ Hn) as [Hnf1 Hnf2].
    apply sorted_by_int_head in Hdf as [Hdf_in Hdf_min].
    destruct (Hnf1 df Hdf_in) as (Hdf_fl & Hdf_d).
    assert (Hmin : forall d' f' m', d' ∈ [d] -> f' ∈ flights d' ->
                     parse_duration_to_minutes (duration f') = Ok m' ->
                     duration_val df <= m').
    { intros d' f' m' Hd' Hf' Hm'. apply list_elem_of_singleton in Hd' as ->.
      destruct (Hnf2 f' Hf') as (nf & Hnf & _ & Hp & _).
      rewrite Hp in Hm'. injection Hm' as <-. by apply Hdf_min. }
    rewrite Hsd.
    destruct (rk_shortest_duration acc) as [c|] eqn:Hc;
      cbn [shortest_duration_spec] in Hspec.
    + destruct Hspec as (before & d0 & after & f & -> & Hf & Hdate & Hpf
                         & Hr1 & Hr2 & Hr3 & Hr4 & Hr5 & Hb & Ha).
      destruct (duration_val df <? bu_duration_minutes c) eqn:Hlt;
        cbn [shortest_duration_spec].
      * apply Z.ltb_lt in Hlt.
        exists (before ++ d0 :: after), d, [], (nf_flight df).
        cbn [best_duration_of bu_date bu_price bu_airline bu_duration
             bu_duration_minutes bu_layover_city bu_layover_hours].
        destruct (normalize_all_inv _ _ Hn) as [Hq1 _].
        destruct (Hq1 df Hdf_in) as (_ & Hdf_p & Hdf_l).
        split; [done|]. split; [done|]. do 7 (split; [done|]).
        split; [|done].
        intros d' f' m' Hd' Hf' Hm'.
        apply elem_of_app in Hd' as [Hd'|Hd'].
        -- specialize (Hb d' f' m' Hd' Hf' Hm'). lia.
        -- specialize (Ha d' f' m' Hd' Hf' Hm'). lia.
      * apply Z.ltb_ge in Hlt.
        exists before, d0, (after ++ [d]), f.
        split; [by rewrite <- app_assoc|]. repeat (split; [done|]).
        intros d' f' m' Hd' Hf' Hm'. rewrite app_comm_cons in Hd'.
        apply elem_of_app in Hd' as [Hd'|Hd']; [by eapply Ha|].
        specialize (Hmin d' f' m' Hd' Hf' Hm'). lia.
    + cbn [shortest_duration_spec].
      exists days, d, [], (nf_flight df).
      cbn [best_duration_of bu_date bu_price bu_airline bu_duration
           bu_duration_minutes bu_layover_city bu_layover_hours].
      destruct (normalize_all_inv _ _ Hn) as [Hq1 _].
      destruct (Hq1 df Hdf_in) as (_ & Hdf_p & Hdf_l).
      split; [done|]. split; [done|]. do 7 (split; [done|]).
      split; [|done].
      intros d' f' m' Hd' Hf'.
      assert (Hrec : (date d', f') ∈ all_records days)
        by (apply elem_of_all_records; by exists d').
      rewrite Hspec in Hrec. by apply elem_of_nil in Hrec.
Qed.

Lemma rank_days_shortest_duration days : forall r,
  rank_days empty_ranking days = Ok r ->
  shortest_duration_spec days (rk_shortest_duration r).
Proof.
  induction days as [|d days IH] using rev_ind; intros r Hr.
  - injection Hr as <-. done.
  - rewrite rank_days_snoc in Hr. apply bind_ok_inv in Hr as (r0 & Hr0 & Hd).
    apply (rank_day_shortest_duration days r0 d r); [|done]. by apply IH.
Qed.

(** X13.  Whenever [compute_best_day] returns, its shortest-duration entry
    describes a record of the first day that holds the minimum duration in
    minutes over all records of all days: a later day replaces the entry
    only when it is strictly shorter.  There is no entry exactly when no
    day has a record.  It returns when every record can be scored.  For
    the days lasting [5h; 3h], [3h], [4h] the entry is the first day's
    second flight. *)
Theorem shortest_duration_first_global_minimum :
  (forall days s,
     compute_best_day days = Ok s ->
     shortest_duration_spec days (shortest_duration s)) /\
  (forall days,
     Forall (fun r => is_ok (record_score r.2) = true) (all_records days) ->
     exists s, compute_best_day days = Ok s) /\
  (exists s,
     compute_best_day timed_days = Ok s /\
     bu_date <$> shortest_duration s = Some (lit "2026-03-20") /\
     bu_airline <$> shortest_duration s = Some (lit "B") /\
     bu_duration_minutes <$> shortest_duration s = Some 180).
Proof.
  split; [|split].
  - intros days s Hs. unfold compute_best_day in Hs.
    apply bind_ok_inv in Hs as (r & Hr & Hs). injection Hs as <-.
    cbn [shortest_duration]. by apply rank_days_shortest_duration.
  - intros days Hall.
    destruct (rank_days_total days empty_ranking Hall) as (r & Hr).
    unfold compute_best_day. rewrite Hr. cbn [mbind res_bind]. by eexists.
  - eexists. split; [by vm_compute|]. split; [|split]; by vm_compute.
Qed.

Lemma first_shortest_layover_skip days c d :
  flights d = [] -> first_shortest_layover days c ->
  first_shortest_layover (days ++ [d]) c.
Proof.
  intros Hd (before & d0 & after & f & -> & Hf & H1 & H2 & H3 & H4 & H5 & Hb & Ha).
  exists before, d0, (after ++ [d]), f.
  split; [by rewrite <- app_assoc|]. repeat (split; [done|]).
  intros d' f' Hd' Hf'. rewrite app_comm_cons in Hd'.
  apply elem_of_app in Hd' as [Hd'|Hd']; [by eapply Ha|].
  apply list_elem_of_singleton in Hd' as ->. rewrite Hd in Hf'.
  by apply elem_of_nil in Hf'.
Qed.

(** One day keeps the description of the shortest-layover entry. *)
Lemma rank_day_shortest_layover days acc d acc' :
  Forall (fun r => not_nan (layover_hours r.2)) (all_records (days ++ [d])) ->
  shortest_layover_spec days (rk_shortest_layover acc) ->
  rank_day acc d = Ok acc' ->
  shortest_layover_spec (days ++ [d]) (rk_shortest_layover acc').
Proof.
  intros Hnn Hspec Hstep.
  assert (Hnum : forall d' f', d' ∈ days ++ [d] -> f' ∈ flights d' ->
                               not_nan (layover_hours f')).
  { intros d' f' Hd' Hf'.
    apply (proj1 (Forall_forall _ _) Hnn (date d', f')).
    apply elem_of_all_records. by exists d'. }
  destruct (flights d) as [|f0 fs0] eqn:Hfl.
  - rewrite rank_day_empty in Hstep by done. injection Hstep as <-.
    destruct (rk_shortest_layover acc) as [c|];
      cbn [shortest_layover_spec] in *.
    + by apply first_shortest_layover_skip.
    + rewrite all_records_snoc, Hspec, Hfl. done.
  - apply rank_day_inv_all in Hstep
      as (nfs & _ & _ & lf & _ & Hn & _ & _ & Hlf & _ & _ & _ & Hsl & _);
      [|by rewrite Hfl].
    clear Hfl f0 fs0.
    destruct (normalize_all_inv _ _ Hn) as [Hnf1 _].
    destruct (normalize_all_duration _ _ Hn) as [_ Hnf2].
    assert (Hd_in : d ∈ days ++ [d])
      by (apply elem_of_app; right; by apply list_elem_of_singleton).
    apply sorted_by_head in Hlf as [Hlf_in Hlf_min].
    2:{ apply Forall_forall. intros nf Hnf.
        destruct (Hnf1 nf Hnf) as (Hin & _ & ->). by eapply Hnum. }
    destruct (Hnf1 lf Hlf_in) as (Hlf_fl & Hlf_p & Hlf_l).
    assert (Hlf_num : not_nan (layover_val lf))
      by (rewrite Hlf_l; by eapply Hnum).
    assert (Hmin : forall d' f', d' ∈ [d] -> f' ∈ flights d' ->
                     (layover_hours f' <? layover_val lf)%float = false).
    { intros d' f' Hd' Hf'. apply list_elem_of_singleton in Hd' as ->.
      destruct (Hnf2 f' Hf') as (nf & Hnf & _ & _ & Hl).
      rewrite <- Hl. by apply Hlf_min. }
    rewrite Hsl.
    destruct (rk_shortest_layover acc) as [c|] eqn:Hc;
      cbn [shortest_layover_spec] in Hspec.
    + destruct Hspec as (before & d0 & after & f & -> & Hf & Hdate & Hpf
                         & Hr1 & Hr2 & Hr3 & Hb & Ha).
      destruct (layover_val lf <? bd_layover_hours c)%float eqn:Hlt;
        cbn [shortest_layover_spec].
      * exists (before ++ d0 :: after), d, [], (nf_flight lf).
        cbn [best_day_of bd_date bd_price bd_airline bd_layover_city
             bd_layover_hours].
        split; [done|]. split; [done|]. do 5 (split; [done|]).
        split; [|done].
        intros d' f' Hd' Hf'.
        assert (Hnf' : not_nan (layover_hours f')).
        { apply (Hnum d' f'); [|done]. apply elem_of_app. by left. }
        apply elem_of_app in Hd' as [Hd'|Hd'].
        -- eapply float_lt_trans; [exact Hlt|]. by eapply Hb.
        -- destruct (layover_val lf <? layover_hours f')%float eqn:E; [done|].
           rewrite <- Hlt. symmetry.
           apply (float_lt_incomparable_trans _ (layover_hours f') _);
             [done | done | by eapply Ha].
      * exists before, d0, (after ++ [d]), f.
        split; [by rewrite <- app_assoc|]. repeat (split; [done|]).
        intros d' f' Hd' Hf'. rewrite app_comm_cons in Hd'.
        apply elem_of_app in Hd' as [Hd'|Hd']; [by eapply Ha|].
        apply (float_lt_incomparable_trans _ (layover_val lf) _);
          [done | by eapply Hmin | done].
    + cbn [shortest_layover_spec].
      exists days, d, [], (nf_flight lf).
      cbn [best_day_of bd_date bd_price bd_airline bd_layover_city
           bd_layover_hours].
      split; [done|]. split; [done|]. do 5 (split; [done|]).
      split; [|done].
      intros d' f' Hd' Hf'.
      assert (Hrec : (date d', f') ∈ all_records days)
        by (apply elem_of_all_records; by exists d').
      rewrite Hspec in Hrec. by apply elem_of_nil in Hrec.
Qed.

Lemma rank_days_shortest_layover days : forall r,
  Forall (fun rec => not_nan (layover_hours rec.2)) (all_records days) ->
  rank_days empty_ranking days = Ok r ->
  shortest_layover_spec days (rk_shortest_layover r).
Proof.
  induction days as [|d days IH] using rev_ind; intros r Hnn Hr.
  - injection Hr as <-. done.
  - rewrite rank_days_snoc in Hr. apply bind_ok_inv in Hr as (r0 & Hr0 & Hd).
    apply (rank_day_shortest_layover days r0 d r); [done| |done].
    apply IH; [|done]. rewrite all_records_snoc in Hnn.
    by apply Forall_app in Hnn as [Hnn _].
Qed.

(** X14.  When every record can be scored and every layover is a number,
    [compute_best_day] returns and its shortest-layover entry describes a
    record of the first day that holds the minimum layover over all
    records of all days; a direct flight, whose layover is [0.0], counts
    as the shortest.  There is no entry exactly when no day has a record.
    For the days with layovers [2.5; 1.5], [1.5], [0.5] the entry is the
    third day's. *)
Theorem shortest_layover_first_global_minimum :
  (forall days,
     Forall layover_known (all_records days) ->
     exists s,
       compute_best_day days = Ok s /\
       shortest_layover_spec days (shortest_layover s)) /\
  (exists s,
     compute_best_day timed_days = Ok s /\
     bd_date <$> shortest_layover s = Some (lit "2026-03-22") /\
     bd_layover_hours <$> shortest_layover s = Some 0.5%float).
Proof.
  split.
  - intros days Hall.
    destruct (rank_days_total days empty_ranking) as (r & Hr).
    { eapply Forall_impl; [exact Hall|]. by intros rec [Hok _]. }
    unfold compute_best_day. rewrite Hr. cbn [mbind res_bind].
    eexists. split; [done|]. cbn [shortest_layover].
    apply rank_days_shortest_layover; [|done].
    eapply Forall_impl; [exact Hall|]. by intros rec [_ Hnn].
  - eexists. split; [by vm_compute|]. split; by vm_compute.
Qed.

(** *** Which exceptions the ranking raises *)

Lemma mapM_res_raise_inv {A B} (f : A -> res B) (l : list A) (e : exn) :
  mapM f l = Raise e -> exists x, x ∈ l /\ f x = Raise e.
Proof.
  induction l as [|x l IH]; intros H; [done|].
  cbn [mapM] in H. fold (mapM f l) in H.
  destruct (f x) as [y|e'] eqn:Hx.
  - cbn [mbind res_bind] in H. destruct (mapM f l) as [ys|e'] eqn:Hl; [done|].
    cbn [mbind res_bind] in H. injection H as ->.
    destruct (IH eq_refl) as (x' & Hin & Hx').
    exists x'. split; [apply elem_of_cons; by right | done].
  - cbn [mbind res_bind] in H. injection H as ->.
    exists x. split; [apply elem_of_cons; by left | done].
Qed.

Lemma contains_char_split c s :
  contains [c] s = true ->
  exists a b, s = a ++ c :: b /\ Forall (fun x => x <> c) a.
Proof.
  induction s as [|x s IH]; intros H; [done|].
  cbn [contains] in H. rewrite starts_with_char in H.
  destruct (c =? x)%N eqn:Hx.
  - apply N.eqb_eq in Hx as ->. by exists [], s.
  - apply N.eqb_neq in Hx. destruct (IH H) as (a & b & -> & Ha).
    exists (x :: a), b. split; [done|]. constructor; [congruence | done].
Qed.

Lemma int_raises s e : int s = Raise e -> e = ValueError.
Proof.
  unfold int. destruct (strip_by is_int_space s) as [|c rest].
  - destruct (int_digits 0 false []); [done | by intros [= <-]].
  - destruct (c =? chr_minus)%N; [|destruct (c =? chr_plus)%N];
      match goal with
      | |- context [int_digits 0 false ?ds] => destruct (int_digits 0 false ds)
      end; done || by intros [= <-].
Qed.

(** The pieces of a text that contains the separator: at least two. *)
Lemma split_char_two c s :
  contains [c] s = true ->
  exists a b rest, split [c] s = Ok (a :: b :: rest).
Proof.
  intros H. destruct (contains_char_split c s H) as (a & b & -> & Ha).
  cbn [split]. rewrite split_go_char_first by done.
  destruct (split_go [c] 0 [] b) as [|p rest] eqn:Hb.
  - by apply split_go_nonempty in Hb.
  - by exists (rev [] ++ a), p, rest.
Qed.

(** [parse_duration_to_minutes] raises nothing but [ValueError]: the two
    pieces it indexes are there whenever the unit letter is. *)
Lemma parse_duration_raises s e :
  parse_duration_to_minutes s = Raise e -> e = ValueError.
Proof.
  unfold parse_duration_to_minutes.
  set (parts := replace (lit " ") (lit "") (lower s)).
  change (lit "h") with [104%N]. change (lit "m") with [109%N].
  assert (Hunit : forall (p : str),
            (exists n, (match p with [] => Ok 0 | _ :: _ => int p end) = Ok n)
            \/ (match p with [] => Ok 0 | _ :: _ => int p end)
               = Raise ValueError).
  { intros [|c p]; [left; by exists 0|].
    destruct (int (c :: p)) as [n|e'] eqn:Hi; [left; by exists n|].
    right. by rewrite (int_raises _ _ Hi). }
  assert (Hmin : forall (p : str) (hours : Z),
            (if contains [109%N] p
             then pieces ← split [109%N] p;
                  m ← index pieces 0;
                  match m with [] => Ok 0 | _ :: _ => int m end
             else Ok 0) ≫= (fun minutes => Ok (hours * 60 + minutes))
            = Raise e -> e = ValueError).
  { intros p hours. destruct (contains [109%N] p) eqn:Hm; [|done].
    destruct (split_char_two _ _ Hm) as (a & b & rest & ->).
    cbn [mbind res_bind index lookup list_lookup].
    destruct (Hunit a) as [[n ->] | ->]; [done | by intros [= <-]]. }
  destruct (contains [104%N] parts) eqn:Hh.
  - destruct (split_char_two _ _ Hh) as (a & b & rest & ->).
    cbn [mbind res_bind index lookup list_lookup].
    destruct (Hunit a) as [[n ->] | ->]; [|by intros [= <-]].
    cbn [mbind res_bind]. apply Hmin.
  - cbn [mbind res_bind]. apply Hmin.
Qed.

Lemma rank_day_raises acc d e :
  rank_day acc d = Raise e -> e = ValueError \/ e = OverflowError.
Proof.
  unfold rank_day. destruct (flights d) as [|f fs] eqn:Hfl; [done|].
  rewrite <- Hfl. intros H.
  destruct (mapM normalize (flights d)) as [nfs|e'] eqn:Hn.
  2:{ cbn [mbind res_bind] in H. injection H as ->.
      apply mapM_res_raise_inv in Hn as (x & _ & Hx).
      unfold normalize in Hx.
      destruct (parse_duration_to_minutes (duration x)) as [m|e'] eqn:Hp;
        [done|].
      cbn [mbind res_bind] in Hx. injection Hx as ->.
      left. by eapply parse_duration_raises. }
  cbn [mbind res_bind] in H.
  assert (Hne : nfs <> []).
  { apply mapM_res_inv, Forall2_length in Hn. rewrite Hfl in Hn.
    by destruct nfs. }
  destruct (index_0_nonempty (sorted_by price_val nfs)) as (cf & Hcf);
    [by apply sorted_with_nonempty|].
  destruct (index_0_nonempty (sorted_by_int duration_val nfs)) as (df & Hdf);
    [by apply sorted_with_nonempty|].
  destruct (index_0_nonempty (sorted_by layover_val nfs)) as (lf & Hlf);
    [by apply sorted_with_nonempty|].
  rewrite Hcf, Hdf, Hlf in H. cbn [mbind res_bind] in H.
  destruct (mapM (scored_of (date d)) nfs) as [new|e'] eqn:Hs; [done|].
  cbn [mbind res_bind] in H. injection H as ->.
  apply mapM_res_raise_inv in Hs as (x & _ & Hx).
  unfold scored_of, score_of, float_of_int in Hx. right.
  destruct (PrimFloat.is_infinity _); [|done].
  cbn [mbind res_bind] in Hx. by injection Hx as <-.
Qed.

Lemma rank_days_raises days : forall acc e,
  rank_days acc days = Raise e -> e = ValueError \/ e = OverflowError.
Proof.
  induction days as [|d days IH]; intros acc e H; [done|].
  cbn [rank_days] in H. destruct (rank_day acc d) as [acc'|e'] eqn:Hd.
  - cbn [mbind res_bind] in H. by eapply IH.
  - cbn [mbind res_bind] in H. injection H as ->. by eapply rank_day_raises.
Qed.

(** X15.  [compute_best_day] returns exactly when every record of every
    day can be scored, that is when its duration can be parsed and the
    minutes fit a float; otherwise it raises, and what it raises is the
    [ValueError] of an unreadable duration or the [OverflowError] of the
    conversion, never an index or key error. *)
Theorem compute_best_day_errors (days : list day) :
  (is_ok (compute_best_day days) = true <->
   Forall (fun r => is_ok (record_score r.2) = true) (all_records days)) /\
  (forall e, compute_best_day days = Raise e ->
             e = ValueError \/ e = OverflowError).
Proof.
  split; [split|].
  - intros Hok. unfold compute_best_day in Hok.
    destruct (rank_days empty_ranking days) as [r|e] eqn:Hr; [|done].
    apply rank_days_scored in Hr as (new & Hnew & _).
    clear Hok. induction Hnew as [|rec e recs es He _ IH]; [constructor|].
    constructor; [|done]. destruct He as [Hscore _]. by rewrite Hscore.
  - intros Hall.
    destruct (rank_days_total days empty_ranking Hall) as (r & Hr).
    unfold compute_best_day. by rewrite Hr.
  - intros e H. unfold compute_best_day in H.
    destruct (rank_days empty_ranking days) as [r|e'] eqn:Hr; [done|].
    cbn [mbind res_bind] in H. injection H as ->.
    by eapply rank_days_raises.
Qed.

(** *** All categories or none *)

Lemma rank_day_presence acc d acc' :
  rank_day acc d = Ok acc' ->
  (flights d = [] -> acc' = acc) /\
  (flights d <> [] -> all_present acc') /\
  (all_present acc -> all_present acc') /\
  length (rk_scored_flights acc')
  = (length (rk_scored_flights acc) + length (flights d))%nat.
Proof.
  intros H. destruct (flights d) as [|f fs] eqn:Hfl.
  - rewrite rank_day_empty in H by done. injection H as <-.
    split; [done|]. split; [done|]. split; [done|]. cbn. lia.
  - apply rank_day_inv_all in H
      as (nfs & cf & df & lf & new & Hn & _ & _ & _ & Hs & Hc & Hd & Hl & Hsc);
      [|by rewrite Hfl].
    assert (Hall : all_present acc').
    { unfold all_present. rewrite Hc, Hd, Hl.
      destruct (rk_cheapest acc) as [c|];
        [destruct (price_val cf <? bd_price c)%float|];
        (split; [done|]);
        (destruct (rk_shortest_duration acc) as [c2|];
         [destruct (duration_val df <? bu_duration_minutes c2)|]);
        (split; [done|]);
        (destruct (rk_shortest_layover acc) as [c3|];
         [destruct (layover_val lf <? bd_layover_hours c3)%float|]); done. }
    split; [done|]. split; [done|]. split; [done|].
    rewrite Hsc, length_app. f_equal.
    apply mapM_res_inv, Forall2_length in Hn, Hs. rewrite Hfl in Hn. lia.
Qed.

Lemma rank_days_presence days : forall acc r,
  rank_days acc days = Ok r ->
  (all_records days = [] -> r = acc) /\
  (all_records days <> [] -> all_present r) /\
  (all_present acc -> all_present r) /\
  length (rk_scored_flights r)
  = (length (rk_scored_flights acc) + length (all_records days))%nat.
Proof.
  induction days as [|d days IH]; intros acc r H.
  - injection H as <-. split; [done|]. split; [done|]. split; [done|].
    cbn. lia.
  - cbn [rank_days] in H. apply bind_ok_inv in H as (acc' & Hd & H).
    apply rank_day_presence in Hd as (Hd1 & Hd2 & Hd3 & Hd4).
    apply IH in H as (H1 & H2 & H3 & H4).
    change (all_records (d :: days))
      with (map (pair (date d)) (flights d) ++ all_records days).
    split; [|split; [|split]].
    + intros Hnil. apply app_eq_nil in Hnil as [Hf Hr].
      rewrite H1 by done. apply Hd1. by destruct (flights d).
    + intros Hne. destruct (flights d) as [|f fs] eqn:Hfl.
      * apply H2. by cbn in Hne.
      * apply H3, Hd2. done.
    + intros Hacc. by apply H3, Hd3.
    + rewrite H4, Hd4, length_app, length_map. lia.
Qed.

(** X16.  The summary [compute_best_day] returns is all or nothing: with
    no record in any day it is the empty summary (no category, no ranked
    entry, an empty text); with at least one record all three categories
    are present and the text has their three lines.  In both cases the
    ranked list has [min(3, n)] entries for [n] records. *)
Theorem compute_best_day_all_or_nothing (days : list day) (s : summary) :
  compute_best_day days = Ok s ->
  length (top3_overall s) = Nat.min 3 (length (all_records days)) /\
  match all_records days with
  | [] => s = no_data
  | _ :: _ =>
      exists c d l,
        cheapest s = Some c /\
        shortest_duration s = Some d /\
        shortest_layover s = Some l /\
        text_summary s = summary_lines c d l
  end.
Proof.
  intros Hs. unfold compute_best_day in Hs.
  apply bind_ok_inv in Hs as (r & Hr & Hs). injection Hs as <-.
  apply rank_days_presence in Hr as (Hnone & Hsome & _ & Hlen).
  cbn [top3_overall cheapest shortest_duration shortest_layover text_summary].
  split.
  - rewrite length_take.
    rewrite <- (Permutation_length (sorted_by_perm sc_score _)), Hlen.
    cbn. lia.
  - destruct (all_records days) as [|rec recs].
    + rewrite (Hnone eq_refl). done.
    + destruct (Hsome ltac:(done)) as ([c Hc] & [d Hd] & [l Hl]).
      exists c, d, l. unfold summary_text. rewrite Hc, Hd, Hl. done.
Qed.

Lemma compute_best_day_all_or_nothing_witness :
  exists s,
    compute_best_day tie_days = Ok s /\
    length (top3_overall s) = Nat.min 3 (length (all_records tie_days)) /\
    match all_records tie_days with
    | [] => s = no_data
    | _ :: _ =>
        exists c d l,
          cheapest s = Some c /\
          shortest_duration s = Some d /\
          shortest_layover s = Some l /\
          text_summary s = summary_lines c d l
    end.
Proof.
  eexists. split; [by vm_compute|].
  apply compute_best_day_all_or_nothing. by vm_compute.
Defined.

(** X17.  The sections the orchestrator builds from the summary follow
    the data: without any record the best-day section and the top-3
    section are their placeholders; with at least one record the best-day
    section is its title over a table of exactly the three categories, in
    the order cheapest, shortest duration, shortest layover, and the top-3
    section is its title over the table of the ranked entries.  Neither
    builder raises. *)
Theorem sections_of_summary (days : list day) (s : summary) :
  compute_best_day days = Ok s ->
  match all_records days with
  | [] =>
      build_best_day_section s = Ok no_best_day_text /\
      build_top3_overall_section (top3_overall s) = Ok no_top3_text
  | _ :: _ =>
      exists c d l table top_table,
        cheapest s = Some c /\
        shortest_duration s = Some d /\
        shortest_layover s = Some l /\
        build_best_day_summary_table
          [parse_best_day_category (lit "Cheapest Day") c;
           parse_best_day_category (lit "Shortest Duration")
                                   (best_day_of_duration d);
           parse_best_day_category (lit "Shortest Layover") l] = Ok table /\
        build_best_day_section s
        = Ok ([chr_star] ++ lit " BEST DAY TO FLY SUMMARY " ++ [chr_star]
              ++ [chr_newline; chr_newline] ++ render_ascii_block table) /\
        top3_overall s <> [] /\
        build_top3_overall_table (parse_best_overall_days (top3_overall s))
        = Ok top_table /\
        build_top3_overall_section (top3_overall s)
        = Ok ([chr_globe] ++ lit " TOP 3 BEST OVERALL DAYS " ++ [chr_globe]
              ++ [chr_newline; chr_newline] ++ render_ascii_block top_table)
  end.
Proof.
  intros Hs. unfold compute_best_day in Hs.
  apply bind_ok_inv in Hs as (r & Hr & Hs). injection Hs as <-.
  apply rank_days_presence in Hr as (Hnone & Hsome & _ & Hlen).
  cbn [top3_overall cheapest shortest_duration shortest_layover].
  destruct (all_records days) as [|rec recs].
  - rewrite (Hnone eq_refl). done.
  - destruct (Hsome ltac:(done)) as ([c Hc] & [d Hd] & [l Hl]).
    set (cats := [parse_best_day_category (lit "Cheapest Day") c;
                  parse_best_day_category (lit "Shortest Duration")
                                          (best_day_of_duration d);
                  parse_best_day_category (lit "Shortest Layover") l]).
    destruct (build_best_day_summary_table_ok cats) as (table & Htable).
    set (top := take 3 (sorted_by sc_score (rk_scored_flights r))).
    assert (Htop : top <> []).
    { intros Hnil. apply (f_equal length) in Hnil. subst top.
      rewrite length_take in Hnil.
      rewrite <- (Permutation_length (sorted_by_perm sc_score _)), Hlen in Hnil.
      cbn in Hnil. lia. }
    destruct (build_top3_overall_table_ok (parse_best_overall_days top))
      as (top_table & Htop_table).
    exists c, d, l, table, top_table.
    do 3 (split; [done|]). split; [done|]. split.
    { unfold build_best_day_section.
      cbn [cheapest shortest_duration shortest_layover].
      rewrite Hc, Hd, Hl. cbn [app]. fold cats. by rewrite Htable. }
    split; [done|]. split; [done|].
    unfold build_top3_overall_section.
    fold top. destruct top as [|e es] eqn:Etop; [done|].
    cbn [parse_best_overall_days map]. cbn [parse_best_overall_days map] in Htop_table.
    by rewrite Htop_table.
Qed.

Lemma sections_of_summary_witness :
  exists s,
    compute_best_day tie_days = Ok s /\
    match all_records tie_days with
    | [] =>
        build_best_day_section s = Ok no_best_day_text /\
        build_top3_overall_section (top3_overall s) = Ok no_top3_text
    | _ :: _ =>
        exists c d l table top_table,
          cheapest s = Some c /\
          shortest_duration s = Some d /\
          shortest_layover s = Some l /\
          build_best_day_summary_table
            [parse_best_day_category (lit "Cheapest Day") c;
             parse_best_day_category (lit "Shortest Duration")
                                     (best_day_of_duration d);
             parse_best_day_category (lit "Shortest Layover") l] = Ok table /\
          build_best_day_section s
          = Ok ([chr_star] ++ lit " BEST DAY TO FLY SUMMARY " ++ [chr_star]
                ++ [chr_newline; chr_newline] ++ render_ascii_block table) /\
          top3_overall s <> [] /\
          build_top3_overall_table (parse_best_overall_days (top3_overall s))
          = Ok top_table /\
          build_top3_overall_section (top3_overall s)
          = Ok ([chr_globe] ++ lit " TOP 3 BEST OVERALL DAYS " ++ [chr_globe]
                ++ [chr_newline; chr_newline] ++ render_ascii_block top_table)
    end.
Proof.
  eexists. split; [by vm_compute|].
  apply (sections_of_summary tie_days). by vm_compute.
Defined.
(** ** Price history: sequences of calls *)

(** X18.  Observing the same price for the same date twice in a row is
    idempotent: whatever the first call reported, the second reports
    nothing and leaves the history file as the first call left it. *)
Theorem detect_price_drop_repeat (date : str) (price : float) (s : disk) :
  fault s = NoFault ->
  exists first s1,
    detect_price_drop date price s = (Ok first, s1) /\
    detect_price_drop date price s1 = (Ok None, s1).
Proof.
  intros Hfault.
  set (s1 := {| file := FileHistory (<[date:=price]> (_load_price_history s));
                fault := NoFault |}).
  assert (Hfirst : exists first, detect_price_drop date price s = (Ok first, s1)).
  { unfold detect_price_drop, _save_price_history. rewrite Hfault.
    destruct (_load_price_history s !! date) as [prev|]; [|by eexists].
    destruct (price <? prev)%float; by eexists. }
  destruct Hfirst as (first & Hfirst). exists first, s1. split; [done|].
  unfold detect_price_drop, _save_price_history.
  cbn [fault s1 _load_price_history file].
  rewrite lookup_insert_eq, insert_insert_eq, float_lt_irrefl. done.
Qed.

Lemma detect_price_drop_repeat_witness :
  exists first s1,
    detect_price_drop sample_date 450%float sample_disk = (Ok first, s1) /\
    detect_price_drop sample_date 450%float s1 = (Ok None, s1).
Proof. by apply (detect_price_drop_repeat sample_date 450%float sample_disk). Defined.

(** What a call reports for a stored price. *)
Lemma detect_price_drop_ok (date : str) (price : float) (s : disk) :
  fault s = NoFault ->
  detect_price_drop date price s
  = (Ok match _load_price_history s !! date with
        | Some prev =>
            if (price <? prev)%float
            then Some (drop_message date prev price) else None
        | None => None
        end,
     {| file := FileHistory (<[date:=price]> (_load_price_history s));
        fault := NoFault |}).
Proof.
  intros Hfault. unfold detect_price_drop, _save_price_history.
  rewrite Hfault. destruct (_load_price_history s !! date) as [prev|]; [|done].
  by destruct (price <? prev)%float.
Qed.

(** X19.  Calls for different dates do not interfere: made in either
    order they report the same results, each decided by the price stored
    for its own date, and afterwards the history holds the same price for
    every date: the new price for the two dates, the old one for any
    other.  (For two dates that are both new the keys are written in the
    order of the calls, so the two files can differ as texts.) *)
Theorem detect_price_drop_commute (date1 date2 : str) (price1 price2 : float)
    (s : disk) :
  fault s = NoFault -> date1 <> date2 ->
  exists r1 r2 s1 s2 s12 s21,
    detect_price_drop date1 price1 s = (Ok r1, s1) /\
    detect_price_drop date2 price2 s1 = (Ok r2, s12) /\
    detect_price_drop date2 price2 s = (Ok r2, s2) /\
    detect_price_drop date1 price1 s2 = (Ok r1, s21) /\
    forall date,
      stored_price s12 date = stored_price s21 date /\
      stored_price s12 date
      = if bool_decide (date = date1) then Some price1
        else if bool_decide (date = date2) then Some price2
        else stored_price s date.
Proof.
  intros Hfault Hne.
  rewrite (detect_price_drop_ok date1 price1 s Hfault).
  rewrite (detect_price_drop_ok date2 price2 s Hfault).
  eexists _, _, _, _, _, _. split; [reflexivity|].
  rewrite detect_price_drop_ok by done.
  cbn [_load_price_history file].
  rewrite lookup_insert_ne by done. split; [reflexivity|].
  split; [reflexivity|].
  rewrite detect_price_drop_ok by done.
  cbn [_load_price_history file].
  rewrite lookup_insert_ne by done. split; [reflexivity|].
  intros date. unfold stored_price. cbn [_load_price_history file].
  destruct (bool_decide (date = date1)) eqn:H1.
  { apply bool_decide_eq_true in H1 as ->.
    rewrite lookup_insert_ne by done. by rewrite !lookup_insert_eq. }
  apply bool_decide_eq_false in H1.
  destruct (bool_decide (date = date2)) eqn:H2.
  { apply bool_decide_eq_true in H2 as ->.
    rewrite lookup_insert_eq. rewrite lookup_insert_ne by done.
    by rewrite lookup_insert_eq. }
  apply bool_decide_eq_false in H2.
  by rewrite !lookup_insert_ne by done.
Qed.

Lemma detect_price_drop_commute_witness :
  exists r1 r2 s1 s2 s12 s21,
    detect_price_drop sample_date 450%float sample_disk = (Ok r1, s1) /\
    detect_price_drop (lit "2026-03-21") 300%float s1 = (Ok r2, s12) /\
    detect_price_drop (lit "2026-03-21") 300%float sample_disk
    = (Ok r2, s2) /\
    detect_price_drop sample_date 450%float s2 = (Ok r1, s21) /\
    forall date,
      stored_price s12 date = stored_price s21 date /\
      stored_price s12 date
      = if bool_decide (date = sample_date) then Some 450%float
        else if bool_decide (date = lit "2026-03-21") then Some 300%float
        else stored_price sample_disk date.
Proof.
  by apply (detect_price_drop_commute sample_date (lit "2026-03-21")
              450%float 300%float sample_disk).
Defined.

(** X20.  A history file that is missing or cannot be read counts as an
    empty history: the call reports nothing and writes a history holding
    the current date only.  So a write that fails after the file was
    opened, which leaves it unreadable, costs the whole history: the call
    raises, and the next call that can write reports no drop, whatever
    had been stored, and starts the history over. *)
Theorem detect_price_drop_unreadable (date : str) (price : float) :
  (forall s,
     fault s = NoFault -> file s = FileCorrupt \/ file s = FileMissing ->
     detect_price_drop date price s
     = (Ok None, {| file := FileHistory {[date := price]};
                    fault := NoFault |})) /\
  (forall h next,
     let '(result, s1) :=
       detect_price_drop date price
         {| file := FileHistory h; fault := DumpFails |} in
     result = Raise OSError /\
     file s1 = FileCorrupt /\
     detect_price_drop date next {| file := file s1; fault := NoFault |}
     = (Ok None, {| file := FileHistory {[date := next]};
                    fault := NoFault |})).
Proof.
  assert (Hreset : forall p s,
            fault s = NoFault -> file s = FileCorrupt \/ file s = FileMissing ->
            detect_price_drop date p s
            = (Ok None, {| file := FileHistory {[date := p]};
                           fault := NoFault |})).
  { intros p s Hfault Hfile. rewrite detect_price_drop_ok by done.
    assert (Hload : _load_price_history s = ∅)
      by (unfold _load_price_history; by destruct Hfile as [-> | ->]).
    rewrite Hload, lookup_empty, insert_empty. done. }
  split; [apply Hreset|].
  intros h next. unfold detect_price_drop at 1, _save_price_history.
  cbn [fault file]. split; [done|]. split; [done|].
  apply Hreset; [done | by left].
Qed.
(** ** Report: the daily tables *)

Lemma starts_with_spec (p s : str) :
  starts_with p s = true <-> exists r, s = p ++ r.
Proof.
  revert s. induction p as [|a p IH]; intros s.
  - split; [by exists s | done].
  - destruct s as [|b s]; cbn [starts_with].
    + split; [done | by intros [r Hr]].
    + rewrite andb_true_iff, N.eqb_eq, IH. split.
      * intros [-> [r ->]]. by exists r.
      * intros [r Hr]. injection Hr as -> ->. split; [done | by exists r].
Qed.

(** The first piece of a split is the text before the separator. *)
Lemma split_go_head sep s : forall cur,
  sep <> [] ->
  exists rest, split_go sep 0 cur s = (rev cur ++ before_sep sep s) :: rest.
Proof.
  induction s as [|c s IH]; intros cur Hsep.
  - exists []. cbn. by rewrite app_nil_r.
  - cbn [split_go before_sep]. destruct (starts_with sep (c :: s)).
    + eexists. by rewrite app_nil_r.
    + destruct (IH (c :: cur) Hsep) as (rest & ->). exists rest.
      cbn [rev]. by rewrite <- app_assoc.
Qed.

(** A text is what stands before the separator, then nothing or the
    separator. *)
Lemma before_sep_split sep s :
  exists t, s = before_sep sep s ++ t /\ (t = [] \/ starts_with sep t = true).
Proof.
  induction s as [|c s (t & Hs & Ht)].
  - exists []. split; [done | by left].
  - cbn [before_sep]. destruct (starts_with sep (c :: s)) eqn:Hc.
    + exists (c :: s). split; [done | by right].
    + exists t. split; [cbn; by rewrite <- Hs | done].
Qed.

Lemma before_sep_code sp sep code t :
  Forall (fun x => x <> sp) code ->
  t = [] \/ starts_with (sp :: sep) t = true ->
  before_sep (sp :: sep) (code ++ t) = code.
Proof.
  intros Hcode Ht. induction Hcode as [|x code Hx _ IH].
  - cbn [app]. destruct Ht as [-> | Ht]; [done|].
    destruct t as [|c t]; [done|]. cbn [before_sep]. by rewrite Ht.
  - cbn [app before_sep starts_with].
    assert ((sp =? x)%N = false) as -> by (apply N.eqb_neq; congruence).
    cbn [andb]. by rewrite IH.
Qed.

(** The code a text is filed under is [code] exactly when the text is the
    code alone or the code followed by the separator. *)
Lemma before_sep_has_code code airline :
  Forall (fun x => x <> chr_space) code ->
  bool_decide (before_sep dash_sep airline = code) = has_code code airline.
Proof.
  intros Hcode. unfold has_code.
  destruct (before_sep_split dash_sep airline) as (t & Hs & Ht).
  apply eq_true_iff_eq. rewrite orb_true_iff, !bool_decide_eq_true.
  rewrite starts_with_spec. split.
  - intros Hb. rewrite Hb in Hs. destruct Ht as [-> | Ht].
    + left. by rewrite app_nil_r in Hs.
    + right. apply starts_with_spec in Ht as [r ->]. exists r.
      by rewrite <- app_assoc.
  - intros [-> | [r ->]].
    + rewrite <- (app_nil_r code) at 1.
      apply (before_sep_code chr_space); [done | by left].
    + rewrite <- app_assoc.
      apply (before_sep_code chr_space); [done|]. right.
      apply starts_with_spec. by exists r.
Qed.

Lemma excluded_is_hidden airline :
  bool_decide (before_sep dash_sep airline ∈ EXCLUDED_AIRLINES)
  = hidden_airline airline.
Proof.
  unfold hidden_airline, EXCLUDED_AIRLINES.
  rewrite <- !before_sep_has_code by (by repeat constructor).
  apply eq_true_iff_eq.
  rewrite orb_true_iff, !bool_decide_eq_true, !elem_of_cons, elem_of_nil.
  tauto.
Qed.

(** The filter loop is a filter on the airline text. *)
Lemma filter_excluded_hidden options :
  filter_excluded options
  = Ok (List.filter (fun opt => negb (hidden_airline (fo_airline opt))) options).
Proof.
  induction options as [|opt rest IH]; [done|].
  cbn [filter_excluded List.filter]. rewrite split_dash_sep.
  cbn [mbind res_bind].
  destruct (split_go_head dash_sep (fo_airline opt) []) as (pieces & ->);
    [done|].
  cbn [index lookup list_lookup rev app mbind res_bind]. rewrite IH.
  cbn [mbind res_bind]. rewrite excluded_is_hidden.
  by destruct (hidden_airline (fo_airline opt)).
Qed.

Lemma parse_options_numbered raw_options : forall idx,
  parse_options idx raw_options = numbered_options idx raw_options.
Proof.
  unfold numbered_options.
  induction raw_options as [|raw rest IH]; intros idx; [done|].
  cbn [parse_options imap]. rewrite Z.add_0_r. f_equal.
  rewrite IH. apply imap_ext. intros i x _. cbn. f_equal. lia.
Qed.

(** X21.  The table of a day shows the first ten options whose airline
    text is not the code [CX] or [AI], alone or followed by [" — "] and a
    name, and shows nothing else; each option keeps the number of its
    position in the unfiltered list, counted from 1.  The text is the
    calendar line followed by the table, and building it never raises.
    Of Air Canada, Cathay Pacific and Etihad the table shows the options
    1 and 3. *)
Theorem build_daily_flights_table_shown :
  (forall (date : str) (raw_options : list flight),
     let shown :=
       take 10 (List.filter (fun opt => negb (hidden_airline (fo_airline opt)))
                            (numbered_options 1 raw_options)) in
     let rows := map daily_row shown in
     exists table,
       make_table daily_headers rows
         (auto_column_widths daily_headers rows default_padding)
         (Some daily_aligns) = Ok table /\
       build_daily_flights_table (parse_day_flights date raw_options)
       = Ok ([chr_calendar] ++ lit " " ++ date ++ [chr_newline] ++ table) /\
       (length shown <= 10)%nat /\
       Forall (fun opt => hidden_airline (fo_airline opt) = false) shown) /\
  map fo_option_number
      (take 10 (List.filter (fun opt => negb (hidden_airline (fo_airline opt)))
                            (numbered_options 1 mixed_options)))
  = [1; 3].
Proof.
  split; [|by vm_compute].
  intros date raw_options shown rows.
  destruct (make_table_ok daily_headers rows default_padding (Some daily_aligns))
    as (table & Htable).
  { cbn. lia. }
  { subst rows. apply Forall_map_length. by intros []. }
  exists table. split; [done|]. split; [|split].
  - unfold build_daily_flights_table, parse_day_flights.
    cbn [df_options df_date].
    rewrite filter_excluded_hidden, parse_options_numbered.
    cbn [mbind res_bind]. fold shown. fold rows.
    fold daily_aligns. by rewrite Htable.
  - subst shown. rewrite length_take. lia.
  - subst shown. apply Forall_take. apply Forall_forall. intros opt Hopt.
    apply list_elem_of_In, filter_In in Hopt as [_ Hopt].
    by apply negb_true_iff in Hopt.
Qed.

(** *** The order of the dates *)

Lemma str_lt_irrefl a : str_lt a a = false.
Proof.
  induction a as [|x a IH]; [done|].
  cbn [str_lt]. by rewrite N.ltb_irrefl, N.eqb_refl, IH.
Qed.

Lemma str_lt_trans a : forall b c,
  str_lt a b = true -> str_lt b c = true -> str_lt a c = true.
Proof.
  induction a as [|x a IH]; intros [|y b] [|z c] Hab Hbc; try done.
  cbn [str_lt] in *.
  apply orb_true_iff in Hab as [Hxy | [Hxy Hab]%andb_true_iff];
    apply orb_true_iff in Hbc as [Hyz | [Hyz Hbc]%andb_true_iff];
    apply orb_true_iff.
  - left. apply N.ltb_lt in Hxy, Hyz. apply N.ltb_lt. lia.
  - left. apply N.ltb_lt in Hxy. apply N.eqb_eq in Hyz. apply N.ltb_lt. lia.
  - left. apply N.eqb_eq in Hxy. apply N.ltb_lt in Hyz. apply N.ltb_lt. lia.
  - right. apply N.eqb_eq in Hxy, Hyz. subst.
    rewrite N.eqb_refl. cbn [andb]. by eapply IH.
Qed.

Lemma str_lt_total a : forall b,
  str_lt a b = false -> str_lt b a = false -> a = b.
Proof.
  induction a as [|x a IH]; intros [|y b] Hab Hba; try done.
  cbn [str_lt] in *.
  apply orb_false_iff in Hab as [Hxy Hab].
  apply orb_false_iff in Hba as [Hyx Hba].
  apply N.ltb_ge in Hxy, Hyx. assert (x = y) as -> by lia.
  rewrite N.eqb_refl in Hab, Hba. cbn [andb] in Hab, Hba.
  f_equal. by apply IH.
Qed.

Lemma str_lt_incomparable_trans a b c :
  str_lt a b = false -> str_lt b c = false -> str_lt a c = false.
Proof.
  intros Hab Hbc. destruct (str_lt a c) eqn:Hac; [|done].
  destruct (str_lt b a) eqn:Hba.
  - by rewrite (str_lt_trans b a c Hba Hac) in Hbc.
  - rewrite (str_lt_total a b Hab Hba) in Hac. by rewrite Hac in Hbc.
Qed.

Lemma tied_str_lt a x : tied str_lt a x = true <-> x = a.
Proof.
  unfold tied. rewrite andb_true_iff, !negb_true_iff. split.
  - intros [H1 H2]. symmetry. by apply str_lt_total.
  - intros ->. by rewrite str_lt_irrefl.
Qed.

Lemma filter_tied_singleton a (l : list str) :
  NoDup l -> a ∈ l -> List.filter (tied str_lt a) l = [a].
Proof.
  induction 1 as [|x l Hx Hl IH]; intros Ha; [by apply elem_of_nil in Ha|].
  cbn [List.filter]. destruct (tied str_lt a x) eqn:Ht.
  - apply tied_str_lt in Ht as ->. f_equal.
    clear -Hx. induction l as [|y l IH]; [done|].
    cbn [List.filter]. destruct (tied str_lt a y) eqn:Hy.
    + apply tied_str_lt in Hy as ->. exfalso. apply Hx, elem_of_cons. by left.
    + apply IH. intros Hin. apply Hx, elem_of_cons. by right.
  - apply elem_of_cons in Ha as [-> | Ha].
    + assert (tied str_lt x x = true) by (by apply tied_str_lt). congruence.
    + by apply IH.
Qed.

Lemma sorted_str_stable (l : list str) :
  stable_sort_of str_lt l (sorted_with str_lt l).
Proof.
  apply (sorted_with_stable str_lt (fun _ => True)).
  - apply str_lt_irrefl.
  - apply str_lt_trans.
  - intros x y z _. apply str_lt_incomparable_trans.
  - by apply Forall_forall.
Qed.

(** Sorting texts without repetition gives one result for every order of
    the input. *)
Lemma sorted_str_permutation (l l' : list str) :
  NoDup l -> Permutation l l' ->
  sorted_with str_lt l = sorted_with str_lt l'.
Proof.
  intros Hnd Hperm.
  apply (stable_sort_unique str_lt (fun _ => True) str_lt_irrefl str_lt_trans
           (fun x y z _ => str_lt_incomparable_trans x y z) l).
  - by apply Forall_forall.
  - apply sorted_str_stable.
  - destruct (sorted_str_stable l') as (Hp & Hasc & _).
    split; [by etrans|]. split; [done|].
    intros a Ha. rewrite (filter_tied_singleton a l) by done.
    apply filter_tied_singleton.
    + rewrite <- Hp, <- Hperm. done.
    + rewrite <- Hp, <- Hperm. done.
Qed.

Lemma dict_get_NoDup {V} (d : list (str * V)) key v :
  NoDup (map fst d) -> (key, v) ∈ d -> dict_get d key = Ok v.
Proof.
  induction d as [|[k w] d IH]; intros Hnd Hin; [by apply elem_of_nil in Hin|].
  cbn [map fst] in Hnd. apply NoDup_cons in Hnd as [Hk Hnd].
  cbn [dict_get]. apply elem_of_cons in Hin as [Heq | Hin].
  - injection Heq as -> ->. by rewrite bool_decide_eq_true_2.
  - rewrite bool_decide_eq_false_2; [by apply IH|].
    intros ->. apply Hk. apply list_elem_of_fmap. by exists (key, v).
Qed.

Lemma mapM_res_ext {A B} (f g : A -> res B) (l : list A) :
  (forall x, x ∈ l -> f x = g x) -> mapM f l = mapM g l.
Proof.
  induction l as [|x l IH]; intros H; [done|].
  cbn [mapM]. fold (mapM f l) (mapM g l).
  rewrite H by (apply elem_of_cons; by left).
  rewrite IH; [done|]. intros y Hy. apply H, elem_of_cons. by right.
Qed.

(** X22.  [build_daily_sections] does not depend on the order in which
    the dates were put into the mapping: it visits them in ascending order
    of the date text, so two mappings with the same entries (no date
    twice) give the same text, the days in ascending order. *)
Theorem build_daily_sections_order (daily_raw daily_raw' : list (str * list flight)) :
  NoDup (map fst daily_raw) ->
  Permutation daily_raw daily_raw' ->
  ascending str_lt (sorted_with str_lt (map fst daily_raw)) /\
  build_daily_sections daily_raw = build_daily_sections daily_raw'.
Proof.
  intros Hnd Hperm. split.
  { by destruct (sorted_str_stable (map fst daily_raw)) as (_ & Hasc & _). }
  unfold build_daily_sections.
  assert (Hkeys : Permutation (map fst daily_raw) (map fst daily_raw'))
    by (by apply Permutation_map).
  rewrite <- (sorted_str_permutation _ _ Hnd Hkeys).
  assert (Hnd' : NoDup (map fst daily_raw')) by (by rewrite <- Hkeys).
  rewrite (mapM_res_ext (daily_parts daily_raw) (daily_parts daily_raw')); [done|].
  intros date Hdate. unfold daily_parts.
  assert (Hin : date ∈ map fst daily_raw).
  { pose proof (sorted_with_perm str_lt (map fst daily_raw)) as Hp.
    by rewrite Hp. }
  apply list_elem_of_fmap in Hin as ([k v] & -> & Hkv). cbn [fst].
  rewrite (dict_get_NoDup daily_raw k v) by done.
  rewrite (dict_get_NoDup daily_raw' k v); [done | done |].
  by rewrite <- Hperm.
Qed.

Lemma build_daily_sections_order_witness :
  ascending str_lt (sorted_with str_lt (map fst carrier_days)) /\
  build_daily_sections carrier_days = build_daily_sections (rev carrier_days).
Proof.
  apply (build_daily_sections_order carrier_days (rev carrier_days)).
  - by apply (bool_decide_unpack _).
  - apply Permutation_rev.
Defined.
(** ** Report: every table is rectangular *)

Lemma digits_go_no_newline fuel : forall n acc,
  no_newline acc -> no_newline (digits_go fuel n acc).
Proof.
  induction fuel as [|fuel IH]; intros n acc Hacc; [done|].
  cbn [digits_go].
  assert (Hd : no_newline (Z.to_N (48 + n mod 10) :: acc)).
  { constructor; [|done]. pose proof (Z.mod_pos_bound n 10 ltac:(lia)).
    unfold chr_newline. lia. }
  destruct (n <? 10); [done | by apply IH].
Qed.

Lemma digits_no_newline n : no_newline (digits n).
Proof. apply digits_go_no_newline. constructor. Qed.

Lemma str_of_int_no_newline n : no_newline (str_of_int n).
Proof.
  unfold str_of_int. destruct (n <? 0); [|apply digits_no_newline].
  constructor; [done | apply digits_no_newline].
Qed.

Lemma format_fixed_no_newline ndigits x : no_newline (format_fixed ndigits x).
Proof.
  unfold format_fixed.
  assert (Hbody : forall (neg : bool) (n : Z),
    no_newline
      ((if neg then [chr_minus] else []) ++
       digits (n / 10 ^ Z.of_nat ndigits) ++
       match ndigits with
       | O => []
       | S _ =>
           46%N :: replicate (ndigits - length (digits (n mod 10 ^ Z.of_nat ndigits)))
                     48%N ++ digits (n mod 10 ^ Z.of_nat ndigits)
       end)).
  { intros neg n. unfold no_newline. rewrite !Forall_app.
    split; [destruct neg; by repeat constructor|].
    split; [apply digits_no_newline|].
    destruct ndigits; [constructor|].
    constructor; [done|]. apply Forall_app.
    split; [by apply Forall_replicate | apply digits_no_newline]. }
  destruct (Prim2SF x) as [s|s| |s m e].
  - apply Hbody.
  - destruct s; by repeat constructor.
  - by repeat constructor.
  - apply Hbody.
Qed.

Lemma no_newline_app (a b : str) : no_newline a -> no_newline b -> no_newline (a ++ b).
Proof. intros Ha Hb. by apply Forall_app. Qed.

Ltac no_nl :=
  repeat apply no_newline_app;
  first [ assumption | apply format_fixed_no_newline
        | apply str_of_int_no_newline | by repeat constructor ].

(** A table of full rows with the widths of [auto_column_widths] is
    rectangular. *)
Lemma make_table_auto_rectangular (headers : list str) (rows : list (list cell))
    (aligns : list str) :
  (length headers <= length aligns)%nat ->
  Forall (fun row => length row = length headers) rows ->
  Forall no_newline headers ->
  Forall (Forall (fun c => no_newline (str_of c))) rows ->
  exists table,
    make_table headers rows (auto_column_widths headers rows default_padding)
               (Some aligns) = Ok table /\
    rectangular (length rows) table.
Proof.
  intros Hal Hrows Hnlh Hnlr.
  destruct (make_table_any_widths headers rows
              (auto_column_widths headers rows default_padding) (Some aligns))
    as (table & Htable & Hcount & Hsame); try done.
  - apply Forall_lookup. intros i w Hw.
    apply auto_column_widths_cover in Hw as [(h & _ & Hle) _].
    unfold default_padding, len in Hle. lia.
  - apply length_auto_column_widths.
  - exists table. split; [done|]. split; [done|]. by eexists.
Qed.

(** X23.  Every table of the report is rectangular when the texts it
    shows hold no line break: the best-day table has one line per
    category, the top-3 table one per ranked entry, the table of a day one
    per option shown (at most ten), the carrier table one per row, each
    with three border lines and the header line, and all lines of a table
    have the same length. *)
Theorem report_tables_rectangular :
  (forall categories,
     Forall clean_category categories ->
     exists table,
       build_best_day_summary_table categories = Ok table /\
       rectangular (length categories) table) /\
  (forall overall_days,
     Forall clean_overall overall_days ->
     exists table,
       build_top3_overall_table overall_days = Ok table /\
       rectangular (length overall_days) table) /\
  (forall day_flights,
     Forall clean_option (df_options day_flights) ->
     exists table,
       build_daily_flights_table day_flights
       = Ok ([chr_calendar] ++ lit " " ++ df_date day_flights
             ++ [chr_newline] ++ table) /\
       rectangular
         (Nat.min 10
            (length (List.filter
                       (fun opt => negb (hidden_airline (fo_airline opt)))
                       (df_options day_flights))))
         table) /\
  (forall rows : list etihad_row,
     Forall clean_row rows ->
     exists table,
       make_table etihad_headers (map etihad_cells rows)
         (auto_column_widths etihad_headers (map etihad_cells rows)
            default_padding)
         (Some etihad_aligns) = Ok table /\
       rectangular (length rows) table).
Proof.
  assert (Hheaders : forall hs : list string,
            forallb (fun h => forallb (fun c => negb (c =? chr_newline)%N)
                                      (lit h)) hs = true ->
            Forall no_newline (map lit hs)).
  { intros hs H. apply Forall_forall. intros h Hh.
    change (map lit hs) with (lit <$> hs) in Hh.
    apply list_elem_of_fmap in Hh as (x & -> & Hx).
    apply Forall_no_newline_dec.
    rewrite forallb_forall in H. apply H. by apply list_elem_of_In. }
  split; [|split; [|split]].
  - intros categories Hclean. unfold build_best_day_summary_table.
    destruct (make_table_auto_rectangular best_day_headers
                (map best_day_row categories)
                [lit "left"; lit "left"; lit "right"; lit "left"; lit "left"])
      as (table & Htable & Hrect).
    + cbn. lia.
    + apply Forall_forall. intros row Hrow.
      change (map best_day_row categories) with (best_day_row <$> categories)
        in Hrow.
      by apply list_elem_of_fmap in Hrow as (c & -> & _).
    + by apply (Hheaders ["Category"; "Date"; "Price"; "Airline"; "Layover"]%string).
    + apply Forall_forall. intros row Hrow.
      change (map best_day_row categories) with (best_day_row <$> categories)
        in Hrow.
      apply list_elem_of_fmap in Hrow as (c & -> & Hc).
      destruct (proj1 (Forall_forall _ _) Hclean c Hc) as (H1 & H2 & H3 & H4).
      unfold best_day_row. cbn [str_of].
      each_elem no_nl.
    + exists table. rewrite length_map in Hrect. done.
  - intros overall_days Hclean. unfold build_top3_overall_table.
    destruct (make_table_auto_rectangular top3_headers
                (map top3_row overall_days)
                [lit "left"; lit "right"; lit "right"; lit "left"; lit "left";
                 lit "right"; lit "left"])
      as (table & Htable & Hrect).
    + cbn. lia.
    + apply Forall_forall. intros row Hrow.
      change (map top3_row overall_days) with (top3_row <$> overall_days)
        in Hrow.
      by apply list_elem_of_fmap in Hrow as (c & -> & _).
    + by apply (Hheaders ["Date"; "Score"; "Price"; "Airline"; "Duration";
                          "Layover Hours"; "Layover City"]%string).
    + apply Forall_forall. intros row Hrow.
      change (map top3_row overall_days) with (top3_row <$> overall_days)
        in Hrow.
      apply list_elem_of_fmap in Hrow as (c & -> & Hc).
      destruct (proj1 (Forall_forall _ _) Hclean c Hc) as (H1 & H2 & H3 & H4).
      unfold top3_row. cbn [str_of].
      each_elem no_nl.
    + exists table. rewrite length_map in Hrect. done.
  - intros day_flights Hclean. unfold build_daily_flights_table.
    rewrite filter_excluded_hidden. cbn [mbind res_bind].
    set (shown := take 10 (List.filter _ (df_options day_flights))).
    destruct (make_table_auto_rectangular daily_headers (map daily_row shown)
                daily_aligns) as (table & Htable & Hrect).
    + cbn. lia.
    + apply Forall_forall. intros row Hrow.
      change (map daily_row shown) with (daily_row <$> shown) in Hrow.
      by apply list_elem_of_fmap in Hrow as (c & -> & _).
    + by apply (Hheaders ["Option"; "Airline"; "Price"; "Duration"; "Stops";
                          "Layover City"; "Layover Hours"; "Departure";
                          "Arrival"]%string).
    + apply Forall_forall. intros row Hrow.
      change (map daily_row shown) with (daily_row <$> shown) in Hrow.
      apply list_elem_of_fmap in Hrow as (c & -> & Hc).
      assert (Hc' : c ∈ df_options day_flights).
      { subst shown. apply elem_of_take in Hc as (i & Hi & _).
        apply list_elem_of_lookup_2 in Hi.
        by apply list_elem_of_In, filter_In in Hi as [Hi%list_elem_of_In _]. }
      destruct (proj1 (Forall_forall _ _) Hclean c Hc')
        as (H1 & H2 & H3 & H4 & H5).
      unfold daily_row. cbn [str_of].
      each_elem no_nl.
    + exists table. fold daily_aligns. rewrite Htable. cbn [mbind res_bind].
      split; [done|]. rewrite length_map in Hrect.
      subst shown. rewrite length_take in Hrect. done.
  - intros rows Hclean.
    destruct (make_table_auto_rectangular etihad_headers
                (map etihad_cells rows) etihad_aligns)
      as (table & Htable & Hrect).
    + cbn. lia.
    + apply Forall_forall. intros row Hrow.
      change (map etihad_cells rows) with (etihad_cells <$> rows) in Hrow.
      by apply list_elem_of_fmap in Hrow as (c & -> & _).
    + by apply (Hheaders ["Date"; "Price"; "Duration"; "Layover"]%string).
    + apply Forall_forall. intros row Hrow.
      change (map etihad_cells rows) with (etihad_cells <$> rows) in Hrow.
      apply list_elem_of_fmap in Hrow as (c & -> & Hc).
      destruct (proj1 (Forall_forall _ _) Hclean c Hc) as (H1 & H2).
      unfold etihad_cells. cbn [str_of].
      each_elem no_nl.
    + exists table. rewrite length_map in Hrect. done.
Qed.
(** ** Flight normalizer: edges and carrier codes *)

Lemma length_offer_records strptime carrier_lookup offer :
  (length (offer_records strptime carrier_lookup offer) <= 1)%nat.
Proof.
  unfold offer_records.
  destruct (extract_offer strptime carrier_lookup offer) as [[r|]|e]; cbn; lia.
Qed.

Lemma length_flat_map_le {A B} (f : A -> list B) (l : list A) :
  (forall x, (length (f x) <= 1)%nat) ->
  (length (flat_map f l) <= length l)%nat.
Proof.
  intros Hf. induction l as [|x l IH]; [done|].
  cbn [flat_map length]. rewrite length_app. specialize (Hf x). lia.
Qed.

(** An offer that is not a dictionary adds no record. *)
Lemma offer_records_not_dict strptime carrier_lookup offer :
  (forall d, offer <> JDict d) ->
  offer_records strptime carrier_lookup offer = [].
Proof.
  intros Hd. unfold offer_records, extract_offer.
  destruct offer; try done. by destruct (Hd d).
Qed.

(** X24.  [extract_flights] at the edges of its input.  An empty payload
    or one without ["data"] gives no record.  When ["data"] is a list,
    every offer adds at most one record and an offer that is skipped or
    malformed adds none, without any effect on the others, so the call
    never raises; an offer that is not a dictionary is malformed.  When
    ["data"] is a text or a dictionary the loop runs over characters or
    keys and gives no record.  When ["data"] is null, a truth value or a
    number the call raises [TypeError]: the iteration is outside the
    [try]. *)
Theorem extract_flights_edges (strptime : list N -> res Z)
    (carrier_lookup : list (list N * list N)) :
  extract_flights strptime [] carrier_lookup = Ok [] /\
  (forall raw,
     dict_get raw (lit "data") = Raise KeyError ->
     extract_flights strptime raw carrier_lookup = Ok []) /\
  (forall raw data,
     raw <> [] -> dict_get raw (lit "data") = Ok data ->
     match data with
     | JList offers =>
         exists records,
           extract_flights strptime raw carrier_lookup = Ok records /\
           records = flat_map (offer_records strptime carrier_lookup) offers /\
           (length records <= length offers)%nat
     | JStr _ | JDict _ =>
         extract_flights strptime raw carrier_lookup = Ok []
     | JNull | JBool _ | JInt _ | JFloat _ =>
         extract_flights strptime raw carrier_lookup = Raise TypeError
     end) /\
  (forall offer,
     (forall d, offer <> JDict d) ->
     offer_records strptime carrier_lookup offer = []) /\
  (forall before offer after,
     offer_records strptime carrier_lookup offer = [] ->
     flat_map (offer_records strptime carrier_lookup)
              (before ++ offer :: after)
     = flat_map (offer_records strptime carrier_lookup) (before ++ after)).
Proof.
  split; [done|]. split; [|split; [|split]].
  - intros raw Hdata. unfold extract_flights.
    destruct raw; [done|]. by rewrite Hdata.
  - intros raw data Hne Hdata. unfold extract_flights.
    destruct raw as [|kv raw]; [done|]. rewrite Hdata.
    destruct data as [| | | |s|offers|d]; cbn [py_iter mbind res_bind];
      try done.
    + f_equal. clear Hdata. induction s as [|c s IH]; [done|].
      cbn [map flat_map]. by rewrite IH.
    + eexists. split; [done|]. split; [done|].
      apply length_flat_map_le. intros x. apply length_offer_records.
    + f_equal. clear Hdata. induction d as [|[k v] d IH]; [done|].
      cbn [map flat_map]. by rewrite IH.
  - intros offer. apply offer_records_not_dict.
  - intros before offer after Hnone.
    rewrite !flat_map_app. cbn [flat_map]. by rewrite Hnone.
Qed.

(** X25.  The airline text of a record keeps the carrier code in front:
    when the code of the first segment is a text without a space, the
    airline is the code alone (no name known for it) or the code, [" — "]
    and the name, so cutting the airline at [" — "] gives the code back,
    and the daily tables hide the record exactly when its code is one of
    the excluded ones. *)
Theorem airline_text_keeps_code (strptime : list N -> res Z)
    (carrier_lookup : list (list N * list N)) (offer : json) (r : extracted)
    (code : str) :
  extract_offer strptime carrier_lookup offer = Ok (Some r) ->
  offer_carrier_code offer = Ok (JStr code) ->
  Forall (fun c => c <> chr_space) code ->
  exists airline,
    x_airline r = JStr airline /\
    (airline = code \/
     exists name, name <> [] /\ dict_get carrier_lookup code = Ok name /\
                  airline = code ++ dash_sep ++ name) /\
    (pieces ← split dash_sep airline; index pieces 0) = Ok code /\
    hidden_airline airline = bool_decide (code ∈ EXCLUDED_AIRLINES).
Proof.
  intros H Hcc Hcode. unfold extract_offer in H. unfold offer_carrier_code in Hcc.
  inv_bind H as itineraries Hits. rewrite Hits in Hcc.
  cbn [mbind res_bind] in Hcc.
  destruct (negb (truthy itineraries)); [done|].
  inv_bind H as itin Hitin. rewrite Hitin in Hcc. cbn [mbind res_bind] in Hcc.
  inv_bind H as segments Hsegs. rewrite Hsegs in Hcc.
  cbn [mbind res_bind] in Hcc.
  destruct (negb (truthy segments)); [done|].
  inv_bind H as first_segment Hfirst. rewrite Hfirst in Hcc.
  cbn [mbind res_bind] in Hcc.
  inv_bind H as airline_code Hac. rewrite Hac in Hcc. injection Hcc as ->.
  inv_bind H as airline_name Hname. inv_bind H as price_dict Hpd.
  inv_bind H as total Htotal. inv_bind H as price Hprice.
  inv_bind H as duration_iso Hiso. inv_bind H as duration Hdur.
  inv_bind H as n_segments Hn. inv_bind H as layover Hlay.
  destruct layover as [city hours].
  inv_bind H as departure_dict Hdd. inv_bind H as departure Hdep.
  inv_bind H as last_segment Hlast. inv_bind H as arrival_dict Had.
  inv_bind H as arrival Harr. injection H as <-. cbn [x_airline].
  assert (Hshape : exists airline,
            match airline_name with
            | _ :: _ => JStr (code ++ dash_sep ++ airline_name)
            | [] => JStr code
            end = JStr airline /\
            (airline = code \/
             exists name, name <> [] /\ dict_get carrier_lookup code = Ok name /\
                          airline = code ++ dash_sep ++ name) /\
            exists t, airline = code ++ t /\
                      (t = [] \/ starts_with dash_sep t = true)).
  { unfold lookup_carrier in Hname.
    destruct airline_name as [|c name].
    - exists code. split; [done|]. split; [by left|].
      exists []. split; [by rewrite app_nil_r | by left].
    - exists (code ++ dash_sep ++ c :: name). split; [done|]. split.
      + right. exists (c :: name). split; [done|]. split; [|done].
        destruct (dict_get carrier_lookup code); [|done]. by injection Hname as ->.
      + exists (dash_sep ++ c :: name). split; [done|]. right.
        apply starts_with_spec. by eexists. }
  destruct Hshape as (airline & Hair & Hform & t & Ht & Hsep).
  exists airline. split; [done|]. split; [done|].
  assert (Hbefore : before_sep dash_sep airline = code).
  { rewrite Ht. by apply (before_sep_code chr_space). }
  split.
  - rewrite split_dash_sep. cbn [mbind res_bind].
    destruct (split_go_head dash_sep airline []) as (rest & ->); [done|].
    cbn [index lookup list_lookup rev app]. by rewrite Hbefore.
  - by rewrite <- excluded_is_hidden, Hbefore.
Qed.

Lemma airline_text_keeps_code_witness :
  exists r airline,
    extract_offer strptime_iso sample_carriers sample_connection = Ok (Some r) /\
    x_airline r = JStr airline /\
    (airline = lit "EY" \/
     exists name, name <> [] /\ dict_get sample_carriers (lit "EY") = Ok name /\
                  airline = lit "EY" ++ dash_sep ++ name) /\
    (pieces ← split dash_sep airline; index pieces 0) = Ok (lit "EY") /\
    hidden_airline airline = bool_decide (lit "EY" ∈ EXCLUDED_AIRLINES).
Proof.
  eexists.
  match goal with
  | |- exists airline, ?P /\ _ =>
      assert (Hr : P) by (by vm_compute)
  end.
  destruct (airline_text_keeps_code strptime_iso sample_carriers
              sample_connection _ (lit "EY") Hr)
    as (airline & H1 & H2 & H3 & H4).
  - by vm_compute.
  - by repeat constructor.
  - by exists airline.
Defined.
(** ** Pipeline: the filters and the daily tables *)

Lemma drop_excluded_hidden flights :
  drop_excluded flights
  = Ok (List.filter (fun f => negb (hidden_airline (airline f))) flights).
Proof.
  induction flights as [|f rest IH]; [done|].
  cbn [drop_excluded List.filter]. rewrite split_dash_sep.
  cbn [mbind res_bind].
  destruct (split_go_head dash_sep (airline f) []) as (pieces & ->); [done|].
  cbn [index lookup list_lookup rev app mbind res_bind]. rewrite IH.
  cbn [mbind res_bind]. change excluded with EXCLUDED_AIRLINES.
  rewrite excluded_is_hidden. by destruct (hidden_airline (airline f)).
Qed.

Lemma filter_all {A} (p : A -> bool) (l : list A) :
  Forall (fun x => p x = true) l -> List.filter p l = l.
Proof.
  induction 1 as [|x l Hx _ IH]; [done|].
  cbn [List.filter]. by rewrite Hx, IH.
Qed.

Lemma numbered_options_airline idx flights opt :
  opt ∈ numbered_options idx flights ->
  exists f, f ∈ flights /\ fo_airline opt = airline f.
Proof.
  unfold numbered_options. intros H.
  apply list_elem_of_lookup_1 in H as (i & Hi).
  rewrite list_lookup_imap in Hi.
  destruct (flights !! i) as [f|] eqn:Hf; [|done].
  cbn in Hi. injection Hi as <-. exists f.
  split; [by eapply list_elem_of_lookup_2 | done].
Qed.

Lemma numbered_options_numbers flights : forall idx,
  map fo_option_number (numbered_options idx flights)
  = map (fun i => idx + Z.of_nat i) (seq 0 (length flights)).
Proof.
  unfold numbered_options.
  induction flights as [|f rest IH]; intros idx; [done|].
  cbn [imap map length seq]. f_equal.
  rewrite <- seq_shift, map_map.
  rewrite (map_ext (fun i => idx + Z.of_nat (S i))
                   (fun i => idx + 1 + Z.of_nat i)) by (intros; lia).
  rewrite <- (IH (idx + 1)). f_equal.
  apply imap_ext. intros i x _. cbn. f_equal. lia.
Qed.

(** X26.  The orchestrator keeps, of the flights of a date, those whose
    carrier code is neither [CX] nor [AI] and whose layover is at most six
    hours (a layover that is not a number is dropped).  The table of the
    day applies the same test on the code again, so on what the
    orchestrator kept its filter removes nothing: the table shows the
    first ten of the kept flights, numbered [1, 2, ...] without gaps. *)
Theorem pipeline_filters_agree (date : str) (flights : list flight) :
  exists kept,
    day_flights_kept flights = Ok kept /\
    kept
    = List.filter (fun f => negb (hidden_airline (airline f))
                            && (layover_hours f <=? 6)%float) flights /\
    filter_excluded (df_options (parse_day_flights date kept))
    = Ok (numbered_options 1 kept) /\
    map fo_option_number (take 10 (numbered_options 1 kept))
    = map Z.of_nat (seq 1 (Nat.min 10 (length kept))).
Proof.
  unfold day_flights_kept, within_layover. rewrite drop_excluded_hidden.
  cbn [mbind res_bind]. eexists. split; [done|].
  set (kept := List.filter _ (List.filter _ flights)).
  assert (Hkept : kept
                  = List.filter (fun f => negb (hidden_airline (airline f))
                                          && (layover_hours f <=? 6)%float)
                                flights).
  { subst kept. clear. induction flights as [|f rest IH]; [done|].
    cbn [List.filter]. destruct (hidden_airline (airline f)); cbn [negb andb];
      [done|].
    cbn [List.filter]. rewrite IH. done. }
  split; [done|]. split.
  - unfold parse_day_flights. cbn [df_options].
    rewrite filter_excluded_hidden, parse_options_numbered. f_equal.
    apply filter_all. apply Forall_forall. intros opt Hopt.
    apply numbered_options_airline in Hopt as (f & Hf & ->).
    rewrite Hkept in Hf.
    apply list_elem_of_In, filter_In in Hf as [_ Hf].
    by apply andb_true_iff in Hf as [Hf _].
  - rewrite <- firstn_map, numbered_options_numbers.
    rewrite <- seq_shift, map_map.
    rewrite firstn_map, take_seq.
    apply map_ext. intros i. lia.
Qed.
(** ** Ranking engine: ties *)

(** The head of a list sorted by insertion is the first of its least
    elements: every element before it in the input is strictly greater. *)
Lemma sorted_with_head_first {A} (lt : A -> A -> bool) (l : list A) (m : A) :
  index (sorted_with lt l) 0 = Ok m ->
  exists pre post, l = pre ++ m :: post /\ forall x, x ∈ pre -> lt m x = true.
Proof.
  revert m. induction l as [|x l IH]; intros m H; [done|].
  cbn [sorted_with foldr] in H. fold (sorted_with lt l) in H.
  destruct (sorted_with lt l) as [|y s] eqn:Hs.
  - cbn in H. injection H as <-. exists [], l. split; [done|].
    intros z Hz. by apply elem_of_nil in Hz.
  - cbn [insert_sorted] in H. destruct (lt y x) eqn:Hyx.
    + cbn in H. injection H as <-.
      destruct (IH y eq_refl) as (pre & post & -> & Hpre).
      exists (x :: pre), post. split; [done|].
      intros z Hz. apply elem_of_cons in Hz as [-> | Hz]; [done | by apply Hpre].
    + cbn in H. injection H as <-. exists [], l. split; [done|].
      intros z Hz. by apply elem_of_nil in Hz.
Qed.

(** The normalized flights of a day, cut where the flights are cut. *)
Lemma normalize_all_split fs nfs pre nf post :
  mapM normalize fs = Ok nfs -> nfs = pre ++ nf :: post ->
  exists fpre f fpost,
    fs = fpre ++ f :: fpost /\
    nf_flight nf = f /\ price_val nf = price f /\
    layover_val nf = layover_hours f /\
    Forall2 (fun f' nf' => price_val nf' = price f') fpre pre /\
    Forall2 (fun f' nf' => price_val nf' = price f') fpost post.
Proof.
  intros H ->. apply mapM_res_inv in H.
  apply Forall2_app_inv_r in H as (fpre & frest & Hpre & Hrest & ->).
  apply Forall2_cons_inv_r in Hrest as (f & fpost & Hf & Hpost & ->).
  apply normalize_inv in Hf as (Hfl & Hp & Hl & _).
  exists fpre, f, fpost. split; [done|]. split; [done|]. split; [done|].
  split; [done|]. split.
  - eapply Forall2_impl; [exact Hpre|]. intros f' nf' Hn.
    by apply normalize_inv in Hn as (_ & ? & _).
  - eapply Forall2_impl; [exact Hpost|]. intros f' nf' Hn.
    by apply normalize_inv in Hn as (_ & ? & _).
Qed.

Lemma Forall2_elem_of_l {A B} (R : A -> B -> Prop) (l : list A) (k : list B) x :
  Forall2 R l k -> x ∈ l -> exists y, y ∈ k /\ R x y.
Proof.
  induction 1 as [|a b l k Hab _ IH]; intros Hx; [by apply elem_of_nil in Hx|].
  apply elem_of_cons in Hx as [-> | Hx].
  - exists b. split; [apply elem_of_cons; by left | done].
  - destruct (IH Hx) as (y & Hy & HR). exists y.
    split; [apply elem_of_cons; by right | done].
Qed.

(** One day keeps the description of the first cheapest record. *)
Lemma rank_day_cheapest_record days acc d acc' :
  Forall (fun r => not_nan (price r.2)) (all_records (days ++ [d])) ->
  cheapest_record_spec days (rk_cheapest acc) ->
  rank_day acc d = Ok acc' ->
  cheapest_record_spec (days ++ [d]) (rk_cheapest acc').
Proof.
  intros Hnn Hspec Hstep. rewrite all_records_snoc in Hnn.
  apply Forall_app in Hnn as [Hnn_days Hnn_d].
  destruct (flights d) as [|f0 fs0] eqn:Hfl.
  - rewrite rank_day_empty in Hstep by done. injection Hstep as <-.
    unfold cheapest_record_spec, first_record_cheapest in *.
    rewrite all_records_snoc, Hfl. cbn [map]. rewrite app_nil_r. done.
  - apply rank_day_inv in Hstep
      as (nfs & cf & new & Hn & Hcf & _ & Hch & _); [|by rewrite Hfl].
    rewrite <- Hfl in *. clear Hfl f0 fs0.
    destruct (normalize_all_inv _ _ Hn) as [Hnf1 Hnf2].
    assert (Hnum : forall f', f' ∈ flights d -> not_nan (price f')).
    { intros f' Hf'.
      apply (proj1 (Forall_forall _ _) Hnn_d (date d, f')).
      apply list_elem_of_fmap. by exists f'. }
    pose proof Hcf as Hcf_first.
    apply sorted_by_head in Hcf as [Hcf_in Hcf_min].
    2:{ apply Forall_forall. intros nf Hnf.
        destruct (Hnf1 nf Hnf) as (Hin & -> & _). by apply Hnum. }
    apply sorted_with_head_first in Hcf_first as (pre & post & Hcut & Hpre).
    destruct (normalize_all_split _ _ _ _ _ Hn Hcut)
      as (fpre & f & fpost & Hfs & Hfl & Hp & Hl & Hfpre & Hfpost).
    assert (Hcf_num : not_nan (price_val cf)).
    { rewrite Hp. apply Hnum. rewrite Hfs. apply elem_of_app. right.
      apply elem_of_cons. by left. }
    assert (Hday_pre : forall r', r' ∈ map (pair (date d)) fpre ->
                         (price_val cf <? price r'.2)%float = true).
    { intros r' Hr'. apply list_elem_of_fmap in Hr' as (f' & -> & Hf').
      destruct (Forall2_elem_of_l _ _ _ _ Hfpre Hf') as (nf' & Hnf' & Hp').
      cbn [snd]. rewrite <- Hp'. by apply Hpre. }
    assert (Hday_post : forall r', r' ∈ map (pair (date d)) fpost ->
                          (price r'.2 <? price_val cf)%float = false).
    { intros r' Hr'. apply list_elem_of_fmap in Hr' as (f' & -> & Hf').
      destruct (Hnf2 f') as (nf' & Hnf' & _ & Hp').
      { rewrite Hfs. apply elem_of_app. right. apply elem_of_cons. by right. }
      cbn [snd]. rewrite <- Hp'. by apply Hcf_min. }
    assert (Hday_all : forall r', r' ∈ map (pair (date d)) (flights d) ->
                         (price r'.2 <? price_val cf)%float = false).
    { intros r' Hr'. apply list_elem_of_fmap in Hr' as (f' & -> & Hf').
      destruct (Hnf2 f' Hf') as (nf' & Hnf' & _ & Hp').
      cbn [snd]. rewrite <- Hp'. by apply Hcf_min. }
    assert (Hrecs : all_records (days ++ [d])
                    = (all_records days ++ map (pair (date d)) fpre)
                      ++ (date d, f) :: map (pair (date d)) fpost).
    { rewrite all_records_snoc, Hfs, map_app. cbn [map].
      by rewrite <- app_assoc. }
    rewrite Hch.
    destruct (rk_cheapest acc) as [c|] eqn:Hc;
      cbn [cheapest_record_spec] in Hspec.
    + destruct Hspec as (before & r & after & Hdays & Hdate & Hpr & Ha & Hlc
                         & Hlh & Hb & Haf).
      destruct (price_val cf <? bd_price c)%float eqn:Hlt;
        cbn [cheapest_record_spec].
      * exists (all_records days ++ map (pair (date d)) fpre), (date d, f),
          (map (pair (date d)) fpost).
        cbn [best_day_of bd_date bd_price bd_airline bd_layover_city
             bd_layover_hours fst snd].
        rewrite Hfl. split; [done|]. do 5 (split; [done|]).
        split; [|done].
        intros r' Hr'. apply elem_of_app in Hr' as [Hr' | Hr']; [|by apply Hday_pre].
        assert (Hr'_num : not_nan (price r'.2))
          by apply (proj1 (Forall_forall _ _) Hnn_days r' Hr').
        rewrite Hdays in Hr'.
        apply elem_of_app in Hr' as [Hr' | Hr'].
        -- eapply float_lt_trans; [exact Hlt|]. by apply Hb.
        -- destruct (price_val cf <? price r'.2)%float eqn:E; [done|].
           rewrite <- Hlt. symmetry.
           apply (float_lt_incomparable_trans _ (price r'.2) _); [done | done |].
           apply elem_of_cons in Hr' as [-> | Hr'].
           ++ rewrite Hpr. apply float_lt_irrefl.
           ++ by apply Haf.
      * exists before, r, (after ++ map (pair (date d)) (flights d)).
        split; [by rewrite all_records_snoc, Hdays, <- app_assoc|].
        do 5 (split; [done|]). split; [done|].
        intros r' Hr'. apply elem_of_app in Hr' as [Hr' | Hr']; [by apply Haf|].
        apply (float_lt_incomparable_trans _ (price_val cf) _);
          [done | by apply Hday_all | done].
    + cbn [cheapest_record_spec].
      exists (all_records days ++ map (pair (date d)) fpre), (date d, f),
        (map (pair (date d)) fpost).
      cbn [best_day_of bd_date bd_price bd_airline bd_layover_city
           bd_layover_hours fst snd].
      rewrite Hfl. split; [done|]. do 5 (split; [done|]).
      split; [|done].
      intros r' Hr'. rewrite Hspec in Hr'. cbn [app] in Hr'.
      by apply Hday_pre.
Qed.

Lemma rank_days_cheapest_record days : forall r,
  Forall (fun rec => not_nan (price rec.2)) (all_records days) ->
  rank_days empty_ranking days = Ok r ->
  cheapest_record_spec days (rk_cheapest r).
Proof.
  induction days as [|d days IH] using rev_ind; intros r Hnn Hr.
  - injection Hr as <-. done.
  - rewrite rank_days_snoc in Hr. apply bind_ok_inv in Hr as (r0 & Hr0 & Hd).
    apply (rank_day_cheapest_record days r0 d r); [done| |done].
    apply IH; [|done]. rewrite all_records_snoc in Hnn.
    by apply Forall_app in Hnn as [Hnn _].
Qed.

(** X27.  Ties for the cheapest entry go to the record met first: when
    every record can be scored and every price is a number, the cheapest
    entry of [compute_best_day] describes the first record, in the order
    of the days and of the flights within a day, among those of minimum
    price; every record before it is strictly dearer.  With the price 50
    held by B and C on the first day and by D on the second, the entry is
    B's. *)
Theorem cheapest_tie_goes_to_first_record :
  (forall days,
     Forall priced (all_records days) ->
     exists s,
       compute_best_day days = Ok s /\
       cheapest_record_spec days (cheapest s)) /\
  (exists s,
     compute_best_day equal_price_days = Ok s /\
     bd_date <$> cheapest s = Some (lit "2026-03-20") /\
     bd_airline <$> cheapest s = Some (lit "B")).
Proof.
  split.
  - intros days Hall.
    destruct (rank_days_total days empty_ranking) as (r & Hr).
    { eapply Forall_impl; [exact Hall|]. by intros rec [Hok _]. }
    unfold compute_best_day. rewrite Hr. cbn [mbind res_bind].
    eexists. split; [done|]. cbn [cheapest].
    apply rank_days_cheapest_record; [|done].
    eapply Forall_impl; [exact Hall|]. by intros rec [_ Hnn].
  - eexists. split; [by vm_compute|]. split; by vm_compute.
Qed.
(** ** Flight normalizer: which segments a record reads *)

(** X28.  A record of [extract_flights] reads the first itinerary only:
    its stops are the number of segments less one, its departure is that
    of the first segment and its arrival that of the last, and with one
    stop or more its layover is the time between the arrival of the first
    segment and the departure of the second, at the airport where the
    first segment arrives, whatever the number of further stops.  For a
    journey with 2.5 hours in Abu Dhabi and then 10 hours in Mumbai the
    record has 2 stops and a layover of 2.5 hours in AUH. *)
Theorem record_reads_first_connection :
  (forall strptime carrier_lookup offer r,
     extract_offer strptime carrier_lookup offer = Ok (Some r) ->
     exists segments first last,
       offer_segments offer = Ok segments /\
       py_at segments 0 = Ok first /\
       py_at segments (-1) = Ok last /\
       py_len segments = Ok (x_stops r + 1) /\
       segment_field first "departure" "at" = Ok (x_departure r) /\
       segment_field last "arrival" "at" = Ok (x_arrival r) /\
       (0 < x_stops r ->
        exists second first_arrival second_departure,
          py_at segments 1 = Ok second /\
          segment_field first "arrival" "at" = Ok first_arrival /\
          segment_field second "departure" "at" = Ok second_departure /\
          layover_between strptime first_arrival second_departure
          = Ok (x_layover_hours r) /\
          segment_field first "arrival" "iataCode" = Ok (x_layover_city r))) /\
  (exists r,
     extract_offer strptime_iso sample_carriers two_stop_offer = Ok (Some r) /\
     x_stops r = 2 /\
     x_layover_hours r = 2.5%float /\
     x_layover_city r = JStr (lit "AUH") /\
     x_departure r = JStr (lit "2026-03-20T10:00:00") /\
     x_arrival r = JStr (lit "2026-03-21T16:00:00")).
Proof.
  split.
  - intros strptime carrier_lookup offer r H.
    unfold extract_offer in H. unfold offer_segments, segment_field.
    inv_bind H as itineraries Hits. rewrite Hits. cbn [mbind res_bind].
    destruct (negb (truthy itineraries)); [done|].
    inv_bind H as itin Hitin. rewrite Hitin. cbn [mbind res_bind].
    inv_bind H as segments Hsegs. rewrite Hsegs.
    destruct (negb (truthy segments)); [done|].
    inv_bind H as first_segment Hfirst. inv_bind H as airline_code Hcode.
    inv_bind H as airline_name Hname. inv_bind H as price_dict Hpd.
    inv_bind H as total Htotal. inv_bind H as price Hprice.
    inv_bind H as duration_iso Hiso. inv_bind H as duration Hdur.
    inv_bind H as n_segments Hn. inv_bind H as layover Hlay.
    destruct layover as [city hours].
    inv_bind H as departure_dict Hdd. inv_bind H as departure Hdep.
    inv_bind H as last_segment Hlast. inv_bind H as arrival_dict Had.
    inv_bind H as arrival Harr. injection H as <-.
    cbn [x_stops x_departure x_arrival x_layover_hours x_layover_city].
    exists segments, first_segment, last_segment.
    split; [done|]. split; [done|]. split; [done|].
    split; [rewrite Hn; f_equal; lia|].
    split; [by rewrite Hdd|]. split; [by rewrite Had|].
    intros Hstops. assert ((1 <? n_segments) = true) as Hmany by lia.
    rewrite Hmany in Hlay.
    inv_bind Hlay as first_arrival_dict Hfad.
    inv_bind Hlay as first_arrival Hfa.
    inv_bind Hlay as second_segment Hss.
    inv_bind Hlay as second_departure_dict Hsdd.
    inv_bind Hlay as second_departure Hsd.
    inv_bind Hlay as layover_hours Hlh.
    inv_bind Hlay as first_arrival_dict' Hfad'.
    inv_bind Hlay as layover_city Hlc.
    injection Hlay as <- <-.
    exists second_segment, first_arrival, second_departure.
    split; [done|]. rewrite Hfad. cbn [mbind res_bind].
    split; [done|]. rewrite Hsdd. cbn [mbind res_bind].
    split; [done|]. split; [done|].
    rewrite Hfad in Hfad'. by injection Hfad' as <-.
  - eexists. split; [by vm_compute|]. cbn [x_stops x_layover_hours
      x_layover_city x_departure x_arrival]. by vm_compute.
Qed.
(** ** Report assembler: the carrier section *)

(** With the widths of [auto_column_widths] every line of the table shows
    its cells in full. *)
Lemma make_table_lines_auto_shows (headers : list str)
    (rows : list (list cell)) (padding : Z) (aligns : list str) :
  0 <= padding ->
  (length headers <= length aligns)%nat ->
  Forall (fun row => (length row <= length headers)%nat) rows ->
  exists header_line row_lines,
    make_table_lines headers rows (auto_column_widths headers rows padding)
                     (Some aligns)
    = Ok ([border (auto_column_widths headers rows padding); header_line;
           border (auto_column_widths headers rows padding)]
          ++ row_lines
          ++ [border (auto_column_widths headers rows padding)]) /\
    shows_row (map CStr headers) header_line /\
    Forall2 shows_row rows row_lines.
Proof.
  intros Hpad Hal Hrows.
  set (widths := auto_column_widths headers rows padding).
  assert (Hlw : length widths = length headers)
    by apply length_auto_column_widths.
  assert (Hfit : forall row j c w, row ∈ rows -> row !! j = Some c ->
                   widths !! j = Some w -> len (str_of c) <= w).
  { intros row j c w Hin Hc Hw.
    apply auto_column_widths_cover in Hw as [_ Hcover].
    specialize (Hcover row c Hin Hc). lia. }
  unfold make_table_lines.
  destruct (format_row_shows widths aligns (map CStr headers))
    as (hline & Hh & Hhshow).
  { rewrite length_map. lia. }
  { rewrite length_map. lia. }
  { intros j c w Hc Hw. apply header_cells_lookup in Hc as (h & Hh & ->).
    apply auto_column_widths_cover in Hw as [(h' & Hh' & Hle) _].
    cbn. rewrite Hh in Hh'. injection Hh' as <-. lia. }
  rewrite Hh. cbn [mbind res_bind].
  assert (Hrl : exists rlines,
             mapM (format_row widths aligns) rows = Ok rlines /\
             Forall2 shows_row rows rlines).
  { clearbody widths. clear Hh Hhshow.
    induction Hrows as [|row rows Hrow _ IH].
    - exists []. split; [done | constructor].
    - destruct IH as (ls & Hls & Hshow).
      { intros r j c w Hin. apply Hfit. apply elem_of_cons. by right. }
      destruct (format_row_shows widths aligns row) as (line & Hline & Hlshow);
        [lia | lia | |].
      { intros j c w. apply Hfit. apply elem_of_cons. by left. }
      exists (line :: ls). cbn [mapM]. rewrite Hline. cbn [mbind res_bind].
      fold (mapM (format_row widths aligns) rows). rewrite Hls.
      split; [done | by constructor]. }
  destruct Hrl as (rlines & Hr & Hshow).
  exists hline, rlines. by rewrite Hr.
Qed.

(** C8 (as amended).  When no matching record has a NaN price, the
    carrier section lists exactly the records of the per-day mapping whose
    airline contains "Etihad", ignoring case, in ascending order of price:
    its text is the title and a table with one line for each of these
    records, in the order of their stable ascending sort by price, each
    line showing the date, the price with two decimals, the duration and
    the layover hours of its record; it is the "No flights found"
    placeholder when no record matches.  The section is the fifth of the
    seven parts of the full report.  Of Etihad at 500, Air Canada and
    Etihad at 300, the lines are Etihad at 300, then Etihad at 500. *)
Theorem etihad_section_spec :
  (forall daily_raw,
     Forall (fun r => not_nan (er_price r)) (carrier_matches daily_raw) ->
     exists rows text,
       stable_sort_of (key_lt er_price) (carrier_matches daily_raw) rows /\
       etihad_section daily_raw = Ok text /\
       carrier_section_text rows text /\
       (forall best_days_raw overall_raw, exists best overall daily,
          build_full_report best_days_raw overall_raw daily_raw
          = Ok (join [chr_newline]
                  [best; []; overall; []; text; []; daily]))) /\
  (carrier_matches carrier_days
   = [etihad_row_of (lit "2026-03-20") (carrier_flight airline_etihad 500);
      etihad_row_of (lit "2026-03-21") (carrier_flight airline_etihad 300)] /\
   exists text,
     etihad_section carrier_days = Ok text /\
     lines_of text
     = carrier_title :: [] ::
        [lit "```";
         lit "+--------------+----------+------------+-----------+";
         lit "| Date         |    Price | Duration   |   Layover |";
         lit "+--------------+----------+------------+-----------+";
         lit "| 2026-03-21   |   300.00 | 17h 50m    |      2.5h |";
         lit "| 2026-03-20   |   500.00 | 17h 50m    |      2.5h |";
         lit "+--------------+----------+------------+-----------+";
         lit "```"]).
Proof.
  split; [|split; [by vm_compute|eexists; split; by vm_compute]].
  intros daily_raw Hnn.
  assert (Hsort : stable_sort_of (key_lt er_price)
                    (carrier_matches daily_raw) (etihad_rows daily_raw)).
  { unfold etihad_rows. rewrite collect_etihad_rows_matches.
    by apply sorted_by_stable. }
  destruct (build_full_report_sections no_data [] daily_raw)
    as (_ & _ & text & _ & _ & _ & Htext & _).
  exists (etihad_rows daily_raw), text.
  split; [done|]. split; [done|]. split.
  2:{ intros b o.
      destruct (build_full_report_sections b o daily_raw)
        as (best & overall & carrier & daily & _ & _ & Hc & _ & Hrep).
      rewrite Htext in Hc. injection Hc as <-.
      by exists best, overall, daily. }
  unfold etihad_section in Htext. unfold carrier_section_text.
  destruct (etihad_rows daily_raw) as [|r rs] eqn:Hr.
  { by injection Htext as <-. }
  apply bind_ok_inv in Htext as (table & Htable & Htext).
  injection Htext as <-.
  unfold make_table in Htable.
  apply bind_ok_inv in Htable as (lines & Hlines & Htable).
  injection Htable as <-.
  destruct (make_table_lines_auto_shows etihad_headers
              (map etihad_cells (r :: rs)) default_padding
              [lit "left"; lit "right"; lit "left"; lit "right"])
    as (header_line & row_lines & Hshown & Hheader & Hrows).
  { done. }
  { done. }
  { apply Forall_forall. intros row Hrow.
    apply list_elem_of_In, in_map_iff in Hrow as (r' & <- & _). done. }
  rewrite Hshown in Hlines. injection Hlines as <-.
  eexists _, header_line, row_lines. split; [reflexivity|].
  split; [exact Hheader|].
  change (map etihad_cells (r :: rs)) with (etihad_cells <$> r :: rs) in Hrows.
  rewrite Forall2_fmap_l in Hrows. exact Hrows.
Qed.

Lemma etihad_section_spec_witness :
  exists rows text,
    stable_sort_of (key_lt er_price) (carrier_matches carrier_days) rows /\
    etihad_section carrier_days = Ok text /\
    carrier_section_text rows text /\
    (forall best_days_raw overall_raw, exists best overall daily,
       build_full_report best_days_raw overall_raw carrier_days
       = Ok (join [chr_newline]
               [best; []; overall; []; text; []; daily])).
Proof.
  apply (proj1 etihad_section_spec carrier_days).
  each_elem ltac:(vm_compute; reflexivity).
Defined.

(** C8 (as stated) fails where a matching record has a NaN price.  Of the
    Etihad prices [500; NaN; 300] no element is smaller than the one
    before it, so [sorted] leaves the rows as they are: the section lists
    500.00, nan, 300.00 in this order, which is not ascending. *)
Lemma etihad_section_nan_counterexample :
  exists first second third text,
    carrier_matches carrier_nan_days = [first; second; third] /\
    etihad_rows carrier_nan_days = [first; second; third] /\
    is_run (key_lt er_price) [first; second; third] = true /\
    er_price first = 500%float /\
    er_price third = 300%float /\
    (er_price third <? er_price first)%float = true /\
    ~ ascending (key_lt er_price) (etihad_rows carrier_nan_days) /\
    etihad_section carrier_nan_days = Ok text /\
    lines_of text
    = carrier_title :: [] ::
       [lit "```";
        lit "+--------------+----------+------------+-----------+";
        lit "| Date         |    Price | Duration   |   Layover |";
        lit "+--------------+----------+------------+-----------+";
        lit "| 2026-03-20   |   500.00 | 17h 50m    |      2.5h |";
        lit "| 2026-03-20   |      nan | 17h 50m    |      2.5h |";
        lit "| 2026-03-21   |   300.00 | 17h 50m    |      2.5h |";
        lit "+--------------+----------+------------+-----------+";
        lit "```"].
Proof.
  eexists _, _, _, _. split; [vm_compute; reflexivity|].
  split; [by vm_compute|]. split; [by vm_compute|].
  split; [reflexivity|]. split; [reflexivity|]. split; [by vm_compute|].
  split.
  { assert (Hrows : etihad_rows carrier_nan_days
                    = [etihad_row_of (lit "2026-03-20")
                         (carrier_flight airline_etihad 500);
                       etihad_row_of (lit "2026-03-20")
                         (carrier_flight airline_etihad nan);
                       etihad_row_of (lit "2026-03-21")
                         (carrier_flight airline_etihad 300)])
      by (by vm_compute).
    rewrite Hrows. unfold ascending. intros Hasc.
    apply StronglySorted_inv in Hasc as [_ Hhead].
    apply Forall_cons in Hhead as [_ Hhead].
    apply Forall_cons in Hhead as [Hlt _].
    by vm_compute in Hlt. }
  split; by vm_compute.
Qed.
(** ** Flight normalizer: what a record holds *)

(** *** Signs of the floats the normalizer computes *)













(** *** The duration text *)


(** *** The layover *)



(** *** The record of an offer *)




